(** * HooshNet: the service traffic and lifecycle monitor

    A shallow embedding of [traffic_monitor.py] (class [TrafficMonitor]) and
    the properties of its evaluator, update buffer, scheduler and
    notification dispatcher.

    Conventions of the embedding.
    - Byte counters reported by a panel are integers ([Z]). The GB figures
      and the usage percentage are idealised as exact rationals ([Q]):
      division by [1024 * 1024 * 1024] is exact on floats for counters below
      2^53, and [round(x, 4)] is Python's correctly rounded half-to-even
      rounding to four decimals. The overage check is computed in IEEE 754
      binary64 ([Double]), operation by operation as the code does.
    - [datetime] values are integers counting microseconds, [timedelta] is
      their difference; one evaluation reads the clock once ([now]).
    - Message texts and keyboards are abstracted to the kind of the message
      and the service it is about.
    - Every [async def] is a state transformer on [monitor]; the coroutines
      gathered by [asyncio.gather] are run one after the other in list
      order, which is one schedule of the single event loop.
    - Collaborators (panel adapters, the messenger, the user table and the
      queries of the store) answer through an [environment] of oracles. A
      call that raises is told from a call that fails wherever the two
      leave a function through different paths, which is in the three
      deletion functions; the direct sends and the bulk write either
      return or raise. *)

From stdpp Require Import gmap strings list.
From Stdlib Require Import QArith Lqa.
From Stdlib Require SpecFloat.

Open Scope Z_scope.

(** ** Numbers *)

Module Num.

(** [1024 * 1024 * 1024] *)
Definition GIB : Z := 1024 * 1024 * 1024.

(** [x >= y] and [x < y] on the idealised floats, as booleans. *)
Definition Qgeb (x y : Q) : bool := Qle_bool y x.
Definition Qltb (x y : Q) : bool := negb (Qle_bool y x).
Definition Qgtb (x y : Q) : bool := negb (Qle_bool x y).

(** Python's [max(a, b)]: [b] when it is greater, else [a]. *)
Definition max (a b : Q) : Q := if Qgtb b a then b else a.

(** Nearest integer to [x], ties to the even neighbour. *)
Definition round_half_even (x : Q) : Z :=
  let n := Qnum x in
  let d := Z.pos (Qden x) in
  let f := n / d in
  let r := n mod d in
  match 2 * r ?= d with
  | Lt => f
  | Gt => f + 1
  | Eq => if Z.even f then f else f + 1
  end.

(** Python's [round(x, 4)]. *)
Definition round4 (x : Q) : Q :=
  (inject_Z (round_half_even (x * inject_Z 10000)) / inject_Z 10000)%Q.

(** [round(b / (1024 * 1024 * 1024), 4) if b > 0 else 0] *)
Definition bytes_to_gb (b : Z) : Q :=
  if 0 <? b then round4 (inject_Z b / inject_Z GIB) else 0%Q.

(** [(used / total) * 100 if total > 0 else 0], as the exact rational.
    The code's double is this value rounded twice, after the division and
    after the product ([Double.percentage]). The two threshold tests of the
    evaluator, against 70 and against 100, are made on the exact value,
    which can differ from the code's only for a quotient within the
    rounding error of the threshold; the test against 110 of the overage
    check is made on the double. *)
Definition usage_percentage (used total : Z) : Q :=
  if 0 <? total then (inject_Z used / inject_Z total * 100)%Q else 0%Q.

End Num.

(** ** Binary64

    The doubles of the overage check, as the Standard Library specifies
    IEEE 754 arithmetic ([SpecFloat], precision 53, exponents up to 1024):
    every operation returns the exact result rounded to the nearest double,
    ties to even. *)

Module Double.

Definition prec : Z := 53.
Definition emax : Z := 1024.

Definition double : Type := SpecFloat.spec_float.

(** [float(z)] *)
Definition of_Z (z : Z) : double :=
  SpecFloat.binary_normalize prec emax z 0 false.

Definition mul (x y : double) : double := SpecFloat.SFmul prec emax x y.
Definition div (x y : double) : double := SpecFloat.SFdiv prec emax x y.
Definition sub (x y : double) : double := SpecFloat.SFsub prec emax x y.

(** [x > y] and [x >= y] *)
Definition gtb (x y : double) : bool := SpecFloat.SFltb y x.
Definition geb (x y : double) : bool := SpecFloat.SFleb y x.

(** The double nearest to a rational: the quotient of its numerator and
    its denominator in lowest terms, which are doubles themselves when they
    are below 2^53. It is the double that [a / b] is for two such integers,
    and the double that [round(x, 4)] returns for the decimal it rounds
    to. *)
Definition of_Q (q : Q) : double :=
  let r := Qred q in
  div (of_Z (Qnum r)) (of_Z (Z.pos (Qden r))).

(** [(used / total) * 100] as the code computes it, from the exact
    percentage [p]: the exact quotient is [p / 100], the code's quotient is
    the double nearest to it, and the product with [100] is rounded once
    more. *)
Definition percentage (p : Q) : double :=
  mul (of_Q (p / 100)) (of_Z 100).

(** The exact value of a finite double. *)
Definition to_Q (x : double) : Q :=
  match x with
  | SpecFloat.S754_finite sign m e =>
      let v := if 0 <=? e then inject_Z (Z.pos m * 2 ^ e)
               else (Z.pos m # Pos.pow 2 (Z.to_pos (- e)))%Q in
      if sign then (- v)%Q else v
  | _ => 0%Q
  end.

End Double.

(** ** Time *)

Module Time.

(** A [datetime], in microseconds. *)
Definition datetime : Type := Z.

Definition MICROS_PER_SECOND : Z := 1000000.
Definition MICROS_PER_DAY : Z := 86400 * MICROS_PER_SECOND.

(** [timedelta.days]: whole days, rounded towards minus infinity. *)
Definition days (td : Z) : Z := td / MICROS_PER_DAY.

(** [td.total_seconds() > 24 * 3600] *)
Definition more_than_24h (td : Z) : bool :=
  24 * 3600 * MICROS_PER_SECOND <? td.

End Time.

(** ** Data model *)

(** A row of the services table, which is also the [service] dict that
    [get_all_active_services] hands to the evaluator. A key that
    [dict.get] may find missing is given its default. *)
Record service : Type := mk_service {
  service_id : Z;
  user_id : Z;
  panel_id : Z;                    (* 0 is falsy: the service has no panel *)
  inbound_id : Z;
  client_uuid : option string;     (* [None] when the column is NULL *)
  client_name : string;
  product_id : option Z;           (* [Some] for a plan service *)
  expires_at : option Time.datetime;
  total_gb : Q;
  used_gb : Q;
  status : string;                 (* "active" or "disabled" *)
  is_active : bool;
  exhausted_at : option Time.datetime;
  expired_at : option Time.datetime;
  warned_70_percent : bool;
  warned_100_percent : bool;
  warned_one_week : bool;          (* reused for the three-day warning *)
  warned_expired : bool
}.

(** The client details a panel reports; all counters are bytes and a
    missing key reads as [0]. *)
Record client : Type := mk_client {
  total_traffic : Z;
  used_traffic : Z;
  totalGB : Z;
  up : Z;
  down : Z
}.

Record user : Type := mk_user {
  telegram_id : Z
}.

(** The four flag-guarded notifications and the three final ones. *)
Inductive message_kind : Type :=
| Warning70
| TrafficExhausted
| ThreeDaysToExpiry
| PlanExpired
| DeletedForOverage
| DeletedAfterGrace
| DeletedExpiredPlan.

Global Instance message_kind_eq_dec : EqDecision message_kind.
Proof. solve_decision. Defined.

(** A message: its kind and the service it is about. *)
Record message : Type := mk_message {
  msg_kind : message_kind;
  msg_service : Z
}.

Global Instance message_eq_dec : EqDecision message.
Proof. solve_decision. Defined.

(** Calls that change the remote panel. *)
Inductive panel_call : Type :=
| DisableClient (panel inbound : Z) (uuid : option string)
| DeleteClient (panel inbound : Z) (uuid : option string).

(** Events sent to the reporting channel. *)
Inductive report : Type :=
| ReportVolume70 (sid : Z)
| ReportVolumeExhausted (sid : Z)
| ReportExpiringSoon (sid : Z)
| ReportExpired (sid : Z)
| ReportAutoDeleted (sid : Z).

(** One staged counter write, [{'id': service_id, 'used_gb': used_gb}]. *)
Definition counter_update : Type := (Z * Q)%type.

(** The warning flags [get_service_warning_flags] returns. *)
Record warning_flags : Type := mk_flags {
  flag_70_percent : bool;
  flag_100_percent : bool;
  flag_one_week : bool;
  flag_expired : bool
}.

(** ** The store

    [professional_database.ProfessionalDatabaseManager] is outside the
    sources at hand; its calls are modelled on a finite map of rows. *)

Module Store.

Abbreviation table := (gmap Z service).

(** The row with one column written, for each column the monitor writes. *)
Definition set_status (s : string) (r : service) : service :=
  mk_service (service_id r) (user_id r) (panel_id r) (inbound_id r)
    (client_uuid r) (client_name r) (product_id r) (expires_at r)
    (total_gb r) (used_gb r) s (is_active r) (exhausted_at r)
    (expired_at r) (warned_70_percent r) (warned_100_percent r)
    (warned_one_week r) (warned_expired r).

Definition set_used_gb (g : Q) (r : service) : service :=
  mk_service (service_id r) (user_id r) (panel_id r) (inbound_id r)
    (client_uuid r) (client_name r) (product_id r) (expires_at r)
    (total_gb r) g (status r) (is_active r) (exhausted_at r)
    (expired_at r) (warned_70_percent r) (warned_100_percent r)
    (warned_one_week r) (warned_expired r).

Definition set_exhausted_at (t : option Time.datetime) (r : service) : service :=
  mk_service (service_id r) (user_id r) (panel_id r) (inbound_id r)
    (client_uuid r) (client_name r) (product_id r) (expires_at r)
    (total_gb r) (used_gb r) (status r) (is_active r) t
    (expired_at r) (warned_70_percent r) (warned_100_percent r)
    (warned_one_week r) (warned_expired r).

Definition set_expired_at (t : option Time.datetime) (r : service) : service :=
  mk_service (service_id r) (user_id r) (panel_id r) (inbound_id r)
    (client_uuid r) (client_name r) (product_id r) (expires_at r)
    (total_gb r) (used_gb r) (status r) (is_active r) (exhausted_at r)
    t (warned_70_percent r) (warned_100_percent r)
    (warned_one_week r) (warned_expired r).

Definition set_warned_70_percent (b : bool) (r : service) : service :=
  mk_service (service_id r) (user_id r) (panel_id r) (inbound_id r)
    (client_uuid r) (client_name r) (product_id r) (expires_at r)
    (total_gb r) (used_gb r) (status r) (is_active r) (exhausted_at r)
    (expired_at r) b (warned_100_percent r)
    (warned_one_week r) (warned_expired r).

Definition set_warned_100_percent (b : bool) (r : service) : service :=
  mk_service (service_id r) (user_id r) (panel_id r) (inbound_id r)
    (client_uuid r) (client_name r) (product_id r) (expires_at r)
    (total_gb r) (used_gb r) (status r) (is_active r) (exhausted_at r)
    (expired_at r) (warned_70_percent r) b
    (warned_one_week r) (warned_expired r).

Definition set_warned_one_week (b : bool) (r : service) : service :=
  mk_service (service_id r) (user_id r) (panel_id r) (inbound_id r)
    (client_uuid r) (client_name r) (product_id r) (expires_at r)
    (total_gb r) (used_gb r) (status r) (is_active r) (exhausted_at r)
    (expired_at r) (warned_70_percent r) (warned_100_percent r)
    b (warned_expired r).

Definition set_warned_expired (b : bool) (r : service) : service :=
  mk_service (service_id r) (user_id r) (panel_id r) (inbound_id r)
    (client_uuid r) (client_name r) (product_id r) (expires_at r)
    (total_gb r) (used_gb r) (status r) (is_active r) (exhausted_at r)
    (expired_at r) (warned_70_percent r) (warned_100_percent r)
    (warned_one_week r) b.

(** Modelled from the spec: [update_status(id, status)] of the store,
    whose code is not among the sources. *)
Definition update_service_status (sid : Z) (s : string) (t : table) : table :=
  alter (set_status s) sid t.

(** Modelled from the spec: [update_exhaustion_anchor(id)]; the anchor is
    the time of the call. *)
Definition update_service_exhaustion_time (now : Time.datetime) (sid : Z)
    (t : table) : table :=
  alter (set_exhausted_at (Some now)) sid t.

(** Modelled from the spec: [update_expiration_anchor(id)]. *)
Definition update_service_expiration_time (now : Time.datetime) (sid : Z)
    (t : table) : table :=
  alter (set_expired_at (Some now)) sid t.

(** Modelled from the spec: [set_warning_flag(id, name, bool)] for the
    70% flag; the monitor calls one function per flag. *)
Definition update_service_70_percent_warning (sid : Z) (warned : bool)
    (t : table) : table :=
  alter (set_warned_70_percent warned) sid t.

(** Modelled from the spec: [set_warning_flag(id, name, bool)] for the
    exhaustion flag. *)
Definition update_service_100_percent_warning (sid : Z) (warned : bool)
    (t : table) : table :=
  alter (set_warned_100_percent warned) sid t.

(** Modelled from the spec: [set_warning_flag(id, name, bool)] for the
    flag reused for the three-day warning. *)
Definition update_service_warned_one_week (sid : Z) (warned : bool)
    (t : table) : table :=
  alter (set_warned_one_week warned) sid t.

(** Modelled from the spec: [set_warning_flag(id, name, bool)] for the
    expiration flag. *)
Definition update_service_expired_warning (sid : Z) (warned : bool)
    (t : table) : table :=
  alter (set_warned_expired warned) sid t.

(** Modelled from the spec: [get_warning_flags(id)], a fresh read of the
    row; a row that is gone has no flag set. *)
Definition get_service_warning_flags (sid : Z) (t : table) : warning_flags :=
  match t !! sid with
  | Some r => mk_flags (warned_70_percent r) (warned_100_percent r)
                (warned_one_week r) (warned_expired r)
  | None => mk_flags false false false false
  end.

(** Modelled from the spec: [delete_service(id)] removes the row. *)
Definition delete_service (sid : Z) (t : table) : table := delete sid t.

(** Modelled from the spec: [bulk_update_counters([{id, used_gb}])]
    writes each staged counter, in order. *)
Definition bulk_update_client_status (updates : list counter_update)
    (t : table) : table :=
  foldl (fun acc u => alter (set_used_gb (snd u)) (fst u) acc) t updates.

(** Modelled from the spec: [get_all_active_services()], the rows with
    [is_active] set. *)
Definition get_all_active_services (t : table) : list service :=
  filter (fun r => is_active r = true) (snd <$> map_to_list t).

End Store.

(** ** Collaborators *)

(** One panel adapter. [batch_clients] is what
    [get_all_clients_from_panel_batch] builds from the single
    list-everything call, keyed by client uuid (empty when the call yields
    nothing or raises); how it reads the inbounds is not modelled. The
    callback by which a Marzban adapter moves a service to another inbound
    is left out.

    [login] and [disable_client] say whether the call returns [True]; when
    they are [false] the call returned [False] or raised, which every
    caller but the deletion functions treats alike. There a call that
    raises ends the function: [login_raises] tells, for a [login] that is
    [false], that it raised, and [delete_client_raises] that
    [delete_client] raised instead of returning [delete_client].
    [get_client_details] is [None] when the call returns nothing or
    raises. *)
Record panel_manager : Type := mk_panel {
  login : bool;
  batch_clients : gmap string client;
  get_client_details : Z -> string -> option client;
  disable_client : Z -> option string -> bool;
  delete_client : Z -> option string -> bool;
  login_raises : bool;
  delete_client_raises : Z -> option string -> bool
}.

Record environment : Type := mk_env {
  (** [db.get_user_by_id] *)
  get_user_by_id : Z -> option user;
  (** [admin_manager.get_panel_manager] *)
  get_panel_manager : Z -> option panel_manager;
  (** [bot.send_message] returns ([true]) or raises ([false]) *)
  bot_send_message : Z -> message -> bool;
  (** a reporting system is found on [bot_instance] or on [bot] *)
  reporting_system : bool;
  (** [bot.reporting_system] is there and truthy *)
  bot_reporting_system : bool;
  (** [db.bulk_update_client_status] returns ([true]) or raises ([false]) *)
  bulk_update_ok : bool;
  (** [db.get_services_for_deletion()], asked at the given time on the
      table as it is: the store's query is not among the sources, so it is
      whatever function of the two the environment says *)
  get_services_for_deletion : Time.datetime -> gmap Z service -> list service;
  (** [db.get_expired_plan_services_for_deletion()], likewise *)
  get_expired_plan_services_for_deletion :
    Time.datetime -> gmap Z service -> list service
}.

(** ** The monitor's state

    What the monitor owns ([message_queue], [pending_updates]) and what it
    changes in the world: the store's table and the logs of calls to the
    panels, the messenger and the reporting channel, oldest first. *)
Record monitor : Type := mk_monitor {
  db : gmap Z service;
  message_queue : list (Z * message);
  pending_updates : list counter_update;
  bot_sent : list (Z * message);
  panel_calls : list panel_call;
  bulk_calls : list (list counter_update);
  reports : list report
}.

(** The state with one component changed, or with one more call in a log. *)
Definition with_db (f : gmap Z service -> gmap Z service) (st : monitor) : monitor :=
  mk_monitor (f (db st)) (message_queue st) (pending_updates st)
    (bot_sent st) (panel_calls st) (bulk_calls st) (reports st).

Definition with_pending_updates (l : list counter_update) (st : monitor) : monitor :=
  mk_monitor (db st) (message_queue st) l
    (bot_sent st) (panel_calls st) (bulk_calls st) (reports st).

Definition call_panel (c : panel_call) (st : monitor) : monitor :=
  mk_monitor (db st) (message_queue st) (pending_updates st)
    (bot_sent st) (panel_calls st ++ [c]) (bulk_calls st) (reports st).

Definition call_bot (chat_id : Z) (m : message) (st : monitor) : monitor :=
  mk_monitor (db st) (message_queue st) (pending_updates st)
    (bot_sent st ++ [(chat_id, m)]) (panel_calls st) (bulk_calls st) (reports st).

Definition call_bulk (l : list counter_update) (st : monitor) : monitor :=
  mk_monitor (db st) (message_queue st) (pending_updates st)
    (bot_sent st) (panel_calls st) (bulk_calls st ++ [l]) (reports st).

Definition call_report (r : report) (st : monitor) : monitor :=
  mk_monitor (db st) (message_queue st) (pending_updates st)
    (bot_sent st) (panel_calls st) (bulk_calls st) (reports st ++ [r]).

(** [_send_message_safe]: put the message on the dispatcher's queue. *)
Definition _send_message_safe (chat_id : Z) (m : message) (st : monitor) : monitor :=
  mk_monitor (db st) (message_queue st ++ [(chat_id, m)]) (pending_updates st)
    (bot_sent st) (panel_calls st) (bulk_calls st) (reports st).

(** Python truthiness of an optional integer. *)
Definition truthy (o : option Z) : bool :=
  match o with
  | Some z => negb (z =? 0)
  | None => false
  end.

Definition is_disabled (s : service) : bool := String.eqb (status s) "disabled".

(** ** The traffic evaluator and the lifecycle state machine *)

Section Evaluator.

Variable env : environment.
(** [datetime.now()] of the evaluation. *)
Variable now : Time.datetime.

(** The channel report that follows a notification:
    [if reporting_system: await reporting_system.report_...]. *)
Definition report_to_channel (r : report) (st : monitor) : monitor :=
  if reporting_system env then call_report r st else st.

(** [send_70_percent_warning] *)
Definition send_70_percent_warning (s : service) (st : monitor) : monitor :=
  match get_user_by_id env (user_id s) with
  | None => st
  | Some u =>
      let flags := Store.get_service_warning_flags (service_id s) (db st) in
      if flag_70_percent flags then st
      else
        report_to_channel (ReportVolume70 (service_id s))
          (_send_message_safe (telegram_id u)
             (mk_message Warning70 (service_id s)) st)
  end.

(** [send_exhaustion_notification] *)
Definition send_exhaustion_notification (s : service) (st : monitor) : monitor :=
  match get_user_by_id env (user_id s) with
  | None => st
  | Some u =>
      let flags := Store.get_service_warning_flags (service_id s) (db st) in
      if flag_100_percent flags then st
      else
        let st1 := _send_message_safe (telegram_id u)
                     (mk_message TrafficExhausted (service_id s)) st in
        let st2 := with_db
                     (Store.update_service_100_percent_warning (service_id s) true)
                     st1 in
        report_to_channel (ReportVolumeExhausted (service_id s)) st2
  end.

(** [send_three_days_expiration_warning] *)
Definition send_three_days_expiration_warning (s : service) (remaining_days : Z)
    (st : monitor) : monitor :=
  match get_user_by_id env (user_id s) with
  | None => st
  | Some u =>
      report_to_channel (ReportExpiringSoon (service_id s))
        (_send_message_safe (telegram_id u)
           (mk_message ThreeDaysToExpiry (service_id s)) st)
  end.

(** [send_plan_expiration_notification] *)
Definition send_plan_expiration_notification (s : service) (st : monitor) : monitor :=
  match get_user_by_id env (user_id s) with
  | None => st
  | Some u =>
      let flags := Store.get_service_warning_flags (service_id s) (db st) in
      if flag_expired flags then st
      else
        let st1 := _send_message_safe (telegram_id u)
                     (mk_message PlanExpired (service_id s)) st in
        let st2 := with_db
                     (Store.update_service_expired_warning (service_id s) true)
                     st1 in
        report_to_channel (ReportExpired (service_id s)) st2
  end.

(** The start of the three deletion paths,
    [if panel_manager and panel_manager.login(): panel_manager.delete_client(...)]:
    the call that is made on the panel. *)
Definition delete_from_panel (s : service) (st : monitor) : monitor :=
  match get_panel_manager env (panel_id s) with
  | Some pm =>
      if login pm
      then call_panel (DeleteClient (panel_id s) (inbound_id s) (client_uuid s)) st
      else st
  | None => st
  end.

(** One of the two panel calls of a deletion path raises: the exception
    leaves the function through its outer handler, which only logs. *)
Definition deletion_interrupted (s : service) : bool :=
  match get_panel_manager env (panel_id s) with
  | Some pm =>
      if login pm then delete_client_raises pm (inbound_id s) (client_uuid s)
      else login_raises pm
  | None => false
  end.

(** The end of a deletion path: [await self.bot.send_message(...)] to the
    owner, then the channel report; a send that raises leaves the
    function through its handler. *)
Definition notify_deleted (kind : message_kind) (reporting : bool) (s : service)
    (st : monitor) : monitor :=
  match get_user_by_id env (user_id s) with
  | None => st
  | Some u =>
      let m := mk_message kind (service_id s) in
      let st1 := call_bot (telegram_id u) m st in
      if bot_send_message env (telegram_id u) m
      then (if reporting then call_report (ReportAutoDeleted (service_id s)) st1
            else st1)
      else st1
  end.

(** [delete_service_for_overage] *)
Definition delete_service_for_overage (s : service) (st : monitor) : monitor :=
  let st1 := delete_from_panel s st in
  if deletion_interrupted s then st1
  else
    let st2 := with_db (Store.delete_service (service_id s)) st1 in
    notify_deleted DeletedForOverage (reporting_system env) s st2.

(** [delete_exhausted_service] *)
Definition delete_exhausted_service (s : service) (st : monitor) : monitor :=
  let st1 := delete_from_panel s st in
  if deletion_interrupted s then st1
  else
    let st2 := with_db (Store.delete_service (service_id s)) st1 in
    notify_deleted DeletedAfterGrace (reporting_system env) s st2.

(** [delete_expired_plan_service] *)
Definition delete_expired_plan_service (s : service) (st : monitor) : monitor :=
  let st1 := delete_from_panel s st in
  if deletion_interrupted s then st1
  else
    let st2 := with_db (Store.delete_service (service_id s)) st1 in
    notify_deleted DeletedExpiredPlan (bot_reporting_system env) s st2.

(** The overage of the two overage checks, in GB, computed in doubles
    from the GB figures they are handed (each the double nearest to the
    four-decimal figure):
    [total_gb_bytes = total_gb * GIB if total_gb > 0 else 0], likewise
    [used_gb_bytes], [overage_bytes = used_gb_bytes - total_gb_bytes if
    used_gb_bytes > total_gb_bytes else 0], [overage_bytes / GIB]. *)
Definition overage_gb (used_gb total_gb : Q) : Double.double :=
  let gib := Double.of_Z Num.GIB in
  let zero := Double.of_Z 0 in
  let total_gb := Double.of_Q total_gb in
  let used_gb := Double.of_Q used_gb in
  let total_gb_bytes :=
    if Double.gtb total_gb zero then Double.mul total_gb gib else zero in
  let used_gb_bytes :=
    if Double.gtb used_gb zero then Double.mul used_gb gib else zero in
  let overage_bytes :=
    if Double.gtb used_gb_bytes total_gb_bytes
    then Double.sub used_gb_bytes total_gb_bytes else zero in
  Double.div overage_bytes gib.

(** [usage_percentage >= 110 or overage_gb >= 1.0], on the doubles. *)
Definition exceeded_limits (usage_percentage overage : Double.double) : bool :=
  Double.geb usage_percentage (Double.of_Z 110)
  || Double.geb overage (Double.of_Z 1).

(** The body the two overage checks share, from the anchor on. The
    percentage and the two GB figures come as their exact values; the
    check works on the doubles the code holds for them. *)
Definition check_overage_since (anchor : option Time.datetime) (s : service)
    (usage_percentage used_gb total_gb : Q) (st : monitor) : monitor :=
  match anchor with
  | None => st
  | Some t =>
      let time_diff := now - t in
      if Time.more_than_24h time_diff then st
      else if exceeded_limits (Double.percentage usage_percentage)
                (overage_gb used_gb total_gb)
           then delete_service_for_overage s st
           else st
  end.

(** [check_disabled_service_overage] *)
Definition check_disabled_service_overage (s : service)
    (usage_percentage used_gb total_gb : Q) (st : monitor) : monitor :=
  check_overage_since (exhausted_at s) s usage_percentage used_gb total_gb st.

(** [check_expired_service_overage] *)
Definition check_expired_service_overage (s : service)
    (usage_percentage used_gb total_gb : Q) (st : monitor) : monitor :=
  check_overage_since (expired_at s) s usage_percentage used_gb total_gb st.

(** [handle_traffic_exhausted] *)
Definition handle_traffic_exhausted (s : service) (st : monitor) : monitor :=
  if is_disabled s then st
  else
    match get_panel_manager env (panel_id s) with
    | Some pm =>
        if login pm then
          let st1 := call_panel
                       (DisableClient (panel_id s) (inbound_id s) (client_uuid s))
                       st in
          if disable_client pm (inbound_id s) (client_uuid s) then
            let st2 := with_db
                         (Store.update_service_status (service_id s) "disabled")
                         st1 in
            let st3 := with_db
                         (Store.update_service_exhaustion_time now (service_id s))
                         st2 in
            send_exhaustion_notification s st3
          else st1
        else st
    | None => st
    end.

(** [handle_plan_expiration] *)
Definition handle_plan_expiration (s : service) (st : monitor) : monitor :=
  match get_panel_manager env (panel_id s) with
  | Some pm =>
      if login pm then
        let st1 := call_panel
                     (DisableClient (panel_id s) (inbound_id s) (client_uuid s))
                     st in
        if disable_client pm (inbound_id s) (client_uuid s) then
          let st2 := with_db
                       (Store.update_service_status (service_id s) "disabled")
                       st1 in
          let st3 := with_db
                       (Store.update_service_expiration_time now (service_id s))
                       st2 in
          send_plan_expiration_notification s st3
        else st1
      else st
  | None => st
  end.

(** [check_plan_expiration] *)
Definition check_plan_expiration (s : service) (c : option client)
    (st : monitor) : monitor :=
  match expires_at s with
  | None => st
  | Some exp_date =>
      if negb (truthy (product_id s)) then st
      else
        let time_diff := exp_date - now in
        let remaining_days := Time.days time_diff in
        let warned_three_days := warned_one_week s in
        let st1 :=
          if (remaining_days <=? 3) && (0 <? remaining_days)
             && negb warned_three_days
          then
            with_db (Store.update_service_warned_one_week (service_id s) true)
              (send_three_days_expiration_warning s remaining_days st)
          else st in
        if exp_date <=? now then
          if negb (is_disabled s) then handle_plan_expiration s st1
          else
            match expired_at s, c with
            | Some _, Some cl =>
                let total_traffic_bytes :=
                  if total_traffic cl =? 0 then totalGB cl else total_traffic cl in
                let used_traffic_bytes := used_traffic cl in
                if 0 <? total_traffic_bytes then
                  check_expired_service_overage s
                    (Num.usage_percentage used_traffic_bytes total_traffic_bytes)
                    (Num.bytes_to_gb used_traffic_bytes)
                    (Num.bytes_to_gb total_traffic_bytes) st1
                else st1
            | _, _ => st1
            end
        else st1
  end.

(** The total the evaluator resolves from the client details:
    [total_traffic], else [totalGB]. *)
Definition resolved_total (c : client) : Z :=
  if total_traffic c =? 0 then totalGB c else total_traffic c.

(** The usage the evaluator resolves: [used_traffic], else [up + down]
    when one of them is positive. *)
Definition resolved_used (c : client) : Z :=
  if used_traffic c =? 0
  then (if (0 <? up c) || (0 <? down c) then up c + down c else used_traffic c)
  else used_traffic c.

(** [self.pending_updates.append({'id': service_id, 'used_gb': used_gb})] *)
Definition stage_update (sid : Z) (g : Q) (st : monitor) : monitor :=
  with_pending_updates (pending_updates st ++ [(sid, g)]) st.

(** The threshold checks of [process_client_traffic], from the
    percentage on. *)
Definition check_thresholds (s : service) (usage_percentage used_gb total_gb : Q)
    (st : monitor) : monitor :=
  let st1 :=
    if Num.Qgeb usage_percentage 70 && Num.Qltb usage_percentage 100 then
      if negb (warned_70_percent s) && negb (is_disabled s) then
        with_db (Store.update_service_70_percent_warning (service_id s) true)
          (send_70_percent_warning s st)
      else st
    else st in
  if Num.Qgeb usage_percentage 100 then
    if negb (is_disabled s) then handle_traffic_exhausted s st1
    else check_disabled_service_overage s usage_percentage used_gb total_gb st1
  else st1.

(** [process_client_traffic] *)
Definition process_client_traffic (s : service) (c : client) (st : monitor)
    : monitor :=
  let is_plan_service := match product_id s with Some _ => true | None => false end in
  let st1 := if is_plan_service then check_plan_expiration s (Some c) st else st in
  let total_traffic_bytes := resolved_total c in
  let used_traffic_bytes := resolved_used c in
  let used_gb := Num.bytes_to_gb used_traffic_bytes in
  let total_gb := Num.bytes_to_gb total_traffic_bytes in
  let st2 := stage_update (service_id s) used_gb st1 in
  if total_traffic_bytes <=? 0 then st2
  else
    check_thresholds s
      (Num.usage_percentage used_traffic_bytes total_traffic_bytes)
      used_gb total_gb st2.

(** *** The steps of [check_plan_expiration] and [check_thresholds]

    The two functions, cut at the points where one check ends and the
    next begins; [check_plan_expiration_steps] and
    [check_thresholds_steps] show that they are the compositions. *)

(** The three-day step of [check_plan_expiration]. *)
Definition three_day_step (s : service) (st : monitor) : monitor :=
  match expires_at s with
  | Some exp_date =>
      if truthy (product_id s)
         && (Time.days (exp_date - now) <=? 3) && (0 <? Time.days (exp_date - now))
         && negb (warned_one_week s)
      then
        with_db (Store.update_service_warned_one_week (service_id s) true)
          (send_three_days_expiration_warning s
             (Time.days (exp_date - now)) st)
      else st
  | None => st
  end.

(** The expiry step of [check_plan_expiration]. *)
Definition expiry_step (s : service) (c : option client) (st : monitor) : monitor :=
  match expires_at s with
  | Some exp_date =>
      if truthy (product_id s) && (exp_date <=? now) then
        if negb (is_disabled s) then handle_plan_expiration s st
        else
          match expired_at s, c with
          | Some _, Some cl =>
              if 0 <? resolved_total cl then
                check_expired_service_overage s
                  (Num.usage_percentage (used_traffic cl) (resolved_total cl))
                  (Num.bytes_to_gb (used_traffic cl))
                  (Num.bytes_to_gb (resolved_total cl)) st
              else st
          | _, _ => st
          end
      else st
  | None => st
  end.

(** The 70% step and the 100% step of [check_thresholds]. *)
Definition warning_step (s : service) (p : Q) (st : monitor) : monitor :=
  if Num.Qgeb p 70 && Num.Qltb p 100 then
    if negb (warned_70_percent s) && negb (is_disabled s) then
      with_db (Store.update_service_70_percent_warning (service_id s) true)
        (send_70_percent_warning s st)
    else st
  else st.

Definition exhaustion_step (s : service) (p u g : Q) (st : monitor) : monitor :=
  if Num.Qgeb p 100 then
    if negb (is_disabled s) then handle_traffic_exhausted s st
    else check_disabled_service_overage s p u g st
  else st.

End Evaluator.

(** ** One reconciliation cycle and the update buffer *)

Section Cycle.

Variable env : environment.
Variable now : Time.datetime.

(** [flush_updates] *)
Definition flush_updates (st : monitor) : monitor :=
  match pending_updates st with
  | [] => st
  | _ :: _ =>
      let updates_to_process := pending_updates st in
      let st1 := with_pending_updates [] st in
      let st2 := call_bulk updates_to_process st1 in
      if bulk_update_ok env
      then with_db (Store.bulk_update_client_status updates_to_process) st2
      else st2
  end.

(** [str(service.get('client_uuid', ''))]: a uuid that is [None] becomes
    the string "None". *)
Definition uuid_str (s : service) : string :=
  match client_uuid s with
  | Some u => u
  | None => "None"
  end.

(** The client details [check_service_traffic_optimized] ends up with:
    the batch entry, or the direct details when the batch entry is missing
    or shows no usage. [None] when it returns without evaluating. *)
Definition details_optimized (pm : panel_manager) (s : service) : option client :=
  let client_uuid := uuid_str s in
  if String.eqb client_uuid "" then None
  else
    let client_details := batch_clients pm !! client_uuid in
    let fallback :=
      let direct_details := get_client_details pm (inbound_id s) client_uuid in
      match direct_details, client_details with
      | Some d, Some c => if 0 <? used_traffic d then Some d else Some c
      | Some d, None => Some d
      | None, _ => client_details
      end in
    match client_details with
    | Some c => if used_traffic c =? 0 then fallback else Some c
    | None => fallback
    end.

(** [check_service_traffic_optimized] *)
Definition check_service_traffic_optimized (pm : panel_manager) (s : service)
    (st : monitor) : monitor :=
  match details_optimized pm s with
  | Some c => process_client_traffic env now s c st
  | None => st
  end.

(** The client details [check_service_traffic] gets with one call per
    service; here [not client_uuid] holds for [None] and for the empty
    string. *)
Definition details_direct (s : service) : option client :=
  match client_uuid s with
  | None => None
  | Some client_uuid =>
      if String.eqb client_uuid "" then None
      else
        match get_panel_manager env (panel_id s) with
        | Some pm =>
            if login pm then get_client_details pm (inbound_id s) client_uuid
            else None
        | None => None
        end
  end.

(** [check_service_traffic] *)
Definition check_service_traffic (s : service) (st : monitor) : monitor :=
  match details_direct s with
  | Some c => process_client_traffic env now s c st
  | None => st
  end.

(** What one panel's task evaluates: each of its services with the
    client details found for it. *)
Definition panel_details (panel : Z) (s : service) : option client :=
  match get_panel_manager env panel with
  | Some pm =>
      if login pm then
        if decide (batch_clients pm = ∅) then details_direct s
        else details_optimized pm s
      else None
  | None => None
  end.

(** [check_panel_services_parallel] *)
Definition check_panel_services_parallel (panel : Z) (services : list service)
    (st : monitor) : monitor :=
  match get_panel_manager env panel with
  | Some pm =>
      if login pm then
        if decide (batch_clients pm = ∅)
        then foldl (fun acc s => check_service_traffic s acc) st services
        else foldl (fun acc s => check_service_traffic_optimized pm s acc)
               st services
      else st
  | None => st
  end.

(** [services_by_panel[panel_id].append(service)] on the insertion-ordered
    [defaultdict]. *)
Fixpoint add_to_panel (panel : Z) (s : service)
    (groups : list (Z * list service)) : list (Z * list service) :=
  match groups with
  | [] => [(panel, [s])]
  | (p, l) :: rest =>
      if panel =? p then (p, l ++ [s]) :: rest
      else (p, l) :: add_to_panel panel s rest
  end.

(** The grouping loop of [check_all_services]; a falsy [panel_id] is
    skipped. *)
Definition services_by_panel (services : list service) : list (Z * list service) :=
  foldl (fun groups s =>
           if panel_id s =? 0 then groups
           else add_to_panel (panel_id s) s groups)
    [] services.

(** The panel tasks of one cycle, run in turn. *)
Definition check_panels (groups : list (Z * list service)) (st : monitor)
    : monitor :=
  foldl (fun acc g => check_panel_services_parallel (fst g) (snd g) acc)
    st groups.

(** [check_all_services] *)
Definition check_all_services (st : monitor) : monitor :=
  let services := Store.get_all_active_services (db st) in
  let st1 := with_pending_updates [] st in
  match services with
  | [] => st1
  | _ :: _ => flush_updates (check_panels (services_by_panel services) st1)
  end.

(** The services one cycle evaluates, with the client details each is
    evaluated on, in the order of evaluation. *)
Definition evaluated_in_panel (g : Z * list service) : list (service * client) :=
  omap (fun s => pair s <$> panel_details (fst g) s) (snd g).

Definition evaluated (services : list service) : list (service * client) :=
  concat (evaluated_in_panel <$> services_by_panel services).

(** The counter write the evaluator stages for a service. *)
Definition staged_entry (sc : service * client) : counter_update :=
  (service_id (fst sc), Num.bytes_to_gb (resolved_used (snd sc))).

End Cycle.

(** ** The grace-period deletion sweep *)

(** [check_for_deletion]. The second query is asked when the first loop is
    over, on the table it left. *)
Definition check_for_deletion (env : environment) (now : Time.datetime)
    (st : monitor) : monitor :=
  let services_to_delete := get_services_for_deletion env now (db st) in
  let st1 := foldl (fun acc s => delete_exhausted_service env s acc)
               st services_to_delete in
  let expired_plan_services :=
    get_expired_plan_services_for_deletion env now (db st1) in
  foldl (fun acc s => delete_expired_plan_service env s acc)
    st1 expired_plan_services.

(** *** The two queries as the specification describes them *)

Definition past_grace (now : Time.datetime) (anchor : option Time.datetime) : bool :=
  match anchor with
  | Some t => 24 * 3600 * Time.MICROS_PER_SECOND <=? now - t
  | None => false
  end.

(** Modelled from the spec: [get_services_past_grace_period()], the
    disabled services whose exhaustion anchor is 24 hours old or older. *)
Definition exhausted_past_grace (now : Time.datetime) (t : gmap Z service)
    : list service :=
  filter (fun r => is_disabled r && past_grace now (exhausted_at r) = true)
    (snd <$> map_to_list t).

(** Modelled from the spec: [get_expired_plan_services_past_grace_period()],
    the plan services past [expired_at] by 24 hours. *)
Definition expired_past_grace (now : Time.datetime) (t : gmap Z service)
    : list service :=
  filter (fun r => is_disabled r && past_grace now (expired_at r) = true)
    (snd <$> map_to_list t).

(** ** The scheduler: the loop of [start_monitoring] *)

Module Scheduler.

(** What the loop does that can be observed from outside. *)
Inductive action : Type :=
| RunCheckAllServices
| RunCheckForDeletion
| LogError
| LogSlowCycle
| Sleep (seconds : Q).

(** Where an exception escapes the [try] body of an iteration. *)
Inductive stage : Type :=
| BeforeChecks
| AfterCheckAllServices
| AfterCheckForDeletion.

(** What the world decides for one iteration. *)
Record iteration : Type := mk_iteration {
  it_env : environment;
  it_now : Time.datetime;
  (** an exception escapes at this stage *)
  it_raises : option stage;
  (** [time.time() - check_start_time], in seconds *)
  it_duration : Q;
  (** [stop_monitoring()] is called while the iteration runs *)
  it_stop : bool
}.

Record scheduler : Type := mk_scheduler {
  monitoring : bool;
  mon : monitor;
  trace : list action
}.

(** [wait_time = max(0, 180 - check_duration)] *)
Definition wait_time (check_duration : Q) : Q :=
  Num.max 0 (180 - check_duration).

(** The sleep that ends an iteration which did not raise. *)
Definition end_of_cycle (check_duration : Q) : list action :=
  if Num.Qgtb (wait_time check_duration) 0
  then [Sleep (wait_time check_duration)]
  else [LogSlowCycle; Sleep 0.1].

(** The handler: log, then [asyncio.sleep(60)]. *)
Definition on_error : list action := [LogError; Sleep 60].

(** The body of the [while]. *)
Definition iteration_body (it : iteration) (s : scheduler) : scheduler :=
  let checked := check_all_services (it_env it) (it_now it) (mon s) in
  let swept := check_for_deletion (it_env it) (it_now it) checked in
  match it_raises it with
  | Some BeforeChecks =>
      mk_scheduler (monitoring s) (mon s) (trace s ++ on_error)
  | Some AfterCheckAllServices =>
      mk_scheduler (monitoring s) checked
        (trace s ++ [RunCheckAllServices] ++ on_error)
  | Some AfterCheckForDeletion =>
      mk_scheduler (monitoring s) swept
        (trace s ++ [RunCheckAllServices; RunCheckForDeletion] ++ on_error)
  | None =>
      mk_scheduler (monitoring s) swept
        (trace s ++ [RunCheckAllServices; RunCheckForDeletion]
           ++ end_of_cycle (it_duration it))
  end.

(** [stop_monitoring] *)
Definition stop_monitoring (s : scheduler) : scheduler :=
  mk_scheduler false (mon s) (trace s).

(** [while self.monitoring: ...], one iteration per element of the
    list; the list is the fuel, and a loop that used it up is still
    running exactly when [monitoring] holds. *)
Fixpoint run (its : list iteration) (s : scheduler) : scheduler :=
  match its with
  | [] => s
  | it :: rest =>
      if monitoring s then
        let s1 := iteration_body it s in
        run rest (if it_stop it then stop_monitoring s1 else s1)
      else s
  end.

(** The sleeps of a trace, in order. *)
Definition sleeps (tr : list action) : list Q :=
  omap (fun a => match a with Sleep q => Some q | _ => None end) tr.

End Scheduler.

(** ** The notification dispatcher: [_process_message_queue] *)

Module Dispatcher.

(** One call of [bot.send_message] by the worker. *)
Record send : Type := mk_send {
  send_to : Z;
  send_message : message;
  (** loop time when the call is made and when it is over *)
  send_started : Q;
  send_finished : Q;
  (** the call returned; [false] when it raised *)
  send_delivered : bool
}.

Record worker : Type := mk_worker {
  monitoring : bool;
  queue : list (Z * message);
  last_message_time : gmap Z Q;
  (** [asyncio.get_event_loop().time()] *)
  clock : Q;
  sent : list send
}.

(** What the world decides for one turn of the worker's loop. All times
    are durations in seconds. *)
Record tick : Type := mk_tick {
  (** messages put on the queue before the worker's [get] returns *)
  arrivals : list (Z * message);
  (** time that passes until [get] returns the item *)
  idle : Q;
  (** how much longer than asked [asyncio.sleep] takes *)
  oversleep : Q;
  (** how long the send takes *)
  send_duration : Q;
  (** the send returns, or raises *)
  send_ok : bool
}.

(** [self.min_message_interval = 1.0] *)
Definition min_message_interval : Q := 1.

(** One turn of [while self.monitoring]. *)
Definition step (t : tick) (w : worker) : worker :=
  if negb (monitoring w) then w
  else
    match queue w ++ arrivals t with
    | [] =>
        (* [wait_for] times out after a second: [continue] *)
        mk_worker (monitoring w) [] (last_message_time w)
          (clock w + 1) (sent w)
    | (chat_id, m) :: rest =>
        let now := (clock w + idle t)%Q in
        let last_time := default 0%Q (last_message_time w !! chat_id) in
        let time_since_last := (now - last_time)%Q in
        let started :=
          if Num.Qltb time_since_last min_message_interval
          then (now + (min_message_interval - time_since_last) + oversleep t)%Q
          else now in
        let finished := (started + send_duration t)%Q in
        mk_worker (monitoring w) rest
          (if send_ok t then <[chat_id := finished]> (last_message_time w)
           else last_message_time w)
          finished
          (sent w ++ [mk_send chat_id m started finished (send_ok t)])
    end.

Definition run (ts : list tick) (w : worker) : worker :=
  foldl (fun acc t => step t acc) w ts.

(** The durations of a tick are not negative. *)
Definition tick_ok (t : tick) : Prop :=
  (0 <= idle t /\ 0 <= oversleep t /\ 0 <= send_duration t)%Q.

End Dispatcher.


(** ** Vocabulary of the properties *)

(** How often a message of kind [k] about service [sid] is in a list of
    (recipient, message) pairs. *)
Definition occurrences (k : message_kind) (sid : Z) (l : list (Z * message)) : nat :=
  length (filter (fun x => snd x = mk_message k sid) l).

(** Notifications of kind [k] about [sid] put on the dispatcher's queue. *)
Definition queued (k : message_kind) (sid : Z) (st : monitor) : nat :=
  occurrences k sid (message_queue st).

(** A step that puts at most one message on the queue, of kind [k] about
    [sid]. *)
Definition emits (k : message_kind) (sid : Z) (st st' : monitor) : Prop :=
  message_queue st' = message_queue st
  \/ exists chat, message_queue st' = message_queue st ++ [(chat, mk_message k sid)].

(** A step that leaves the queue alone. *)
Definition silent (st st' : monitor) : Prop :=
  message_queue st' = message_queue st.

(** Every row there afterwards was there before, and is [R]-related to
    what it was. *)
Definition rows_from (R : service -> service -> Prop) (t t' : gmap Z service) : Prop :=
  forall sid r', t' !! sid = Some r' -> exists r, t !! sid = Some r /\ R r r'.

(** Every row there before is still there, [R]-related to what it was. *)
Definition rows_kept (R : service -> service -> Prop) (t t' : gmap Z service) : Prop :=
  forall sid r, t !! sid = Some r -> exists r', t' !! sid = Some r' /\ R r r'.

(** A relation between a row and its later self that the writes of the
    expiry path respect. *)
Class PlanStable (R : service -> service -> Prop) : Prop := {
  plan_stable_preorder :: PreOrder R;
  plan_stable_status : forall r, R r (Store.set_status "disabled" r);
  plan_stable_expired_at : forall t r, R r (Store.set_expired_at t r);
  plan_stable_one_week : forall r, R r (Store.set_warned_one_week true r);
  plan_stable_expired : forall r, R r (Store.set_warned_expired true r)
}.

(** The same for the writes of the traffic path. *)
Class TrafficStable (R : service -> service -> Prop) : Prop := {
  traffic_stable_preorder :: PreOrder R;
  traffic_stable_status : forall r, R r (Store.set_status "disabled" r);
  traffic_stable_exhausted_at : forall t r, R r (Store.set_exhausted_at t r);
  traffic_stable_70 : forall r, R r (Store.set_warned_70_percent true r);
  traffic_stable_100 : forall r, R r (Store.set_warned_100_percent true r)
}.

(** What only the traffic path writes in a row: the exhaustion anchor and
    the two volume flags are as they were. *)
Definition traffic_fields_same (r r' : service) : Prop :=
  exhausted_at r' = exhausted_at r
  /\ warned_70_percent r' = warned_70_percent r
  /\ warned_100_percent r' = warned_100_percent r.

(** The final notice a deletion path sends to the owner, if there is one
    and the path gets that far. *)
Definition final_notice (env : environment) (k : message_kind) (s : service)
    : list (Z * message) :=
  if deletion_interrupted env s then []
  else
    match get_user_by_id env (user_id s) with
    | Some u => [(telegram_id u, mk_message k (service_id s))]
    | None => []
    end.

(** A warning flag that is set stays set. *)
Definition flags_only_raised (r r' : service) : Prop :=
  (warned_70_percent r = true -> warned_70_percent r' = true)
  /\ (warned_100_percent r = true -> warned_100_percent r' = true)
  /\ (warned_one_week r = true -> warned_one_week r' = true)
  /\ (warned_expired r = true -> warned_expired r' = true).

(** A row keeps its id, and a disabled row stays disabled. *)
Definition stays_disabled (r r' : service) : Prop :=
  service_id r' = service_id r
  /\ (is_disabled r = true -> is_disabled r' = true).

(** The usage counter of a row is as it was. *)
Definition used_gb_same (r r' : service) : Prop := used_gb r' = used_gb r.

(** The flag that guards each kind of warning; the final notices of the
    deletion paths have none. *)
Definition guarding_flag (k : message_kind) : option (service -> bool) :=
  match k with
  | Warning70 => Some warned_70_percent
  | TrafficExhausted => Some warned_100_percent
  | ThreeDaysToExpiry => Some warned_one_week
  | PlanExpired => Some warned_expired
  | _ => None
  end.

(** The row of service [sid], if the store holds one, has flag [f] set. *)
Definition flagged (f : service -> bool) (sid : Z) (st : monitor) : Prop :=
  forall r, db st !! sid = Some r -> f r = true.

(** A step of the evaluation of service [sid] that may queue a message of
    kind [k], guarded by flag [f]: it queues at most that one message, it
    sets the flag unless it leaves the queue alone, and it resets no flag. *)
Definition guarded_step (k : message_kind) (f : service -> bool) (sid : Z)
    (st st' : monitor) : Prop :=
  emits k sid st st'
  /\ (silent st st' \/ flagged f sid st')
  /\ rows_from flags_only_raised (db st) (db st').

(** The table files every row under its own id. *)
Definition filed_by_id (st : monitor) : Prop :=
  forall sid r, db st !! sid = Some r -> service_id r = sid.

(** ** Repeated evaluation *)

(** One later evaluation of service [sid], on the row the store holds for
    it then; a service whose row is gone is not evaluated any more. *)
Definition evaluate_from_store (sid : Z)
    (ev : environment * Time.datetime * client) (st : monitor) : monitor :=
  match db st !! sid with
  | Some r => process_client_traffic (fst (fst ev)) (snd (fst ev)) r (snd ev) st
  | None => st
  end.

Definition evaluations_from_store (sid : Z)
    (evs : list (environment * Time.datetime * client)) (st : monitor) : monitor :=
  foldl (fun acc ev => evaluate_from_store sid ev acc) st evs.


(** ** The claims that do not hold as they are worded *)

(** The exhaustion property without any condition on the panel or the
    owner: a service with a positive total that is active and is seen at
    100% or more is disabled, gets its anchor, and has one exhaustion
    notice queued. *)
Definition exhaustion_claim (env : environment) (now : Time.datetime)
    (s : service) (c : client) (st : monitor) : Prop :=
  db st !! service_id s = Some s ->
  0 < resolved_total c ->
  status s = "active" ->
  (100 <= Num.usage_percentage (resolved_used c) (resolved_total c))%Q ->
  let st' := process_client_traffic env now s c st in
  (exists r', db st' !! service_id s = Some r'
              /\ status r' = "disabled" /\ is_Some (exhausted_at r'))
  /\ queued TrafficExhausted (service_id s) st'
     = S (queued TrafficExhausted (service_id s) st).

(** The expiry check of [check_plan_expiration] fires: the service is a
    plan whose [expires_at] has been reached. *)
Definition expiry_due (now : Time.datetime) (s : service) : bool :=
  match expires_at s with
  | Some exp_date => truthy (product_id s) && (exp_date <=? now)
  | None => false
  end.

(** The 70% property without any condition on the owner: a service seen
    between 70% and 100%, not disabled and not yet warned, has one 70%
    warning queued, its flag set and its status left as it was. *)
Definition warning_claim (env : environment) (now : Time.datetime)
    (s : service) (c : client) (st : monitor) : Prop :=
  db st !! service_id s = Some s ->
  0 < resolved_total c ->
  (70 <= Num.usage_percentage (resolved_used c) (resolved_total c))%Q ->
  (Num.usage_percentage (resolved_used c) (resolved_total c) < 100)%Q ->
  is_disabled s = false ->
  warned_70_percent s = false ->
  let st' := process_client_traffic env now s c st in
  queued Warning70 (service_id s) st' = S (queued Warning70 (service_id s) st)
  /\ (exists r', db st' !! service_id s = Some r'
                 /\ warned_70_percent r' = true /\ status r' = status s).

(** The overage as the specification words it: [used_bytes - total_bytes],
    clamped at zero, in GB. *)
Definition spec_overage_gb (used_bytes total_bytes : Z) : Q :=
  (inject_Z (Z.max 0 (used_bytes - total_bytes)) / inject_Z Num.GIB)%Q.

(** The breach as the specification words it. *)
Definition spec_breach (used_bytes total_bytes : Z) : Prop :=
  (110 <= Num.usage_percentage used_bytes total_bytes)%Q
  \/ (1 <= spec_overage_gb used_bytes total_bytes)%Q.

(** The overage property with the remote deletion unconditional: for a
    disabled volume service inside its grace period, the evaluation deletes
    the row and the remote client exactly when the limits are breached. *)
Definition overage_claim (env : environment) (now : Time.datetime)
    (s : service) (c : client) (st : monitor) : Prop :=
  db st !! service_id s = Some s ->
  product_id s = None ->
  is_disabled s = true ->
  (exists a, exhausted_at s = Some a
             /\ now - a < 24 * 3600 * Time.MICROS_PER_SECOND) ->
  0 < resolved_total c ->
  let st' := process_client_traffic env now s c st in
  spec_breach (resolved_used c) (resolved_total c)
  <-> (db st' !! service_id s = None
       /\ DeleteClient (panel_id s) (inbound_id s) (client_uuid s) ∈ panel_calls st').

(** ** Concrete services, panels and clients *)

Module Examples.

Definition GIB : Z := Num.GIB.

Definition owner : user := mk_user 5001.

(** A panel that answers and does what it is asked. *)
Definition panel_ok : panel_manager :=
  mk_panel true ∅ (fun _ _ => None) (fun _ _ => true) (fun _ _ => true)
    false (fun _ _ => false).

(** A panel whose login fails. *)
Definition panel_down : panel_manager :=
  mk_panel false ∅ (fun _ _ => None) (fun _ _ => false) (fun _ _ => false)
    false (fun _ _ => false).

Definition env_with (users : Z -> option user) (pm : panel_manager) : environment :=
  mk_env users (fun _ => Some pm) (fun _ _ => true) true true true
    exhausted_past_grace expired_past_grace.

Definition known_owner (uid : Z) : option user :=
  if uid =? 7 then Some owner else None.

(** Everything works. *)
Definition env_ok : environment := env_with known_owner panel_ok.
(** The panel cannot be reached. *)
Definition env_panel_down : environment := env_with known_owner panel_down.
(** The owner of the service is not in the user table. *)
Definition env_no_owner : environment := env_with (fun _ => None) panel_ok.

(** An active volume service of 10 GB, nothing warned yet. *)
Definition volume_service : service :=
  mk_service 1 7 1 3 (Some "c0ffee") "svc-1" None None 10 0 "active" true
    None None false false false false.

Definition at_noon : Time.datetime := 1000 * Time.MICROS_PER_DAY.

(** The same service an hour after it was disabled for exhaustion. *)
Definition disabled_service : service :=
  mk_service 1 7 1 3 (Some "c0ffee") "svc-1" None None 10 10 "disabled" true
    (Some (at_noon - 3600 * Time.MICROS_PER_SECOND)) None false true false false.

Definition monitor_with (r : service) : monitor :=
  mk_monitor {[ service_id r := r ]} [] [] [] [] [] [].

(** 10 GB total with 7.5 GB, 10.5 GB and one byte less than 11 GB used. *)
Definition used_75_percent : client := mk_client (10 * GIB) (15 * GIB / 2) 0 0 0.
Definition used_105_percent : client := mk_client (10 * GIB) (21 * GIB / 2) 0 0 0.
Definition used_almost_110_percent : client :=
  mk_client (10 * GIB) (11 * GIB - 1) 0 0 0.

(** No limit: the panel reports a total of zero. *)
Definition unlimited : client := mk_client 0 (50 * GIB) 0 0 0.

(** 10 GB total with 11.5 GB used. *)
Definition used_115_percent : client := mk_client (10 * GIB) (23 * GIB / 2) 0 0 0.

(** A plan with two days and an hour to go, as the evaluator was handed
    it before the three-day warning went out ... *)
Definition plan_unwarned : service :=
  mk_service 2 7 1 3 (Some "decade") "plan-2" (Some 4)
    (Some (at_noon + 2 * Time.MICROS_PER_DAY + 3600 * Time.MICROS_PER_SECOND))
    10 0 "active" true None None false false false false.

(** ... and as the store holds it once the warning went out. *)
Definition plan_warned : service :=
  Store.set_warned_one_week true plan_unwarned.

End Examples.

(** ** The scheduler claim as it is worded *)

(** An iteration that does not raise ends with one sleep, of exactly
    [max(0, 180 - elapsed)] seconds. *)
Definition cadence_claim (it : Scheduler.iteration) (s : Scheduler.scheduler) : Prop :=
  Scheduler.it_raises it = None ->
  exists q,
    Scheduler.sleeps (Scheduler.trace (Scheduler.iteration_body it s))
    = Scheduler.sleeps (Scheduler.trace s) ++ [q]
    /\ (q == Num.max 0 (180 - Scheduler.it_duration it))%Q.

Module SchedulerExamples.

(** A cycle that took 200 seconds. *)
Definition slow_iteration : Scheduler.iteration :=
  Scheduler.mk_iteration Examples.env_ok Examples.at_noon None 200 false.

Definition started : Scheduler.scheduler :=
  Scheduler.mk_scheduler true (Examples.monitor_with Examples.volume_service) [].

End SchedulerExamples.

(** ** The dispatcher claim as it is worded *)

(** The (recipient, message) pairs of a list of sends. *)
Definition entries (l : list Dispatcher.send) : list (Z * message) :=
  (fun a => (Dispatcher.send_to a, Dispatcher.send_message a)) <$> l.

(** A worker as [__init__] leaves it, with some messages queued already. *)
Definition fresh_worker (q : list (Z * message)) (t0 : Q) : Dispatcher.worker :=
  Dispatcher.mk_worker true q ∅ t0 [].

(** Any two sends to one recipient start at least the minimum interval
    apart. *)
Definition spacing_claim (ts : list Dispatcher.tick) (w : Dispatcher.worker) : Prop :=
  Forall Dispatcher.tick_ok ts ->
  forall i j a b,
    (i < j)%nat ->
    Dispatcher.sent (Dispatcher.run ts w) !! i = Some a ->
    Dispatcher.sent (Dispatcher.run ts w) !! j = Some b ->
    Dispatcher.send_to a = Dispatcher.send_to b ->
    (Dispatcher.send_started a + Dispatcher.min_message_interval
     <= Dispatcher.send_started b)%Q.

(** What the worker knows about the past: the recorded times are not in
    the future, every delivered send is covered by the time recorded for
    its recipient, and a send that follows a delivered one to the same
    recipient started an interval after that one was over. *)
Record consistent (w : Dispatcher.worker) : Prop := mk_consistent {
  recorded_in_past :
    forall c t, Dispatcher.last_message_time w !! c = Some t ->
                (t <= Dispatcher.clock w)%Q;
  delivered_recorded :
    forall a, a ∈ Dispatcher.sent w -> Dispatcher.send_delivered a = true ->
              exists t,
                Dispatcher.last_message_time w !! Dispatcher.send_to a = Some t
                /\ (Dispatcher.send_finished a <= t)%Q;
  delivered_spaced :
    forall i j a b,
      (i < j)%nat ->
      Dispatcher.sent w !! i = Some a -> Dispatcher.sent w !! j = Some b ->
      Dispatcher.send_to a = Dispatcher.send_to b ->
      Dispatcher.send_delivered a = true ->
      (Dispatcher.send_finished a + Dispatcher.min_message_interval
       <= Dispatcher.send_started b)%Q;
  started_then_finished :
    forall a, a ∈ Dispatcher.sent w ->
              (Dispatcher.send_started a <= Dispatcher.send_finished a)%Q
}.

Module DispatcherExamples.

Definition first : message := mk_message Warning70 1.
Definition second : message := mk_message TrafficExhausted 1.

(** A send that raises at once, then one that goes through at once. *)
Definition raises : Dispatcher.tick := Dispatcher.mk_tick [] 0 0 0 false.
Definition delivers : Dispatcher.tick := Dispatcher.mk_tick [] 0 0 0 true.

(** Two messages for recipient 5001 are waiting at loop time 100. *)
Definition two_waiting : Dispatcher.worker :=
  fresh_worker [(5001, first); (5001, second)] 100.

(** Ten messages for one recipient, queued at once, and ten sends that
    go through. *)
Definition ten_messages : list (Z * message) :=
  (fun i => (5001, mk_message Warning70 (Z.of_nat i))) <$> seq 0 10.
Definition ten_sends : list Dispatcher.tick := replicate 10 delivers.

End DispatcherExamples.


(** ** Vocabulary of the further properties *)

(** What an evaluation may do to a row: the identity of the service, its
    plan, its quota, its counter and [is_active] are as they were; the
    status is as it was or has become "disabled"; an anchor or a flag that
    is set stays set. *)
Definition evaluation_keeps (r r' : service) : Prop :=
  service_id r' = service_id r
  /\ user_id r' = user_id r
  /\ panel_id r' = panel_id r
  /\ inbound_id r' = inbound_id r
  /\ client_uuid r' = client_uuid r
  /\ client_name r' = client_name r
  /\ product_id r' = product_id r
  /\ expires_at r' = expires_at r
  /\ total_gb r' = total_gb r
  /\ used_gb r' = used_gb r
  /\ is_active r' = is_active r
  /\ (status r' = status r \/ status r' = "disabled")
  /\ (is_Some (exhausted_at r) -> is_Some (exhausted_at r'))
  /\ (is_Some (expired_at r) -> is_Some (expired_at r'))
  /\ flags_only_raised r r'.

(** The panel of a service can be reached and disables its client. *)
Definition panel_disables (env : environment) (s : service) : bool :=
  match get_panel_manager env (panel_id s) with
  | Some pm => login pm && disable_client pm (inbound_id s) (client_uuid s)
  | None => false
  end.

(** A relation between a row and its later self that every write of an
    evaluation at time [now] respects. *)
Class WritesStable (now : Time.datetime) (R : service -> service -> Prop) : Prop := {
  writes_stable_preorder :: PreOrder R;
  writes_stable_status : forall r, R r (Store.set_status "disabled" r);
  writes_stable_exhausted_at : forall r, R r (Store.set_exhausted_at (Some now) r);
  writes_stable_expired_at : forall r, R r (Store.set_expired_at (Some now) r);
  writes_stable_70 : forall r, R r (Store.set_warned_70_percent true r);
  writes_stable_100 : forall r, R r (Store.set_warned_100_percent true r);
  writes_stable_one_week : forall r, R r (Store.set_warned_one_week true r);
  writes_stable_expired : forall r, R r (Store.set_warned_expired true r)
}.

(** The panel of a service is found and its login succeeds. *)
Definition panel_reachable (env : environment) (s : service) : bool :=
  match get_panel_manager env (panel_id s) with
  | Some pm => login pm
  | None => false
  end.

(** The direct send of a final notice to the owner of a service returns. *)
Definition notice_delivered (env : environment) (k : message_kind) (s : service)
    : bool :=
  match get_user_by_id env (user_id s) with
  | Some u => bot_send_message env (telegram_id u) (mk_message k (service_id s))
  | None => false
  end.

(** The services of a list whose deletion is not cut short by a panel
    call that raises. *)
Definition completed (env : environment) (l : list service) : list service :=
  filter (fun s => deletion_interrupted env s = false) l.

(** The table without the rows of the listed services. *)
Definition without_rows (l : list service) (t : gmap Z service) : gmap Z service :=
  foldl (fun acc s => delete (service_id s) acc) t l.

(** The sends of a worker lie one after the other on the loop's clock:
    each is over by now, and each was over before the next one started. *)
Record in_sequence (w : Dispatcher.worker) : Prop := mk_in_sequence {
  sends_are_over :
    forall a, a ∈ Dispatcher.sent w ->
              (Dispatcher.send_started a <= Dispatcher.send_finished a)%Q
              /\ (Dispatcher.send_finished a <= Dispatcher.clock w)%Q;
  sends_in_turn :
    forall i j a b,
      (i < j)%nat ->
      Dispatcher.sent w !! i = Some a -> Dispatcher.sent w !! j = Some b ->
      (Dispatcher.send_finished a <= Dispatcher.send_started b)%Q
}.

(** The services of one panel, in the order of the list. *)
Definition services_of_panel (p : Z) (services : list service) : list service :=
  filter (fun s => panel_id s = p) services.

(** The groups are those of the services seen so far: one group for each
    panel that has been seen, under distinct keys, each holding the
    services of its panel in the order in which they were seen. *)
Definition grouped (seen : list service) (groups : list (Z * list service)) : Prop :=
  NoDup (fst <$> groups)
  /\ (forall p l, (p, l) ∈ groups ->
                  p <> 0 /\ l <> [] /\ l = services_of_panel p seen)
  /\ (forall s, s ∈ seen -> panel_id s <> 0 ->
                exists l, (panel_id s, l) ∈ groups).

(** All that an evaluation can change in a row when the service was handed
    over as disabled: the three-day flag. *)
Definition week_flag_at_most (r r' : service) : Prop :=
  r' = r \/ r' = Store.set_warned_one_week true r.

(** The two flags that are raised by the notification itself. *)
Definition notice_flags_same (r r' : service) : Prop :=
  warned_100_percent r' = warned_100_percent r
  /\ warned_expired r' = warned_expired r.

(** What a step of the evaluation of a service handed over as disabled may
    do: queue the three-day warning at most, call nothing on the panel but
    [delete_client] for this service, and write nothing in a row but the
    three-day flag. *)
Definition overage_check_only (s : service) (st st' : monitor) : Prop :=
  emits ThreeDaysToExpiry (service_id s) st st'
  /\ (exists l, panel_calls st' = panel_calls st ++ l
                /\ forall call, call ∈ l ->
                     call = DeleteClient (panel_id s) (inbound_id s) (client_uuid s))
  /\ rows_from week_flag_at_most (db st) (db st').

Module MoreExamples.

(** A plan whose expiry was reached an hour ago, still active. *)
Definition expired_an_hour_ago : Time.datetime :=
  Examples.at_noon - 3600 * Time.MICROS_PER_SECOND.

Definition expired_plan : service :=
  mk_service 3 7 1 3 (Some "facade") "plan-3" (Some 4) (Some expired_an_hour_ago)
    10 0 "active" true None None false false false false.

(** A disabled service of 15.9 GB, an hour into its grace period. *)
Definition disabled_16_gb : service :=
  mk_service 4 7 1 3 (Some "0ddba11") "svc-4" None None (159 # 10) (159 # 10)
    "disabled" true
    (Some (Examples.at_noon - 3600 * Time.MICROS_PER_SECOND)) None
    false true false false.

(** What its panel reports: a total of 15.9 GB, and exactly 1 GB more as
    used ... *)
Definition one_gb_over : client :=
  mk_client 17072495002 (17072495002 + Num.GIB) 0 0 0.

(** ... or 0.0001 GB more than that. *)
Definition a_little_more_over : client :=
  mk_client 17072495002 (17072495002 + Num.GIB + 107374) 0 0 0.

(** A cycle of 20 seconds during which [stop_monitoring] is called. *)
Definition stopping_iteration : Scheduler.iteration :=
  Scheduler.mk_iteration Examples.env_ok Examples.at_noon None 20 true.

End MoreExamples.
(** * Properties *)

(** ** Reading the state after a primitive step *)

Ltac mon_simpl :=
  cbn [db message_queue pending_updates bot_sent panel_calls bulk_calls reports
       with_db with_pending_updates call_panel call_bot call_bulk call_report
       _send_message_safe stage_update] in *.

Lemma occurrences_app k sid l1 l2 :
  occurrences k sid (l1 ++ l2) = (occurrences k sid l1 + occurrences k sid l2)%nat.
Proof. unfold occurrences. by rewrite filter_app, length_app. Qed.

Lemma occurrences_one k sid chat k' sid' :
  occurrences k sid [(chat, mk_message k' sid')]
  = if decide (k' = k /\ sid' = sid) then 1%nat else 0%nat.
Proof.
  unfold occurrences. rewrite filter_cons, filter_nil. cbn [snd].
  destruct (decide (mk_message k' sid' = mk_message k sid)) as [Heq|Hne];
    destruct (decide (k' = k /\ sid' = sid)) as [[-> ->]|Hn]; try reflexivity.
  - inversion Heq. tauto.
  - congruence.
Qed.

Lemma silent_emits k sid st st' : silent st st' -> emits k sid st st'.
Proof. intros H. by left. Qed.

Lemma silent_trans st1 st2 st3 : silent st1 st2 -> silent st2 st3 -> silent st1 st3.
Proof. unfold silent. congruence. Qed.

Lemma emits_silent_l k sid st1 st2 st3 :
  silent st1 st2 -> emits k sid st2 st3 -> emits k sid st1 st3.
Proof.
  unfold silent, emits. intros H [H'|[chat H']]; rewrite H'; rewrite H; eauto.
Qed.

Lemma emits_silent_r k sid st1 st2 st3 :
  emits k sid st1 st2 -> silent st2 st3 -> emits k sid st1 st3.
Proof.
  unfold silent, emits. intros [H'|[chat H']] H; rewrite H; rewrite H'; eauto.
Qed.

Lemma silent_queued k sid st st' : silent st st' -> queued k sid st' = queued k sid st.
Proof. unfold silent, queued. by intros ->. Qed.

Lemma emits_queued k sid st st' k' sid' :
  emits k sid st st' ->
  (queued k' sid' st <= queued k' sid' st'
   <= queued k' sid' st + (if decide (k = k' /\ sid = sid') then 1 else 0))%nat.
Proof.
  unfold emits, queued. intros [->|[chat ->]]; [lia|].
  rewrite occurrences_app, occurrences_one. case_decide; lia.
Qed.

Lemma emits_other k sid st st' k' sid' :
  emits k sid st st' -> ~ (k = k' /\ sid = sid') ->
  queued k' sid' st' = queued k' sid' st.
Proof.
  intros H Hne. pose proof (emits_queued _ _ _ _ k' sid' H) as Hq.
  rewrite decide_False in Hq by assumption. lia.
Qed.

(** ** Relating the rows of the table before and after *)

Section Rows.

Variable R : service -> service -> Prop.
Context `{!PreOrder R}.

Lemma rows_from_refl t : rows_from R t t.
Proof. intros sid r H. exists r. split; [done|reflexivity]. Qed.

Lemma rows_kept_refl t : rows_kept R t t.
Proof. intros sid r H. exists r. split; [done|reflexivity]. Qed.

Lemma rows_from_trans t1 t2 t3 :
  rows_from R t1 t2 -> rows_from R t2 t3 -> rows_from R t1 t3.
Proof.
  intros H12 H23 sid r3 H3.
  destruct (H23 _ _ H3) as (r2 & H2 & HR23).
  destruct (H12 _ _ H2) as (r1 & H1 & HR12).
  exists r1. split; [done|]. by etransitivity.
Qed.

Lemma rows_kept_trans t1 t2 t3 :
  rows_kept R t1 t2 -> rows_kept R t2 t3 -> rows_kept R t1 t3.
Proof.
  intros H12 H23 sid r1 H1.
  destruct (H12 _ _ H1) as (r2 & H2 & HR12).
  destruct (H23 _ _ H2) as (r3 & H3 & HR23).
  exists r3. split; [done|]. by etransitivity.
Qed.

Lemma rows_from_alter f sid t :
  (forall r, R r (f r)) -> rows_from R t (alter f sid t).
Proof.
  intros Hf i r' Hi. rewrite lookup_alter in Hi. case_decide; subst.
  - destruct (t !! i) as [r|] eqn:E; simplify_eq/=. eauto.
  - exists r'. split; [done|reflexivity].
Qed.

Lemma rows_kept_alter f sid t :
  (forall r, R r (f r)) -> rows_kept R t (alter f sid t).
Proof.
  intros Hf i r Hi. rewrite lookup_alter. case_decide; subst.
  - rewrite Hi. simpl. eauto.
  - exists r. split; [done|reflexivity].
Qed.

Lemma rows_from_delete sid t : rows_from R t (delete sid t).
Proof.
  intros i r' Hi. apply lookup_delete_Some in Hi as [_ Hi].
  exists r'. split; [done|reflexivity].
Qed.

End Rows.

(** ** What the evaluator's steps leave alone *)

Ltac unfold_senders :=
  unfold send_70_percent_warning, send_exhaustion_notification,
    send_three_days_expiration_warning, send_plan_expiration_notification,
    report_to_channel, notify_deleted, delete_from_panel in *.

Ltac unfold_paths :=
  unfold check_disabled_service_overage, check_expired_service_overage in *;
  unfold check_overage_since, handle_traffic_exhausted,
    handle_plan_expiration in *;
  unfold delete_service_for_overage, delete_exhausted_service,
    delete_expired_plan_service in *.

(** Take a step apart into its primitive steps, case by case. *)
Ltac by_cases := unfold_paths; unfold_senders; repeat case_match; mon_simpl.

Section Frames.

Variable env : environment.
Variable now : Time.datetime.

(** *** The dispatcher's queue *)

Lemma send_70_percent_warning_emits s st :
  emits Warning70 (service_id s) st (send_70_percent_warning env s st).
Proof. unfold emits. by_cases; eauto. Qed.

Lemma send_exhaustion_notification_emits s st :
  emits TrafficExhausted (service_id s) st (send_exhaustion_notification env s st).
Proof. unfold emits. by_cases; eauto. Qed.

Lemma send_three_days_expiration_warning_emits s d st :
  emits ThreeDaysToExpiry (service_id s) st
    (send_three_days_expiration_warning env s d st).
Proof. unfold emits. by_cases; eauto. Qed.

Lemma send_plan_expiration_notification_emits s st :
  emits PlanExpired (service_id s) st (send_plan_expiration_notification env s st).
Proof. unfold emits. by_cases; eauto. Qed.

Lemma delete_service_for_overage_silent s st :
  silent st (delete_service_for_overage env s st).
Proof. unfold silent. by_cases; reflexivity. Qed.

Lemma delete_exhausted_service_silent s st :
  silent st (delete_exhausted_service env s st).
Proof. unfold silent. by_cases; reflexivity. Qed.

Lemma delete_expired_plan_service_silent s st :
  silent st (delete_expired_plan_service env s st).
Proof. unfold silent. by_cases; reflexivity. Qed.

Lemma check_overage_since_silent a s p u g st :
  silent st (check_overage_since env now a s p u g st).
Proof.
  unfold check_overage_since. repeat case_match; try reflexivity.
  apply delete_service_for_overage_silent.
Qed.

Lemma handle_traffic_exhausted_emits s st :
  emits TrafficExhausted (service_id s) st (handle_traffic_exhausted env now s st).
Proof.
  unfold handle_traffic_exhausted. repeat case_match; try (by left).
  eapply emits_silent_l; [|apply send_exhaustion_notification_emits].
  reflexivity.
Qed.

Lemma handle_plan_expiration_emits s st :
  emits PlanExpired (service_id s) st (handle_plan_expiration env now s st).
Proof.
  unfold handle_plan_expiration. repeat case_match; try (by left).
  eapply emits_silent_l; [|apply send_plan_expiration_notification_emits].
  reflexivity.
Qed.

Lemma check_plan_expiration_steps s c st :
  check_plan_expiration env now s c st
  = expiry_step env now s c (three_day_step env now s st).
Proof.
  unfold check_plan_expiration, expiry_step, three_day_step, resolved_total.
  destruct (expires_at s) as [e|]; [|reflexivity].
  destruct (truthy (product_id s)); cbn [negb andb]; [|reflexivity].
  reflexivity.
Qed.

Lemma three_day_step_emits s st :
  emits ThreeDaysToExpiry (service_id s) st (three_day_step env now s st).
Proof.
  unfold emits, three_day_step. by_cases; eauto.
Qed.

Lemma expiry_step_emits s c st :
  emits PlanExpired (service_id s) st (expiry_step env now s c st).
Proof.
  unfold expiry_step, check_expired_service_overage.
  repeat case_match; try (by left).
  - apply handle_plan_expiration_emits.
  - apply silent_emits, check_overage_since_silent.
Qed.

Lemma check_thresholds_steps s p u g st :
  check_thresholds env now s p u g st
  = exhaustion_step env now s p u g (warning_step env s p st).
Proof. reflexivity. Qed.

Lemma warning_step_emits s p st :
  emits Warning70 (service_id s) st (warning_step env s p st).
Proof.
  unfold warning_step. repeat case_match; try (by left).
  eapply emits_silent_r; [apply send_70_percent_warning_emits|]. reflexivity.
Qed.

Lemma exhaustion_step_emits s p u g st :
  emits TrafficExhausted (service_id s) st (exhaustion_step env now s p u g st).
Proof.
  unfold exhaustion_step, check_disabled_service_overage.
  repeat case_match; try (by left).
  - apply handle_traffic_exhausted_emits.
  - apply silent_emits, check_overage_since_silent.
Qed.

End Frames.

(** ** What the evaluator's steps do to the rows *)

Ltac unfold_store :=
  unfold Store.update_service_status, Store.update_service_exhaustion_time,
    Store.update_service_expiration_time, Store.update_service_70_percent_warning,
    Store.update_service_100_percent_warning, Store.update_service_warned_one_week,
    Store.update_service_expired_warning, Store.delete_service in *.

Ltac stable :=
  solve [ apply plan_stable_status | apply plan_stable_expired_at
        | apply plan_stable_one_week | apply plan_stable_expired
        | apply traffic_stable_status | apply traffic_stable_exhausted_at
        | apply traffic_stable_70 | apply traffic_stable_100 ].

(** Follow a chain of writes back to the table it started from. *)
Ltac rows_chain :=
  lazymatch goal with
  | |- rows_from _ ?t ?t => apply rows_from_refl; apply _
  | |- rows_kept _ ?t ?t => apply rows_kept_refl; apply _
  | |- rows_from _ _ (alter _ _ _) =>
      eapply rows_from_trans;
        [apply _ | | apply rows_from_alter; [apply _ | intros; stable]];
        rows_chain
  | |- rows_kept _ _ (alter _ _ _) =>
      eapply rows_kept_trans;
        [apply _ | | apply rows_kept_alter; [apply _ | intros; stable]];
        rows_chain
  | |- rows_from _ _ (delete _ _) =>
      eapply rows_from_trans; [apply _ | | apply rows_from_delete; apply _];
        rows_chain
  end.

Ltac rows := by_cases; unfold_store; rows_chain.

Section RowsOfSteps.

Variable env : environment.
Variable now : Time.datetime.
Variable R : service -> service -> Prop.

Lemma three_day_step_rows_from `{!PlanStable R} s st :
  rows_from R (db st) (db (three_day_step env now s st)).
Proof. unfold three_day_step. rows. Qed.

Lemma three_day_step_rows_kept `{!PlanStable R} s st :
  rows_kept R (db st) (db (three_day_step env now s st)).
Proof. unfold three_day_step. rows. Qed.

Lemma expiry_step_rows_from `{!PlanStable R} s c st :
  rows_from R (db st) (db (expiry_step env now s c st)).
Proof. unfold expiry_step. rows. Qed.

(** The expiry step deletes nothing unless the service is disabled and
    has a positive total. *)
Lemma expiry_step_rows_kept `{!PlanStable R} s c st :
  is_disabled s = false \/ (exists cl, c = Some cl /\ resolved_total cl <= 0) ->
  rows_kept R (db st) (db (expiry_step env now s c st)).
Proof.
  intros Hno. unfold expiry_step.
  destruct (is_disabled s) eqn:Hd; cbn [negb].
  - destruct Hno as [?|(cl & -> & Hcl)]; [done|].
    apply Z.ltb_ge in Hcl. rewrite Hcl. repeat case_match; rows_chain.
  - rows.
Qed.

Lemma warning_step_rows_from `{!TrafficStable R} s p st :
  rows_from R (db st) (db (warning_step env s p st)).
Proof. unfold warning_step. rows. Qed.

Lemma warning_step_rows_kept `{!TrafficStable R} s p st :
  rows_kept R (db st) (db (warning_step env s p st)).
Proof. unfold warning_step. rows. Qed.

Lemma exhaustion_step_rows_from `{!TrafficStable R} s p u g st :
  rows_from R (db st) (db (exhaustion_step env now s p u g st)).
Proof. unfold exhaustion_step. rows. Qed.

Lemma exhaustion_step_rows_kept `{!TrafficStable R} s p u g st :
  is_disabled s = false ->
  rows_kept R (db st) (db (exhaustion_step env now s p u g st)).
Proof. intros Hd. unfold exhaustion_step. rewrite Hd. cbn [negb]. rows. Qed.

End RowsOfSteps.

(** ** The other fields *)

Section Buffers.

Variable env : environment.
Variable now : Time.datetime.

Lemma three_day_step_buffers s st :
  pending_updates (three_day_step env now s st) = pending_updates st
  /\ bulk_calls (three_day_step env now s st) = bulk_calls st
  /\ bot_sent (three_day_step env now s st) = bot_sent st.
Proof. unfold three_day_step. by_cases; done. Qed.

Lemma expiry_step_buffers s c st :
  pending_updates (expiry_step env now s c st) = pending_updates st
  /\ bulk_calls (expiry_step env now s c st) = bulk_calls st.
Proof. unfold expiry_step. by_cases; done. Qed.

Lemma warning_step_buffers s p st :
  pending_updates (warning_step env s p st) = pending_updates st
  /\ bulk_calls (warning_step env s p st) = bulk_calls st
  /\ bot_sent (warning_step env s p st) = bot_sent st.
Proof. unfold warning_step. by_cases; done. Qed.

Lemma exhaustion_step_buffers s p u g st :
  pending_updates (exhaustion_step env now s p u g st) = pending_updates st
  /\ bulk_calls (exhaustion_step env now s p u g st) = bulk_calls st.
Proof. unfold exhaustion_step. by_cases; done. Qed.

(** Without an overage check the expiry step sends nothing directly. *)
Lemma expiry_step_bot_sent s c st :
  is_disabled s = false \/ (exists cl, c = Some cl /\ resolved_total cl <= 0) ->
  bot_sent (expiry_step env now s c st) = bot_sent st.
Proof.
  intros Hno. unfold expiry_step.
  destruct (is_disabled s) eqn:Hd; cbn [negb].
  - destruct Hno as [?|(cl & -> & Hcl)]; [done|].
    apply Z.ltb_ge in Hcl. rewrite Hcl. by repeat case_match.
  - by_cases; done.
Qed.

Lemma process_client_traffic_steps s c st :
  process_client_traffic env now s c st
  = let st1 := match product_id s with
               | Some _ => expiry_step env now s (Some c) (three_day_step env now s st)
               | None => st
               end in
    let st2 := stage_update (service_id s) (Num.bytes_to_gb (resolved_used c)) st1 in
    if resolved_total c <=? 0 then st2
    else
      exhaustion_step env now s
        (Num.usage_percentage (resolved_used c) (resolved_total c))
        (Num.bytes_to_gb (resolved_used c)) (Num.bytes_to_gb (resolved_total c))
        (warning_step env s
           (Num.usage_percentage (resolved_used c) (resolved_total c)) st2).
Proof.
  unfold process_client_traffic. rewrite check_plan_expiration_steps.
  destruct (product_id s); reflexivity.
Qed.

(** One evaluation stages one counter write, and writes nothing in bulk. *)
Lemma process_client_traffic_buffers s c st :
  pending_updates (process_client_traffic env now s c st)
  = pending_updates st ++ [staged_entry (s, c)]
  /\ bulk_calls (process_client_traffic env now s c st) = bulk_calls st.
Proof.
  rewrite process_client_traffic_steps. cbv zeta.
  set (st0 := match product_id s with Some _ => _ | None => st end).
  assert (pending_updates st0 = pending_updates st
          /\ bulk_calls st0 = bulk_calls st) as [Hp Hb].
  { subst st0. destruct (product_id s); [|done].
    destruct (expiry_step_buffers s (Some c) (three_day_step env now s st)) as [-> ->].
    destruct (three_day_step_buffers s st) as (-> & -> & _). done. }
  unfold staged_entry. cbn [fst snd].
  destruct (resolved_total c <=? 0).
  - mon_simpl. by rewrite Hp, Hb.
  - match goal with
    | |- context [exhaustion_step env now s ?p ?u ?g ?x] =>
        destruct (exhaustion_step_buffers s p u g x) as [-> ->]
    end.
    match goal with
    | |- context [warning_step env s ?p ?x] =>
        destruct (warning_step_buffers s p x) as (-> & -> & _)
    end.
    mon_simpl. by rewrite Hp, Hb.
Qed.

End Buffers.

(** ** Deletion notices *)

(** C10. Each of the three deletion paths (overage deletion, the 24-hour
    sweep of exhausted services, the 24-hour sweep of expired plans) sends
    its final notice by calling the messenger directly: the dispatcher's
    queue is left as it was, and the notice, when the owner exists, is one
    more direct send. A deletion that a raising panel call cut short sends
    no notice, by neither route. *)
Theorem deletion_notices_bypass_queue env s st :
  (message_queue (delete_service_for_overage env s st) = message_queue st
   /\ bot_sent (delete_service_for_overage env s st)
      = bot_sent st ++ final_notice env DeletedForOverage s)
  /\ (message_queue (delete_exhausted_service env s st) = message_queue st
      /\ bot_sent (delete_exhausted_service env s st)
         = bot_sent st ++ final_notice env DeletedAfterGrace s)
  /\ (message_queue (delete_expired_plan_service env s st) = message_queue st
      /\ bot_sent (delete_expired_plan_service env s st)
         = bot_sent st ++ final_notice env DeletedExpiredPlan s).
Proof.
  unfold final_notice.
  repeat split; by_cases; rewrite ?app_nil_r; try reflexivity; congruence.
Qed.

(** ** Unlimited services *)

Global Instance traffic_fields_same_preorder : PreOrder traffic_fields_same.
Proof.
  split.
  - by intros r.
  - intros r1 r2 r3 (? & ? & ?) (? & ? & ?). unfold traffic_fields_same.
    repeat split; congruence.
Qed.

Global Instance traffic_fields_same_plan_stable : PlanStable traffic_fields_same.
Proof. split; [apply _ | by intros..]. Qed.

(** C6. When the total resolved for a service is zero or negative, the
    evaluation is the expiry check of a plan service followed by the staging
    of the usage counter, and nothing else: the counter write is staged, no
    70% warning and no exhaustion notice is queued, nothing is sent for an
    overage deletion and no row is deleted, no row's exhaustion anchor or
    volume flag changes, and a service that is not a plan is not touched
    at all. *)
Theorem unlimited_service_has_no_thresholds env now s c st :
  resolved_total c <= 0 ->
  let st' := process_client_traffic env now s c st in
  st' = stage_update (service_id s) (Num.bytes_to_gb (resolved_used c))
          (match product_id s with
           | Some _ => check_plan_expiration env now s (Some c) st
           | None => st
           end)
  /\ pending_updates st'
     = pending_updates st ++ [(service_id s, Num.bytes_to_gb (resolved_used c))]
  /\ (forall sid, queued Warning70 sid st' = queued Warning70 sid st
                  /\ queued TrafficExhausted sid st' = queued TrafficExhausted sid st)
  /\ bot_sent st' = bot_sent st
  /\ rows_kept traffic_fields_same (db st) (db st')
  /\ (product_id s = None ->
      db st' = db st /\ panel_calls st' = panel_calls st
      /\ message_queue st' = message_queue st).
Proof.
  intros Htotal st'.
  assert (Hno : is_disabled s = false
                \/ (exists cl, Some c = Some cl /\ resolved_total cl <= 0))
    by (right; eauto).
  assert (Hst' : st' = stage_update (service_id s) (Num.bytes_to_gb (resolved_used c))
          (match product_id s with
           | Some _ => expiry_step env now s (Some c) (three_day_step env now s st)
           | None => st
           end)).
  { subst st'. rewrite process_client_traffic_steps. cbv zeta.
    apply Z.leb_le in Htotal. by rewrite Htotal. }
  split; [|split; [|split; [|split; [|split]]]].
  - rewrite Hst'. by rewrite check_plan_expiration_steps.
  - apply (process_client_traffic_buffers env now s c st).
  - intros sid. rewrite Hst'. unfold queued. mon_simpl.
    destruct (product_id s); [|done].
    pose proof (three_day_step_emits env now s st) as H3.
    pose proof (expiry_step_emits env now s (Some c) (three_day_step env now s st)) as He.
    split.
    + etransitivity; [eapply (emits_other _ _ _ _ Warning70 sid He)|
                      eapply (emits_other _ _ _ _ Warning70 sid H3)];
        intros [? _]; discriminate.
    + etransitivity; [eapply (emits_other _ _ _ _ TrafficExhausted sid He)|
                      eapply (emits_other _ _ _ _ TrafficExhausted sid H3)];
        intros [? _]; discriminate.
  - rewrite Hst'. mon_simpl. destruct (product_id s); [|done].
    rewrite expiry_step_bot_sent by done.
    by destruct (three_day_step_buffers env now s st) as (_ & _ & ->).
  - rewrite Hst'. mon_simpl. destruct (product_id s); [|apply rows_kept_refl; apply _].
    eapply rows_kept_trans; [apply _| |].
    + apply three_day_step_rows_kept. apply _.
    + apply expiry_step_rows_kept; [apply _|done].
  - intros Hp. rewrite Hst', Hp. by mon_simpl.
Qed.

(** ** One evaluation, step by step *)

Section Evaluation.

Variable env : environment.
Variable now : Time.datetime.

(** The queue grows in four steps, each by at most one message of its
    own kind. *)
Lemma process_client_traffic_emits s c st :
  exists st1 st2 st3,
    emits ThreeDaysToExpiry (service_id s) st st1
    /\ emits PlanExpired (service_id s) st1 st2
    /\ emits Warning70 (service_id s) st2 st3
    /\ emits TrafficExhausted (service_id s) st3
         (process_client_traffic env now s c st).
Proof.
  rewrite process_client_traffic_steps. cbv zeta.
  set (g := Num.bytes_to_gb (resolved_used c)).
  set (p := Num.usage_percentage (resolved_used c) (resolved_total c)).
  set (st1 := match product_id s with
              | Some _ => three_day_step env now s st | None => st end).
  set (st2 := match product_id s with
              | Some _ => expiry_step env now s (Some c) st1 | None => st1 end).
  assert (H1 : emits ThreeDaysToExpiry (service_id s) st st1).
  { subst st1. destruct (product_id s); [apply three_day_step_emits|by left]. }
  assert (H2 : emits PlanExpired (service_id s) st1 st2).
  { subst st2. destruct (product_id s); [apply expiry_step_emits|by left]. }
  assert (Heq : match product_id s with
                | Some _ => expiry_step env now s (Some c) (three_day_step env now s st)
                | None => st
                end = st2).
  { subst st2 st1. by destruct (product_id s). }
  rewrite Heq. clear Heq.
  destruct (resolved_total c <=? 0).
  - exists st1, st2, st2. repeat split; try done; by left.
  - exists st1, st2, (warning_step env s p (stage_update (service_id s) g st2)).
    repeat split; try done.
    + eapply emits_silent_l; [|apply warning_step_emits]. reflexivity.
    + apply exhaustion_step_emits.
Qed.

(** So one evaluation queues at most one message of any kind. *)
Lemma process_client_traffic_at_most_one s c st k sid :
  (queued k sid st <= queued k sid (process_client_traffic env now s c st)
   <= queued k sid st + 1)%nat.
Proof.
  destruct (process_client_traffic_emits s c st)
    as (st1 & st2 & st3 & H1 & H2 & H3 & H4).
  pose proof (emits_queued _ _ _ _ k sid H1).
  pose proof (emits_queued _ _ _ _ k sid H2).
  pose proof (emits_queued _ _ _ _ k sid H3).
  pose proof (emits_queued _ _ _ _ k sid H4).
  repeat case_decide; destruct_and?; subst; try discriminate; lia.
Qed.

(** *** Steps that a set flag silences *)

Lemma three_day_step_warned s st :
  warned_one_week s = true -> three_day_step env now s st = st.
Proof.
  intros Hw. unfold three_day_step. rewrite Hw.
  destruct (expires_at s); [|done]. by rewrite andb_false_r.
Qed.

Lemma warning_step_warned s p st :
  warned_70_percent s = true -> warning_step env s p st = st.
Proof.
  intros Hw. unfold warning_step. rewrite Hw. cbn [negb andb].
  by destruct (_ && _).
Qed.

Lemma send_plan_expiration_notification_warned s st :
  flag_expired (Store.get_service_warning_flags (service_id s) (db st)) = true ->
  send_plan_expiration_notification env s st = st.
Proof.
  intros Hf. unfold send_plan_expiration_notification. rewrite Hf.
  by destruct (get_user_by_id _ _).
Qed.

Lemma send_exhaustion_notification_warned s st :
  flag_100_percent (Store.get_service_warning_flags (service_id s) (db st)) = true ->
  send_exhaustion_notification env s st = st.
Proof.
  intros Hf. unfold send_exhaustion_notification. rewrite Hf.
  by destruct (get_user_by_id _ _).
Qed.

Lemma send_70_percent_warning_warned s st :
  flag_70_percent (Store.get_service_warning_flags (service_id s) (db st)) = true ->
  send_70_percent_warning env s st = st.
Proof.
  intros Hf. unfold send_70_percent_warning. rewrite Hf.
  by destruct (get_user_by_id _ _).
Qed.

Lemma handle_plan_expiration_warned s st r :
  db st !! service_id s = Some r -> warned_expired r = true ->
  silent st (handle_plan_expiration env now s st).
Proof.
  intros Hr Hw. unfold handle_plan_expiration, silent.
  repeat case_match; try reflexivity.
  rewrite send_plan_expiration_notification_warned; [reflexivity|].
  unfold Store.get_service_warning_flags. mon_simpl. unfold_store.
  rewrite !lookup_alter_eq, Hr. exact Hw.
Qed.

Lemma handle_traffic_exhausted_warned s st r :
  db st !! service_id s = Some r -> warned_100_percent r = true ->
  silent st (handle_traffic_exhausted env now s st).
Proof.
  intros Hr Hw. unfold handle_traffic_exhausted, silent.
  repeat case_match; try reflexivity.
  rewrite send_exhaustion_notification_warned; [reflexivity|].
  unfold Store.get_service_warning_flags. mon_simpl. unfold_store.
  rewrite !lookup_alter_eq, Hr. exact Hw.
Qed.

Lemma expiry_step_warned s c st r :
  db st !! service_id s = Some r -> warned_expired r = true ->
  silent st (expiry_step env now s c st).
Proof.
  intros Hr Hw. unfold expiry_step, check_expired_service_overage.
  repeat case_match; try reflexivity.
  - by eapply handle_plan_expiration_warned.
  - apply check_overage_since_silent.
Qed.

Lemma exhaustion_step_warned s p u g st r :
  db st !! service_id s = Some r -> warned_100_percent r = true ->
  silent st (exhaustion_step env now s p u g st).
Proof.
  intros Hr Hw. unfold exhaustion_step, check_disabled_service_overage.
  repeat case_match; try reflexivity.
  - by eapply handle_traffic_exhausted_warned.
  - apply check_overage_since_silent.
Qed.


End Evaluation.

(** ** Rows across one evaluation *)

Section RowsOfEvaluation.

Variable env : environment.
Variable now : Time.datetime.
Variable R : service -> service -> Prop.
Context `{!PlanStable R, !TrafficStable R}.

(** The state in which the 100% check of an evaluation starts. *)
Lemma process_client_traffic_rows_from s c st :
  rows_from R (db st) (db (process_client_traffic env now s c st)).
Proof.
  rewrite process_client_traffic_steps. cbv zeta.
  assert (H0 : rows_from R (db st)
                 (db match product_id s with
                     | Some _ => expiry_step env now s (Some c)
                                   (three_day_step env now s st)
                     | None => st
                     end)).
  { destruct (product_id s); [|apply rows_from_refl; apply _].
    eapply rows_from_trans; [apply _| |].
    - apply three_day_step_rows_from; apply _.
    - apply expiry_step_rows_from; apply _. }
  destruct (resolved_total c <=? 0); [exact H0|].
  eapply rows_from_trans; [apply _| |apply exhaustion_step_rows_from; apply _].
  eapply rows_from_trans; [apply _| |apply warning_step_rows_from; apply _].
  exact H0.
Qed.

(** While the service is not disabled, an evaluation deletes no row. *)
Lemma process_client_traffic_rows_kept s c st :
  is_disabled s = false ->
  rows_kept R (db st) (db (process_client_traffic env now s c st)).
Proof.
  intros Hd. rewrite process_client_traffic_steps. cbv zeta.
  assert (H0 : rows_kept R (db st)
                 (db match product_id s with
                     | Some _ => expiry_step env now s (Some c)
                                   (three_day_step env now s st)
                     | None => st
                     end)).
  { destruct (product_id s); [|apply rows_kept_refl; apply _].
    eapply rows_kept_trans; [apply _| |].
    - apply three_day_step_rows_kept; apply _.
    - apply expiry_step_rows_kept; [apply _|by left]. }
  destruct (resolved_total c <=? 0); [exact H0|].
  eapply rows_kept_trans; [apply _| |by apply exhaustion_step_rows_kept; [apply _|]].
  eapply rows_kept_trans; [apply _| |apply warning_step_rows_kept; apply _].
  exact H0.
Qed.

(** Nor do the steps before the 100% check. *)
Lemma before_exhaustion_rows_kept s c p st :
  is_disabled s = false ->
  rows_kept R (db st)
    (db (warning_step env s p
           (stage_update (service_id s) (Num.bytes_to_gb (resolved_used c))
              match product_id s with
              | Some _ => expiry_step env now s (Some c)
                            (three_day_step env now s st)
              | None => st
              end))).
Proof.
  intros Hd.
  eapply rows_kept_trans; [apply _| |apply warning_step_rows_kept; apply _].
  mon_simpl.
  destruct (product_id s); [|apply rows_kept_refl; apply _].
  eapply rows_kept_trans; [apply _| |].
  - apply three_day_step_rows_kept; apply _.
  - apply expiry_step_rows_kept; [apply _|by left].
Qed.

End RowsOfEvaluation.

Global Instance flags_only_raised_preorder : PreOrder flags_only_raised.
Proof.
  split.
  - intros r. by repeat split.
  - intros r1 r2 r3 (? & ? & ? & ?) (? & ? & ? & ?).
    repeat split; auto.
Qed.

Global Instance flags_only_raised_plan_stable : PlanStable flags_only_raised.
Proof. split; [apply _ | intros; by repeat split ..]. Qed.

Global Instance flags_only_raised_traffic_stable : TrafficStable flags_only_raised.
Proof. split; [apply _ | intros; by repeat split ..]. Qed.

Global Instance stays_disabled_preorder : PreOrder stays_disabled.
Proof.
  split; [by intros r|].
  intros r1 r2 r3 [Hi1 H1] [Hi2 H2]. split; [congruence|auto].
Qed.

Global Instance stays_disabled_plan_stable : PlanStable stays_disabled.
Proof. split; [apply _ | intros; unfold stays_disabled; cbn; auto ..]. Qed.

Global Instance stays_disabled_traffic_stable : TrafficStable stays_disabled.
Proof. split; [apply _ | intros; unfold stays_disabled; cbn; auto ..]. Qed.

Global Instance used_gb_same_preorder : PreOrder used_gb_same.
Proof.
  split; [by intros r|]. intros r1 r2 r3 H1 H2. unfold used_gb_same in *. congruence.
Qed.

Global Instance used_gb_same_plan_stable : PlanStable used_gb_same.
Proof. split; [apply _ | by intros ..]. Qed.

Global Instance used_gb_same_traffic_stable : TrafficStable used_gb_same.
Proof. split; [apply _ | by intros ..]. Qed.

(** ** Warning flags *)

Section Flags.

Variable env : environment.
Variable now : Time.datetime.

Lemma exhaustion_step_disabled s p u g st :
  is_disabled s = true -> silent st (exhaustion_step env now s p u g st).
Proof.
  intros Hd. unfold exhaustion_step, check_disabled_service_overage.
  rewrite Hd. cbn [negb]. destruct (Num.Qgeb p 100); [|reflexivity].
  apply check_overage_since_silent.
Qed.

(** A kind of message is not queued by an evaluation in which the step
    that could queue it is silent. *)
Lemma process_client_traffic_queued s c st k :
  (k = ThreeDaysToExpiry -> silent st (three_day_step env now s st)) ->
  (k = PlanExpired ->
   silent (three_day_step env now s st)
     (expiry_step env now s (Some c) (three_day_step env now s st))) ->
  (k = Warning70 ->
   forall p x,
     (is_disabled s = false -> rows_kept flags_only_raised (db st) (db x)) ->
     silent x (warning_step env s p x)) ->
  (k = TrafficExhausted ->
   forall p u g x,
     (is_disabled s = false -> rows_kept flags_only_raised (db st) (db x)) ->
     silent x (exhaustion_step env now s p u g x)) ->
  queued k (service_id s) (process_client_traffic env now s c st)
  = queued k (service_id s) st.
Proof.
  intros H3 He Hw Hx.
  rewrite process_client_traffic_steps. cbv zeta.
  set (B := match product_id s with
            | Some _ => expiry_step env now s (Some c) (three_day_step env now s st)
            | None => st
            end).
  assert (HB : queued k (service_id s) B = queued k (service_id s) st).
  { subst B. destruct (product_id s); [|done].
    transitivity (queued k (service_id s) (three_day_step env now s st)).
    - destruct (decide (k = PlanExpired)) as [->|Hne].
      + by apply silent_queued, He.
      + eapply emits_other; [apply expiry_step_emits|]. intros [? _]; done.
    - destruct (decide (k = ThreeDaysToExpiry)) as [->|Hne].
      + by apply silent_queued, H3.
      + eapply emits_other; [apply three_day_step_emits|]. intros [? _]; done. }
  destruct (resolved_total c <=? 0); [exact HB|].
  set (g := Num.bytes_to_gb (resolved_used c)).
  set (p := Num.usage_percentage (resolved_used c) (resolved_total c)).
  set (C := stage_update (service_id s) g B).
  transitivity (queued k (service_id s) (warning_step env s p C)).
  - destruct (decide (k = TrafficExhausted)) as [->|Hne].
    + apply silent_queued, Hx; [done|]. intros Hd.
      by apply (before_exhaustion_rows_kept env now flags_only_raised s c p st).
    + eapply emits_other; [apply exhaustion_step_emits|]. intros [? _]; done.
  - transitivity (queued k (service_id s) C); [|exact HB].
    destruct (decide (k = Warning70)) as [->|Hne].
    + apply silent_queued, Hw; [done|]. intros Hd. subst C B. mon_simpl.
      destruct (product_id s); [|apply rows_kept_refl; apply _].
      eapply rows_kept_trans; [apply _| |].
      * apply three_day_step_rows_kept; apply _.
      * apply expiry_step_rows_kept; [apply _|by left].
    + eapply emits_other; [apply warning_step_emits|]. intros [? _]; done.
Qed.

End Flags.

(** One evaluation on the row the store holds: no flag is reset, a flag
    that is set silences its notification, and at most one message of each
    kind is queued. *)
Lemma evaluation_respects_flags env now s c st :
  db st !! service_id s = Some s ->
  let st' := process_client_traffic env now s c st in
  rows_from flags_only_raised (db st) (db st')
  /\ (warned_70_percent s = true ->
      queued Warning70 (service_id s) st' = queued Warning70 (service_id s) st)
  /\ (warned_100_percent s = true ->
      queued TrafficExhausted (service_id s) st'
      = queued TrafficExhausted (service_id s) st)
  /\ (warned_one_week s = true ->
      queued ThreeDaysToExpiry (service_id s) st'
      = queued ThreeDaysToExpiry (service_id s) st)
  /\ (warned_expired s = true ->
      queued PlanExpired (service_id s) st' = queued PlanExpired (service_id s) st)
  /\ (forall k sid, (queued k sid st' <= queued k sid st + 1)%nat).
Proof.
  intros Hrow st'. subst st'.
  split; [apply process_client_traffic_rows_from; apply _|].
  split; [|split; [|split; [|split]]].
  - intros Hw. apply process_client_traffic_queued; try discriminate.
    intros _ p x _. by rewrite warning_step_warned.
  - intros Hw. apply process_client_traffic_queued; try discriminate.
    intros _ p u g x Hkept.
    destruct (is_disabled s) eqn:Hd; [by apply exhaustion_step_disabled|].
    destruct (Hkept eq_refl _ _ Hrow) as (r' & Hr' & _ & H100 & _).
    eapply exhaustion_step_warned; [exact Hr'|auto].
  - intros Hw. apply process_client_traffic_queued; try discriminate.
    intros _. by rewrite three_day_step_warned.
  - intros Hw. apply process_client_traffic_queued; try discriminate.
    intros _.
    destruct (three_day_step_rows_kept env now flags_only_raised s st _ _ Hrow)
      as (r' & Hr' & _ & _ & _ & Hexp).
    eapply expiry_step_warned; [exact Hr'|auto].
  - intros k sid. apply process_client_traffic_at_most_one.
Qed.

(** ** Exhaustion *)

Section Exhaustion.

Variable env : environment.
Variable now : Time.datetime.

(** The expiry check of a plan queues nothing but its own two kinds. *)
Lemma plan_part_queued s c st k sid :
  k <> ThreeDaysToExpiry -> k <> PlanExpired ->
  queued k sid
    match product_id s with
    | Some _ => expiry_step env now s (Some c) (three_day_step env now s st)
    | None => st
    end
  = queued k sid st.
Proof.
  intros H3 He. destruct (product_id s); [|done].
  transitivity (queued k sid (three_day_step env now s st)).
  - eapply emits_other; [apply expiry_step_emits|]. intros [? _]; done.
  - eapply emits_other; [apply three_day_step_emits|]. intros [? _]; done.
Qed.

(** While the service is not disabled the expiry check keeps its row. *)
Lemma plan_part_rows_kept R `{!PlanStable R} s c st :
  is_disabled s = false ->
  rows_kept R (db st)
    (db match product_id s with
        | Some _ => expiry_step env now s (Some c) (three_day_step env now s st)
        | None => st
        end).
Proof.
  intros Hd. destruct (product_id s); [|apply rows_kept_refl; apply _].
  eapply rows_kept_trans; [apply _| |].
  - apply three_day_step_rows_kept; apply _.
  - apply expiry_step_rows_kept; [apply _|by left].
Qed.

(** What [handle_traffic_exhausted] does when the panel disables the
    client, the owner is known and the row is not yet flagged. *)
Lemma handle_traffic_exhausted_done s st pm u r :
  is_disabled s = false ->
  get_panel_manager env (panel_id s) = Some pm ->
  login pm = true ->
  disable_client pm (inbound_id s) (client_uuid s) = true ->
  get_user_by_id env (user_id s) = Some u ->
  db st !! service_id s = Some r ->
  warned_100_percent r = false ->
  let st' := handle_traffic_exhausted env now s st in
  db st' !! service_id s
  = Some (Store.set_warned_100_percent true
            (Store.set_exhausted_at (Some now) (Store.set_status "disabled" r)))
  /\ message_queue st'
     = message_queue st
         ++ [(telegram_id u, mk_message TrafficExhausted (service_id s))]
  /\ panel_calls st'
     = panel_calls st
         ++ [DisableClient (panel_id s) (inbound_id s) (client_uuid s)].
Proof.
  intros Hd Hpm Hlogin Hdis Hu Hr Hw st'. subst st'.
  unfold handle_traffic_exhausted. rewrite Hd, Hpm, Hlogin, Hdis.
  unfold send_exhaustion_notification. rewrite Hu.
  unfold Store.get_service_warning_flags. mon_simpl. unfold_store.
  rewrite !lookup_alter_eq, Hr. cbn [fmap option_fmap option_map].
  cbn [Store.set_exhausted_at Store.set_status warned_70_percent
       warned_100_percent warned_one_week warned_expired flag_100_percent].
  rewrite Hw. unfold report_to_channel.
  destruct (reporting_system env); mon_simpl;
    rewrite !lookup_alter_eq, Hr; done.
Qed.

(** A disabled row is evaluated without an exhaustion notice, and stays
    disabled. *)
Lemma evaluate_disabled sid ev st :
  (forall r, db st !! sid = Some r -> service_id r = sid /\ is_disabled r = true) ->
  queued TrafficExhausted sid (evaluate_from_store sid ev st)
  = queued TrafficExhausted sid st
  /\ (forall r, db (evaluate_from_store sid ev st) !! sid = Some r ->
                service_id r = sid /\ is_disabled r = true).
Proof.
  intros Hinv. unfold evaluate_from_store.
  destruct (db st !! sid) as [r|] eqn:Hr; [|split; [done|intros r0 H0; congruence]].
  destruct (Hinv r eq_refl) as [Hid Hd]. split.
  - rewrite <- Hid. apply process_client_traffic_queued; try discriminate.
    intros _ p u g x _. by apply exhaustion_step_disabled.
  - intros r' Hr'.
    destruct (process_client_traffic_rows_from (fst (fst ev)) (snd (fst ev))
                stays_disabled r (snd ev) st _ _ Hr') as (r0 & Hr0 & Hi & Hs).
    rewrite Hr in Hr0. injection Hr0 as <-. split; [congruence|auto].
Qed.

Lemma evaluations_of_disabled sid evs st :
  (forall r, db st !! sid = Some r -> service_id r = sid /\ is_disabled r = true) ->
  queued TrafficExhausted sid (evaluations_from_store sid evs st)
  = queued TrafficExhausted sid st.
Proof.
  revert st. induction evs as [|ev evs IH]; intros st Hinv; [done|].
  unfold evaluations_from_store in *. cbn [foldl].
  destruct (evaluate_disabled sid ev st Hinv) as [Hq Hinv'].
  rewrite IH by exact Hinv'. exact Hq.
Qed.

End Exhaustion.

Lemma at_100_percent p :
  (100 <= p)%Q ->
  Num.Qgeb p 100 = true /\ Num.Qgeb p 70 && Num.Qltb p 100 = false.
Proof.
  intros Hp. unfold Num.Qgeb, Num.Qltb.
  assert (H : Qle_bool 100 p = true) by (by apply Qle_bool_iff).
  rewrite H. split; [done|]. by rewrite andb_false_r.
Qed.

(** C1, as it is worded, fails when the panel cannot be reached: the
    service of the example is active, has a total of 10 GB and is seen at
    105%, and after the evaluation its row is still active and no notice is
    queued. *)
Lemma exhaustion_claim_fails_when_panel_is_down :
  ~ exhaustion_claim Examples.env_panel_down Examples.at_noon
      Examples.volume_service Examples.used_105_percent
      (Examples.monitor_with Examples.volume_service).
Proof.
  intros H. destruct H as [(r' & Hr' & Hs & _) _].
  - reflexivity.
  - reflexivity.
  - reflexivity.
  - vm_compute. discriminate.
  - vm_compute in Hr'. injection Hr' as <-. discriminate Hs.
Qed.

(** C1, amended. For a service handed to the evaluator as the store holds
    it, with a positive total, not disabled, not yet flagged for
    exhaustion, and seen at 100% or more: when the panel can be reached and
    disables the client and the owner is known, after the evaluation the
    row is disabled, its exhaustion anchor is the time of the evaluation,
    its exhaustion flag is set and exactly one exhaustion notice has been
    queued; and however often the service is evaluated again on the row the
    store then holds, no second one is queued. *)
Theorem exhaustion_disables_and_notifies_once env now s c st pm u :
  db st !! service_id s = Some s ->
  0 < resolved_total c ->
  is_disabled s = false ->
  (100 <= Num.usage_percentage (resolved_used c) (resolved_total c))%Q ->
  get_panel_manager env (panel_id s) = Some pm ->
  login pm = true ->
  disable_client pm (inbound_id s) (client_uuid s) = true ->
  get_user_by_id env (user_id s) = Some u ->
  warned_100_percent s = false ->
  let st' := process_client_traffic env now s c st in
  (exists r', db st' !! service_id s = Some r'
              /\ status r' = "disabled"
              /\ exhausted_at r' = Some now
              /\ warned_100_percent r' = true)
  /\ queued TrafficExhausted (service_id s) st'
     = S (queued TrafficExhausted (service_id s) st)
  /\ (forall evs,
        queued TrafficExhausted (service_id s)
          (evaluations_from_store (service_id s) evs st')
        = S (queued TrafficExhausted (service_id s) st)).
Proof.
  intros Hrow Htotal Hd Hp Hpm Hlogin Hdis Hu Hw st'.
  destruct (at_100_percent _ Hp) as [H100 H70].
  set (B := match product_id s with
            | Some _ => expiry_step env now s (Some c) (three_day_step env now s st)
            | None => st
            end).
  set (C := stage_update (service_id s) (Num.bytes_to_gb (resolved_used c)) B).
  assert (Hst' : st' = handle_traffic_exhausted env now s C).
  { subst st'. rewrite process_client_traffic_steps. cbv zeta.
    apply Z.leb_gt in Htotal. rewrite Htotal. fold B. fold C.
    unfold warning_step, exhaustion_step. by rewrite H70, H100, Hd. }
  destruct (plan_part_rows_kept env now traffic_fields_same s c st Hd _ _ Hrow)
    as (rB & HrB & _ & _ & HwB).
  destruct (plan_part_rows_kept env now stays_disabled s c st Hd _ _ Hrow)
    as (rB' & HrB' & HidB & _).
  fold B in HrB, HrB'. rewrite HrB in HrB'. injection HrB' as <-.
  rewrite Hw in HwB.
  destruct (handle_traffic_exhausted_done env now s C pm u rB
              Hd Hpm Hlogin Hdis Hu HrB HwB) as (Hdb & Hq & _).
  rewrite <- Hst' in Hdb, Hq.
  assert (Hcount : queued TrafficExhausted (service_id s) st'
                   = S (queued TrafficExhausted (service_id s) st)).
  { unfold queued at 1. rewrite Hq. subst C. mon_simpl.
    rewrite occurrences_app, occurrences_one.
    rewrite decide_True by done.
    change (occurrences TrafficExhausted (service_id s) (message_queue B))
      with (queued TrafficExhausted (service_id s) B).
    subst B. rewrite plan_part_queued by discriminate. lia. }
  split; [|split].
  - eexists. split; [exact Hdb|]. done.
  - exact Hcount.
  - intros evs. rewrite evaluations_of_disabled; [exact Hcount|].
    intros r Hr. rewrite Hdb in Hr. injection Hr as <-. split; [exact HidB|done].
Qed.

(** ** The 70% warning *)

Lemma between_70_and_100_percent p :
  (70 <= p)%Q -> (p < 100)%Q ->
  Num.Qgeb p 70 && Num.Qltb p 100 = true /\ Num.Qgeb p 100 = false.
Proof.
  intros H70 H100. unfold Num.Qgeb, Num.Qltb.
  assert (H : Qle_bool 70 p = true) by (by apply Qle_bool_iff).
  assert (H' : Qle_bool 100 p = false).
  { destruct (Qle_bool 100 p) eqn:E; [|done].
    apply Qle_bool_iff in E. lra. }
  by rewrite H, H'.
Qed.

Section Warning.

Variable env : environment.
Variable now : Time.datetime.

Lemma expiry_step_not_due s c st :
  expiry_due now s = false -> expiry_step env now s c st = st.
Proof.
  unfold expiry_due, expiry_step. destruct (expires_at s); [|done].
  by intros ->.
Qed.

(** The three-day step changes nothing in a row but its own flag. *)
Lemma three_day_step_row s st r :
  db st !! service_id s = Some r ->
  exists r', db (three_day_step env now s st) !! service_id s = Some r'
             /\ status r' = status r
             /\ warned_70_percent r' = warned_70_percent r.
Proof.
  intros Hr. unfold three_day_step. by_cases; unfold_store;
    rewrite ?lookup_alter_eq, Hr; eauto.
Qed.

(** What the 70% step does when the owner is known and the row is not
    yet flagged. *)
Lemma warning_step_done s p st u r :
  Num.Qgeb p 70 && Num.Qltb p 100 = true ->
  is_disabled s = false ->
  warned_70_percent s = false ->
  get_user_by_id env (user_id s) = Some u ->
  db st !! service_id s = Some r ->
  warned_70_percent r = false ->
  let st' := warning_step env s p st in
  db st' !! service_id s = Some (Store.set_warned_70_percent true r)
  /\ message_queue st'
     = message_queue st ++ [(telegram_id u, mk_message Warning70 (service_id s))].
Proof.
  intros Hp Hd Hw Hu Hr Hwr st'. subst st'.
  unfold warning_step. rewrite Hp, Hd, Hw. cbn [negb andb].
  unfold send_70_percent_warning. rewrite Hu.
  unfold Store.get_service_warning_flags. rewrite Hr.
  cbn [flag_70_percent]. rewrite Hwr. unfold report_to_channel.
  destruct (reporting_system env); mon_simpl; unfold_store;
    rewrite lookup_alter_eq, Hr; done.
Qed.

End Warning.

(** C4, as it is worded, fails when the owner of the service is not in the
    user table: the service of the example is active, not yet warned and
    seen at 75% of its 10 GB, and the evaluation sets the flag without
    queueing any warning. *)
Lemma warning_claim_fails_without_owner :
  ~ warning_claim Examples.env_no_owner Examples.at_noon
      Examples.volume_service Examples.used_75_percent
      (Examples.monitor_with Examples.volume_service).
Proof.
  intros H. destruct H as [Hq _].
  - reflexivity.
  - reflexivity.
  - vm_compute. discriminate.
  - reflexivity.
  - reflexivity.
  - reflexivity.
  - vm_compute in Hq. discriminate Hq.
Qed.

(** C4, amended. For a service handed to the evaluator as the store holds
    it, seen at 70% or more and below 100%, not disabled and not yet
    warned, whose owner is known: one evaluation queues exactly one 70%
    warning and sets [warned_70_percent]; the status is left as it was
    unless the service is a plan whose expiry is due, which the expiry
    check of the same evaluation disables. *)
Theorem warning_70_sent_once env now s c st u :
  db st !! service_id s = Some s ->
  0 < resolved_total c ->
  (70 <= Num.usage_percentage (resolved_used c) (resolved_total c))%Q ->
  (Num.usage_percentage (resolved_used c) (resolved_total c) < 100)%Q ->
  is_disabled s = false ->
  warned_70_percent s = false ->
  get_user_by_id env (user_id s) = Some u ->
  let st' := process_client_traffic env now s c st in
  queued Warning70 (service_id s) st' = S (queued Warning70 (service_id s) st)
  /\ (exists r', db st' !! service_id s = Some r'
                 /\ warned_70_percent r' = true
                 /\ (product_id s = None \/ expiry_due now s = false ->
                     status r' = status s)).
Proof.
  intros Hrow Htotal H70 H100 Hd Hw Hu st'.
  destruct (between_70_and_100_percent _ H70 H100) as [Hp Hp'].
  set (B := match product_id s with
            | Some _ => expiry_step env now s (Some c) (three_day_step env now s st)
            | None => st
            end).
  set (C := stage_update (service_id s) (Num.bytes_to_gb (resolved_used c)) B).
  set (p := Num.usage_percentage (resolved_used c) (resolved_total c)) in *.
  assert (Hst' : st' = warning_step env s p C).
  { subst st'. rewrite process_client_traffic_steps. cbv zeta.
    apply Z.leb_gt in Htotal. rewrite Htotal. fold B. fold C. fold p.
    unfold exhaustion_step. by rewrite Hp'. }
  destruct (plan_part_rows_kept env now traffic_fields_same s c st Hd _ _ Hrow)
    as (rB & HrB & _ & HwB & _).
  fold B in HrB. rewrite Hw in HwB.
  destruct (warning_step_done env s p C u rB Hp Hd Hw Hu HrB HwB) as [Hdb Hq].
  rewrite <- Hst' in Hdb, Hq.
  split.
  - unfold queued at 1. rewrite Hq. subst C. mon_simpl.
    rewrite occurrences_app, occurrences_one.
    rewrite decide_True by done.
    change (occurrences Warning70 (service_id s) (message_queue B))
      with (queued Warning70 (service_id s) B).
    subst B. rewrite plan_part_queued by discriminate. lia.
  - eexists. split; [exact Hdb|]. split; [done|].
    intros Hplan. cbn [Store.set_warned_70_percent status].
    subst B. destruct (product_id s) as [z|] eqn:Hprod.
    + destruct Hplan as [?|Hdue]; [done|].
      rewrite expiry_step_not_due in HrB by done.
      destruct (three_day_step_row env now s st s Hrow) as (r' & Hr' & Hs & _).
      rewrite HrB in Hr'. by injection Hr' as <-.
    + rewrite Hrow in HrB. by injection HrB as <-.
Qed.

(** ** The overage rule *)

Lemma Qgtb_true x y : Num.Qgtb x y = true <-> (y < x)%Q.
Proof.
  unfold Num.Qgtb. destruct (Qle_bool x y) eqn:E; cbn [negb].
  - apply Qle_bool_iff in E. split; [done|]. intros H. lra.
  - split; [intros _|done]. destruct (Qlt_le_dec y x) as [H|H]; [done|].
    apply Qle_bool_iff in H. congruence.
Qed.

Lemma Qgtb_false x y : Num.Qgtb x y = false <-> (x <= y)%Q.
Proof.
  unfold Num.Qgtb. destruct (Qle_bool x y) eqn:E; cbn [negb].
  - apply Qle_bool_iff in E. done.
  - split; [done|]. intros H. apply Qle_bool_iff in H. congruence.
Qed.

Section Overage.

Variable env : environment.
Variable now : Time.datetime.

Lemma delete_service_for_overage_row s st :
  deletion_interrupted env s = false ->
  db (delete_service_for_overage env s st) !! service_id s = None.
Proof.
  intros Hi. unfold delete_service_for_overage. rewrite Hi.
  by_cases; unfold_store; apply lookup_delete_eq.
Qed.

Lemma delete_service_for_overage_panel s st pm :
  get_panel_manager env (panel_id s) = Some pm -> login pm = true ->
  panel_calls (delete_service_for_overage env s st)
  = panel_calls st ++ [DeleteClient (panel_id s) (inbound_id s) (client_uuid s)].
Proof.
  intros Hpm Hl. unfold delete_service_for_overage, delete_from_panel.
  rewrite Hpm, Hl. unfold notify_deleted. by repeat case_match.
Qed.

(** A disabled volume service seen at 100% or more is staged and then
    goes through the overage check, and nothing else. *)
Lemma evaluation_of_disabled_is_overage_check s c st :
  product_id s = None -> is_disabled s = true -> 0 < resolved_total c ->
  (100 <= Num.usage_percentage (resolved_used c) (resolved_total c))%Q ->
  process_client_traffic env now s c st
  = check_disabled_service_overage env now s
      (Num.usage_percentage (resolved_used c) (resolved_total c))
      (Num.bytes_to_gb (resolved_used c)) (Num.bytes_to_gb (resolved_total c))
      (stage_update (service_id s) (Num.bytes_to_gb (resolved_used c)) st).
Proof.
  intros Hp Hd Ht H100. rewrite process_client_traffic_steps. cbv zeta.
  apply Z.leb_gt in Ht. rewrite Ht, Hp.
  destruct (at_100_percent _ H100) as [Hge Hlt].
  unfold warning_step, exhaustion_step. by rewrite Hlt, Hge, Hd.
Qed.

(** At exactly 24 hours the check still runs. *)
Lemma overage_check_at_24_hours s p u g st a :
  now - a = 24 * 3600 * Time.MICROS_PER_SECOND ->
  check_overage_since env now (Some a) s p u g st
  = if exceeded_limits (Double.percentage p) (overage_gb u g)
    then delete_service_for_overage env s st else st.
Proof. intros H. unfold check_overage_since. by rewrite H. Qed.

End Overage.

(** The remote deletion is best effort: with the panel of the example
    down, a disabled service an hour into its grace period and seen at
    115% loses its row, but no [delete_client] call reaches the panel. *)
Lemma overage_claim_fails_when_panel_is_down :
  ~ overage_claim Examples.env_panel_down Examples.at_noon
      Examples.disabled_service Examples.used_115_percent
      (Examples.monitor_with Examples.disabled_service).
Proof.
  intros H. destruct H as [H _].
  - reflexivity.
  - reflexivity.
  - reflexivity.
  - eexists. split; [reflexivity|]. reflexivity.
  - reflexivity.
  - destruct H as [_ Hin].
    + left. vm_compute. discriminate.
    + vm_compute in Hin. by apply elem_of_nil in Hin.
Qed.

(** C3. The overage check does not see an overage of exactly 1 GB. The
    disabled service of the example is an hour into its grace period; its
    panel reports a total of 17072495002 bytes (15.9 GB) and exactly
    [1024 * 1024 * 1024] bytes more as used (16.9 GB), so the overage
    [used_bytes - total_bytes] is 1 GB and the limits are breached as the
    specification words them. The check works on the GB figures rounded to
    four decimals, in doubles: [16.9 * GIB - 15.9 * GIB] divided by [GIB]
    is [1 - 2^-49], which is not [>= 1.0], and the percentage is below 110.
    The evaluation leaves the service alone: its row stays as it is,
    nothing is called on the panel and nothing is sent. With 0.0001 GB more
    used the same check deletes the service in the same evaluation. *)
Theorem overage_of_exactly_one_gb_is_not_deleted :
  let s := MoreExamples.disabled_16_gb in
  let c := MoreExamples.one_gb_over in
  let st := Examples.monitor_with s in
  let st' := process_client_traffic Examples.env_ok Examples.at_noon s c st in
  (is_disabled s = true
   /\ exhausted_at s = Some (Examples.at_noon - 3600 * Time.MICROS_PER_SECOND)
   /\ 0 < resolved_total c
   /\ resolved_used c - resolved_total c = Num.GIB
   /\ spec_breach (resolved_used c) (resolved_total c))
  /\ ((Num.bytes_to_gb (resolved_used c) == 169 # 10)%Q
      /\ (Num.bytes_to_gb (resolved_total c) == 159 # 10)%Q
      /\ (Double.to_Q (overage_gb (Num.bytes_to_gb (resolved_used c))
                         (Num.bytes_to_gb (resolved_total c)))
          == 1 - (1 # 2 ^ 49))%Q
      /\ exceeded_limits
           (Double.percentage
              (Num.usage_percentage (resolved_used c) (resolved_total c)))
           (overage_gb (Num.bytes_to_gb (resolved_used c))
              (Num.bytes_to_gb (resolved_total c)))
         = false)
  /\ (db st' = db st /\ panel_calls st' = [] /\ bot_sent st' = []
      /\ message_queue st' = [])
  /\ (let st'' := process_client_traffic Examples.env_ok Examples.at_noon s
                    MoreExamples.a_little_more_over st in
      db st'' !! service_id s = None
      /\ panel_calls st'' = [DeleteClient 1 3 (client_uuid s)]
      /\ bot_sent st''
         = [(telegram_id Examples.owner, mk_message DeletedForOverage (service_id s))]).
Proof.
  cbv zeta. split; [|split; [|split]].
  - split; [reflexivity|]. split; [reflexivity|]. split; [reflexivity|].
    split; [reflexivity|]. right. vm_compute. discriminate.
  - split; [vm_compute; reflexivity|]. split; [vm_compute; reflexivity|].
    split; vm_compute; reflexivity.
  - vm_compute. repeat split; reflexivity.
  - vm_compute. repeat split; reflexivity.
Qed.

(** ** The fresh read before a send *)

(** C5. Three of the four flag-guarded notification paths read the flag
    afresh from the store and send nothing when it is set: the 70% warning,
    the exhaustion notice and the expiration notice. The three-day expiry
    warning does not: handed a plan as it was before the warning went out,
    while the store already holds [warned_one_week], it queues the warning
    once more. *)
Theorem three_day_warning_lacks_the_fresh_read :
  (forall env s st,
     flag_70_percent (Store.get_service_warning_flags (service_id s) (db st)) = true ->
     send_70_percent_warning env s st = st)
  /\ (forall env s st,
        flag_100_percent (Store.get_service_warning_flags (service_id s) (db st)) = true ->
        send_exhaustion_notification env s st = st)
  /\ (forall env s st,
        flag_expired (Store.get_service_warning_flags (service_id s) (db st)) = true ->
        send_plan_expiration_notification env s st = st)
  /\ (let st := Examples.monitor_with Examples.plan_warned in
      flag_one_week (Store.get_service_warning_flags 2 (db st)) = true
      /\ message_queue
           (send_three_days_expiration_warning Examples.env_ok
              Examples.plan_unwarned 2 st)
         = [(5001, mk_message ThreeDaysToExpiry 2)]
      /\ queued ThreeDaysToExpiry 2
           (process_client_traffic Examples.env_ok Examples.at_noon
              Examples.plan_unwarned Examples.unlimited st)
         = 1%nat).
Proof.
  split; [exact send_70_percent_warning_warned|].
  split; [exact send_exhaustion_notification_warned|].
  split; [exact send_plan_expiration_notification_warned|].
  cbv zeta. split; [reflexivity|]. split; [reflexivity|]. reflexivity.
Qed.

(** ** The scheduler *)

(** C7, as it is worded, fails for a cycle that takes longer than the
    interval: after 200 seconds the loop sleeps a tenth of a second, not
    [max(0, 180 - 200) = 0]. *)
Lemma cadence_claim_fails_for_slow_cycle :
  ~ cadence_claim SchedulerExamples.slow_iteration SchedulerExamples.started.
Proof.
  intros H. destruct (H eq_refl) as (q & Hs & Hq).
  vm_compute in Hs. injection Hs as <-. vm_compute in Hq. discriminate Hq.
Qed.

Module SchedulerFacts.

Import Scheduler.

Lemma end_of_cycle_in_time d :
  (d < 180)%Q ->
  end_of_cycle d = [Sleep (wait_time d)] /\ (wait_time d == 180 - d)%Q.
Proof.
  intros Hd. unfold end_of_cycle, wait_time, Num.max.
  assert (H : Num.Qgtb (180 - d) 0 = true) by (apply Qgtb_true; lra).
  rewrite H, H. split; reflexivity.
Qed.

Lemma end_of_cycle_late d :
  (180 <= d)%Q -> end_of_cycle d = [LogSlowCycle; Sleep 0.1].
Proof.
  intros Hd. unfold end_of_cycle, wait_time, Num.max.
  assert (H : Num.Qgtb (180 - d) 0 = false) by (apply Qgtb_false; lra).
  rewrite H. reflexivity.
Qed.

Lemma end_of_cycle_sleeps_once d : length (sleeps (end_of_cycle d)) = 1%nat.
Proof. unfold end_of_cycle. by destruct (Num.Qgtb _ _). Qed.

Lemma sleeps_app tr1 tr2 : sleeps (tr1 ++ tr2) = sleeps tr1 ++ sleeps tr2.
Proof. unfold sleeps. apply omap_app. Qed.

Lemma iteration_body_monitoring it s :
  monitoring (iteration_body it s) = monitoring s.
Proof. unfold iteration_body. by repeat case_match. Qed.

(** Every iteration, raising or not, ends in exactly one sleep. *)
Lemma iteration_body_sleeps_once it s :
  length (sleeps (trace (iteration_body it s)))
  = S (length (sleeps (trace s))).
Proof.
  unfold iteration_body.
  repeat case_match; cbn [trace]; rewrite !sleeps_app, !length_app;
    rewrite ?end_of_cycle_sleeps_once; cbn; lia.
Qed.

(** Without a stop request the loop runs every iteration it is given and
    is still running. *)
Lemma run_without_stop its s :
  Forall (fun it => it_stop it = false) its ->
  monitoring s = true ->
  monitoring (run its s) = true
  /\ length (sleeps (trace (run its s)))
     = (length (sleeps (trace s)) + length its)%nat.
Proof.
  intros Hall. revert s. induction Hall as [|it its Hstop _ IH]; intros s Hm.
  - cbn. split; [done|lia].
  - cbn [run]. rewrite Hm, Hstop.
    destruct (IH (iteration_body it s)) as [IHm IHl].
    { by rewrite iteration_body_monitoring. }
    split; [exact IHm|].
    rewrite IHl, iteration_body_sleeps_once. cbn [length]. lia.
Qed.

(** The loop is left only with the flag cleared by a stop request. *)
Lemma run_exits_by_stop its s :
  monitoring s = true ->
  monitoring (run its s) = false ->
  Exists (fun it => it_stop it = true) its.
Proof.
  revert s. induction its as [|it its IH]; intros s Hm Hexit.
  - cbn in Hexit. congruence.
  - cbn [run] in Hexit. rewrite Hm in Hexit.
    destruct (it_stop it) eqn:Hstop; [by left|].
    right. apply (IH (iteration_body it s)); [|done].
    by rewrite iteration_body_monitoring.
Qed.

End SchedulerFacts.

(** C7, amended. An iteration that does not raise runs the reconciliation
    pass, then the deletion sweep, and then sleeps [180 - elapsed] seconds
    when the cycle took less than 180 seconds, and a tenth of a second
    (after a warning in the log) when it took 180 seconds or longer. An
    iteration that raises logs the error and sleeps 60 seconds. No
    iteration clears the monitoring flag: without a stop request the loop
    runs every iteration and is still running, and a loop that has been
    left was stopped by a request. *)
Theorem scheduler_cadence it s :
  let s' := Scheduler.iteration_body it s in
  Scheduler.monitoring s' = Scheduler.monitoring s
  /\ (Scheduler.it_raises it = None ->
      Scheduler.mon s'
      = check_for_deletion (Scheduler.it_env it) (Scheduler.it_now it)
          (check_all_services (Scheduler.it_env it) (Scheduler.it_now it)
             (Scheduler.mon s))
      /\ Scheduler.trace s'
         = Scheduler.trace s
             ++ [Scheduler.RunCheckAllServices; Scheduler.RunCheckForDeletion]
             ++ Scheduler.end_of_cycle (Scheduler.it_duration it)
      /\ ((Scheduler.it_duration it < 180)%Q ->
          Scheduler.end_of_cycle (Scheduler.it_duration it)
          = [Scheduler.Sleep (Scheduler.wait_time (Scheduler.it_duration it))]
          /\ (Scheduler.wait_time (Scheduler.it_duration it)
              == 180 - Scheduler.it_duration it)%Q)
      /\ ((180 <= Scheduler.it_duration it)%Q ->
          Scheduler.end_of_cycle (Scheduler.it_duration it)
          = [Scheduler.LogSlowCycle; Scheduler.Sleep 0.1]))
  /\ (forall stage, Scheduler.it_raises it = Some stage ->
        exists ran, Scheduler.trace s'
                    = Scheduler.trace s ++ ran
                        ++ [Scheduler.LogError; Scheduler.Sleep 60]
                    /\ Scheduler.sleeps ran = [])
  /\ (forall its,
        Forall (fun it => Scheduler.it_stop it = false) its ->
        Scheduler.monitoring s = true ->
        Scheduler.monitoring (Scheduler.run its s) = true
        /\ length (Scheduler.sleeps (Scheduler.trace (Scheduler.run its s)))
           = (length (Scheduler.sleeps (Scheduler.trace s)) + length its)%nat)
  /\ (forall its,
        Scheduler.monitoring s = true ->
        Scheduler.monitoring (Scheduler.run its s) = false ->
        Exists (fun it => Scheduler.it_stop it = true) its).
Proof.
  cbv zeta. split; [apply SchedulerFacts.iteration_body_monitoring|].
  split.
  { intros Hr. unfold Scheduler.iteration_body. rewrite Hr. cbn.
    split; [done|]. split; [done|]. split.
    - apply SchedulerFacts.end_of_cycle_in_time.
    - apply SchedulerFacts.end_of_cycle_late. }
  split.
  { intros stage Hr. unfold Scheduler.iteration_body, Scheduler.on_error.
    rewrite Hr. destruct stage; cbn [Scheduler.trace].
    - by exists [].
    - by exists [Scheduler.RunCheckAllServices].
    - by exists [Scheduler.RunCheckAllServices; Scheduler.RunCheckForDeletion]. }
  split.
  - intros its. apply SchedulerFacts.run_without_stop.
  - intros its. apply SchedulerFacts.run_exits_by_stop.
Qed.

(** ** The update buffer *)

Section Buffer.

Variable env : environment.
Variable now : Time.datetime.
Variable R : service -> service -> Prop.
Context `{!PlanStable R, !TrafficStable R}.

(** A run of evaluations, each on the client details found for the
    service, stages one counter write per evaluated service. *)
Lemma evaluations_buffers (details : service -> option client) services st :
  let st' := foldl (fun acc s => match details s with
                                 | Some c => process_client_traffic env now s c acc
                                 | None => acc
                                 end) st services in
  pending_updates st'
  = pending_updates st
      ++ (staged_entry <$> omap (fun s => pair s <$> details s) services)
  /\ bulk_calls st' = bulk_calls st
  /\ rows_from R (db st) (db st').
Proof.
  revert st. induction services as [|s services IH]; intros st.
  - cbn. rewrite app_nil_r. repeat split. apply rows_from_refl; apply _.
  - cbv zeta in IH. cbn [foldl omap list_omap].
    destruct (details s) as [c|] eqn:Hc;
      cbn [fmap option_fmap option_map list_fmap].
    + destruct (IH (process_client_traffic env now s c st)) as (Hp & Hb & Hr).
      destruct (process_client_traffic_buffers env now s c st) as [Hp1 Hb1].
      rewrite Hp, Hb, Hp1, Hb1. rewrite <- app_assoc.
      split; [reflexivity|]. split; [reflexivity|].
      eapply rows_from_trans; [apply _| |exact Hr].
      apply process_client_traffic_rows_from; apply _.
    + apply IH.
Qed.

Lemma omap_none {A B} (l : list A) : omap (fun _ => @None B) l = [].
Proof. by induction l. Qed.

Lemma check_panel_services_parallel_buffers panel services st :
  let st' := check_panel_services_parallel env now panel services st in
  pending_updates st'
  = pending_updates st
      ++ (staged_entry <$> evaluated_in_panel env (panel, services))
  /\ bulk_calls st' = bulk_calls st
  /\ rows_from R (db st) (db st').
Proof.
  unfold check_panel_services_parallel, evaluated_in_panel, panel_details.
  cbn [fst snd].
  destruct (get_panel_manager env panel) as [pm|]; [destruct (login pm)|].
  - destruct (decide (batch_clients pm = ∅)).
    + apply (evaluations_buffers (details_direct env) services st).
    + apply (evaluations_buffers (details_optimized pm) services st).
  - cbn [fmap option_fmap option_map]. rewrite omap_none, app_nil_r.
    repeat split. apply rows_from_refl; apply _.
  - cbn [fmap option_fmap option_map]. rewrite omap_none, app_nil_r.
    repeat split. apply rows_from_refl; apply _.
Qed.

Lemma check_panels_buffers groups st :
  let st' := check_panels env now groups st in
  pending_updates st'
  = pending_updates st
      ++ (staged_entry <$> concat (evaluated_in_panel env <$> groups))
  /\ bulk_calls st' = bulk_calls st
  /\ rows_from R (db st) (db st').
Proof.
  unfold check_panels. revert st.
  induction groups as [|[panel services] groups IH]; intros st; cbn [foldl].
  - cbn. rewrite app_nil_r. repeat split. apply rows_from_refl; apply _.
  - cbn [fst snd fmap list_fmap concat].
    destruct (check_panel_services_parallel_buffers panel services st)
      as (Hp1 & Hb1 & Hr1).
    destruct (IH (check_panel_services_parallel env now panel services st))
      as (Hp & Hb & Hr).
    cbv zeta in *. rewrite Hp, Hb, Hp1, Hb1.
    rewrite fmap_app, <- app_assoc. repeat split.
    eapply rows_from_trans; [apply _|exact Hr1|exact Hr].
Qed.

End Buffer.

(** C8. In one cycle every evaluated service stages exactly one
    [(id, used_gb)] entry; when all panels are done the staged entries go
    out in one bulk write (none when nothing was staged) and the buffer is
    empty afterwards. When the bulk write fails, nothing is retried: the
    buffer is empty all the same, and every row the store still holds has
    the usage counter it had before the cycle. *)
Theorem update_buffer_flushed_once env now st :
  let services := Store.get_all_active_services (db st) in
  let staged := staged_entry <$> evaluated env services in
  let st' := check_all_services env now st in
  length staged = length (evaluated env services)
  /\ pending_updates st' = []
  /\ bulk_calls st'
     = bulk_calls st ++ match staged with [] => [] | _ :: _ => [staged] end
  /\ (bulk_update_ok env = false -> rows_from used_gb_same (db st) (db st')).
Proof.
  cbv zeta. split; [apply length_fmap|].
  unfold check_all_services, evaluated.
  set (services := Store.get_all_active_services (db st)).
  set (groups := services_by_panel services).
  destruct (check_panels_buffers env now used_gb_same groups
              (with_pending_updates [] st)) as (Hp & Hb & Hr).
  cbv zeta in *. mon_simpl. cbn [app] in Hp.
  assert (Hnil : services = [] -> groups = []) by (by intros ->).
  set (staged := staged_entry <$> concat (evaluated_in_panel env <$> groups)) in *.
  destruct services as [|s0 services'] eqn:Hs.
  { rewrite (Hnil eq_refl) in *. subst staged. cbn. rewrite app_nil_r.
    repeat split. intros _. apply rows_from_refl; apply _. }
  unfold flush_updates. rewrite Hp.
  destruct staged as [|e staged'] eqn:Hst.
  - split; [exact Hp|]. rewrite app_nil_r. split; [exact Hb|].
    intros _. exact Hr.
  - mon_simpl. split; [by destruct (bulk_update_ok env)|].
    split; [destruct (bulk_update_ok env); mon_simpl; by rewrite Hb|].
    intros Hfail. rewrite Hfail. mon_simpl. exact Hr.
Qed.

(** ** The dispatcher *)

Module DispatcherFacts.

Import Dispatcher.

Lemma Qltb_true x y : Num.Qltb x y = true <-> (x < y)%Q.
Proof.
  unfold Num.Qltb. destruct (Qle_bool y x) eqn:E; cbn [negb].
  - apply Qle_bool_iff in E. split; [done|]. intros H. lra.
  - split; [intros _|done]. destruct (Qlt_le_dec x y) as [H|H]; [done|].
    apply Qle_bool_iff in H. congruence.
Qed.

Lemma Qltb_false x y : Num.Qltb x y = false <-> (y <= x)%Q.
Proof.
  unfold Num.Qltb. destruct (Qle_bool y x) eqn:E; cbn [negb].
  - apply Qle_bool_iff in E. done.
  - split; [done|]. intros H. apply Qle_bool_iff in H. congruence.
Qed.

(** When the send of a turn starts, given the loop time [now] at which
    the item was taken and the last send to its recipient. *)
Lemma started_after_last now last over :
  (0 <= over)%Q ->
  let started :=
    if Num.Qltb (now - last) min_message_interval
    then (now + (min_message_interval - (now - last)) + over)%Q else now in
  (last + min_message_interval <= started)%Q /\ (now <= started)%Q.
Proof.
  intros Hover. unfold min_message_interval. cbv zeta.
  destruct (Num.Qltb (now - last) 1) eqn:E.
  - apply Qltb_true in E. split; lra.
  - apply Qltb_false in E. split; lra.
Qed.

Lemma step_monitoring t w : monitoring (step t w) = monitoring w.
Proof. unfold step. by repeat case_match. Qed.

(** Every message is sent or still queued, in the order of arrival. *)
Lemma step_fifo t w :
  monitoring w = true ->
  entries (sent (step t w)) ++ queue (step t w)
  = entries (sent w) ++ queue w ++ arrivals t.
Proof.
  intros Hm. unfold step. rewrite Hm. cbn [negb].
  destruct (queue w ++ arrivals t) as [|[chat m] rest] eqn:Hq; cbn.
  - reflexivity.
  - unfold entries. rewrite fmap_app. cbn. by rewrite <- app_assoc.
Qed.

Lemma run_fifo ts w :
  monitoring w = true ->
  entries (sent (run ts w)) ++ queue (run ts w)
  = entries (sent w) ++ queue w ++ concat (arrivals <$> ts).
Proof.
  unfold run. revert w.
  induction ts as [|t ts IH]; intros w Hm; cbn [foldl fmap list_fmap concat].
  - by rewrite !app_nil_r.
  - rewrite IH by (by rewrite step_monitoring).
    rewrite app_assoc, step_fifo by done. by rewrite <- !app_assoc.
Qed.

Lemma fresh_consistent q t0 : consistent (fresh_worker q t0).
Proof.
  split; cbn.
  - intros c t H. by rewrite lookup_empty in H.
  - intros a H. by apply elem_of_nil in H.
  - intros i j a b _ H. by rewrite lookup_nil in H.
  - intros a H. by apply elem_of_nil in H.
Qed.

Lemma step_consistent t w : tick_ok t -> consistent w -> consistent (step t w).
Proof.
  intros (Hidle & Hover & Hdur) [Hpast Hrec Hsp Hsf]. unfold step.
  destruct (monitoring w); cbn [negb]; [|by split].
  destruct (queue w ++ arrivals t) as [|[chat m] rest] eqn:Hq.
  { split; cbn; [|done|done|done]. intros c x Hx. specialize (Hpast c x Hx). lra. }
  set (now := (clock w + idle t)%Q).
  set (last := default 0%Q (last_message_time w !! chat)).
  destruct (started_after_last now last (oversleep t) Hover) as [Hlast Hnow].
  cbv zeta in Hlast, Hnow.
  set (started := if Num.Qltb (now - last) min_message_interval
                  then (now + (min_message_interval - (now - last)) + oversleep t)%Q
                  else now) in *.
  set (finished := (started + send_duration t)%Q).
  assert (Hclock : (clock w <= finished)%Q) by (subst finished now; lra).
  split; cbn.
  - intros c x Hx. destruct (send_ok t).
    + rewrite lookup_insert in Hx. case_decide; simplify_eq.
      * lra.
      * specialize (Hpast c x Hx). lra.
    + specialize (Hpast c x Hx). lra.
  - intros a Ha Hdel. apply elem_of_app in Ha as [Ha|Ha].
    + destruct (Hrec a Ha Hdel) as (x & Hx & Hle).
      destruct (send_ok t); [|eauto].
      rewrite lookup_insert. case_decide.
      * eexists. split; [done|]. specialize (Hpast _ _ Hx). lra.
      * eauto.
    + apply list_elem_of_singleton in Ha as ->. cbn in *. rewrite Hdel.
      rewrite lookup_insert_eq. eexists. split; [done|]. lra.
  - intros i j a b Hij Ha Hb Hto Hdel.
    destruct (decide (j < length (sent w))%nat) as [Hj|Hj].
    + rewrite lookup_app_l in Ha by lia. rewrite lookup_app_l in Hb by lia.
      eauto.
    + assert (Hjl : j = length (sent w)).
      { apply lookup_lt_Some in Hb. rewrite length_app in Hb. cbn in Hb. lia. }
      subst j. rewrite lookup_app_l in Ha by lia.
      rewrite lookup_app_r, Nat.sub_diag in Hb by lia.
      cbn in Hb. injection Hb as <-. cbn in *.
      destruct (Hrec a) as (x & Hx & Hle);
        [by eapply list_elem_of_lookup_2|done|].
      rewrite Hto in Hx. subst last. rewrite Hx in Hlast. cbn in Hlast. lra.
  - intros a Ha. apply elem_of_app in Ha as [Ha|Ha]; [by apply Hsf|].
    apply list_elem_of_singleton in Ha as ->. cbn. subst finished. lra.
Qed.

Lemma run_consistent ts w :
  Forall tick_ok ts -> consistent w -> consistent (run ts w).
Proof.
  unfold run. intros Hts. revert w.
  induction Hts as [|t ts Ht _ IH]; intros w Hw; cbn; [done|].
  by apply IH, step_consistent.
Qed.

End DispatcherFacts.

(** C9, as it is worded, fails after a send that raises: the time of a
    send is recorded only when the send returns, so the second of the two
    messages waiting for one recipient goes out at the same loop time as
    the first, whose send raised. *)
Lemma spacing_claim_fails_after_failed_send :
  ~ spacing_claim [DispatcherExamples.raises; DispatcherExamples.delivers]
      DispatcherExamples.two_waiting.
Proof.
  intros H.
  assert (Hts : Forall Dispatcher.tick_ok
                  [DispatcherExamples.raises; DispatcherExamples.delivers]).
  { repeat constructor; cbn; discriminate. }
  pose proof (H Hts 0%nat 1%nat
                (Dispatcher.mk_send 5001 DispatcherExamples.first 100 100 false)
                (Dispatcher.mk_send 5001 DispatcherExamples.second 100 100 true))
    as Hc.
  assert (Hle : (100 + Dispatcher.min_message_interval <= 100)%Q).
  { apply Hc; [lia|vm_compute; reflexivity|vm_compute; reflexivity|reflexivity]. }
  vm_compute in Hle. by apply Hle.
Qed.

(** C9, amended. Started with any messages already queued, and whatever
    arrives later, the worker sends in the order of arrival: the sends made
    so far followed by what is still queued are the queued messages followed
    by the arrivals. A send to a recipient starts no sooner than the minimum
    interval of one second after the end of every earlier send to that
    recipient that returned without raising; so when the sends go through,
    as for ten messages queued at once for one recipient, any two sends to
    one recipient start at least a second apart. *)
Theorem dispatcher_spacing_and_order q t0 ts :
  Forall Dispatcher.tick_ok ts ->
  let w' := Dispatcher.run ts (fresh_worker q t0) in
  entries (Dispatcher.sent w') ++ Dispatcher.queue w'
  = q ++ concat (Dispatcher.arrivals <$> ts)
  /\ (forall i j a b,
        (i < j)%nat ->
        Dispatcher.sent w' !! i = Some a ->
        Dispatcher.sent w' !! j = Some b ->
        Dispatcher.send_to a = Dispatcher.send_to b ->
        Dispatcher.send_delivered a = true ->
        (Dispatcher.send_finished a + Dispatcher.min_message_interval
         <= Dispatcher.send_started b)%Q
        /\ (Dispatcher.send_started a + Dispatcher.min_message_interval
            <= Dispatcher.send_started b)%Q).
Proof.
  intros Hts w'. split.
  - subst w'. by rewrite DispatcherFacts.run_fifo.
  - intros i j a b Hij Ha Hb Hto Hdel.
    destruct (DispatcherFacts.run_consistent ts (fresh_worker q t0) Hts
                (DispatcherFacts.fresh_consistent q t0))
      as [_ _ Hsp Hsf].
    fold w' in Hsp, Hsf.
    pose proof (Hsp i j a b Hij Ha Hb Hto Hdel) as H1.
    pose proof (Hsf a (list_elem_of_lookup_2 _ _ _ Ha)) as H2.
    split; [exact H1|lra].
Qed.

(** ** The theorems at concrete inputs *)

(** The service of the example, seen at 105% with the panel up, gets
    exactly one exhaustion notice. *)
Lemma exhaustion_witness :
  (100 <= Num.usage_percentage (resolved_used Examples.used_105_percent)
            (resolved_total Examples.used_105_percent))%Q
  /\ queued TrafficExhausted 1
       (process_client_traffic Examples.env_ok Examples.at_noon
          Examples.volume_service Examples.used_105_percent
          (Examples.monitor_with Examples.volume_service))
     = 1%nat.
Proof.
  assert (H : (100 <= Num.usage_percentage
                        (resolved_used Examples.used_105_percent)
                        (resolved_total Examples.used_105_percent))%Q)
    by (vm_compute; discriminate).
  split; [exact H|].
  refine (proj1 (proj2 (exhaustion_disables_and_notifies_once
                          Examples.env_ok Examples.at_noon Examples.volume_service
                          Examples.used_105_percent
                          (Examples.monitor_with Examples.volume_service)
                          Examples.panel_ok Examples.owner
                          _ _ _ H _ _ _ _ _))); reflexivity.
Defined.

(** The scenario of the specification: 10 GB, 7.5 GB used, active, not
    warned; one warning is queued. *)
Lemma warning_70_witness :
  (70 <= Num.usage_percentage (resolved_used Examples.used_75_percent)
           (resolved_total Examples.used_75_percent))%Q
  /\ queued Warning70 1
       (process_client_traffic Examples.env_ok Examples.at_noon
          Examples.volume_service Examples.used_75_percent
          (Examples.monitor_with Examples.volume_service))
     = 1%nat.
Proof.
  assert (H : (70 <= Num.usage_percentage
                       (resolved_used Examples.used_75_percent)
                       (resolved_total Examples.used_75_percent))%Q)
    by (vm_compute; discriminate).
  split; [exact H|].
  refine (proj1 (warning_70_sent_once
                   Examples.env_ok Examples.at_noon Examples.volume_service
                   Examples.used_75_percent
                   (Examples.monitor_with Examples.volume_service)
                   Examples.owner _ _ H _ _ _ _)); reflexivity.
Defined.

(** A client without a limit: the counter write is staged. *)
Lemma unlimited_witness :
  resolved_total Examples.unlimited <= 0
  /\ pending_updates
       (process_client_traffic Examples.env_ok Examples.at_noon
          Examples.volume_service Examples.unlimited
          (Examples.monitor_with Examples.volume_service))
     = [(1, Num.bytes_to_gb (resolved_used Examples.unlimited))].
Proof.
  assert (H : resolved_total Examples.unlimited <= 0) by (vm_compute; discriminate).
  split; [exact H|].
  exact (proj1 (proj2 (unlimited_service_has_no_thresholds
                         Examples.env_ok Examples.at_noon Examples.volume_service
                         Examples.unlimited
                         (Examples.monitor_with Examples.volume_service) H))).
Defined.

(** Ten messages queued at once for one recipient leave in the order in
    which they were queued. *)
Lemma dispatcher_witness :
  Forall Dispatcher.tick_ok DispatcherExamples.ten_sends
  /\ entries (Dispatcher.sent
                (Dispatcher.run DispatcherExamples.ten_sends
                   (fresh_worker DispatcherExamples.ten_messages 100)))
     ++ Dispatcher.queue
          (Dispatcher.run DispatcherExamples.ten_sends
             (fresh_worker DispatcherExamples.ten_messages 100))
     = DispatcherExamples.ten_messages
         ++ concat (Dispatcher.arrivals <$> DispatcherExamples.ten_sends).
Proof.
  assert (H : Forall Dispatcher.tick_ok DispatcherExamples.ten_sends)
    by (repeat constructor; cbn; discriminate).
  split; [exact H|].
  exact (proj1 (dispatcher_spacing_and_order
                  DispatcherExamples.ten_messages 100
                  DispatcherExamples.ten_sends H)).
Defined.

(** And they leave a second apart. *)
Example ten_messages_a_second_apart :
  Dispatcher.send_started
  <$> Dispatcher.sent
        (Dispatcher.run DispatcherExamples.ten_sends
           (fresh_worker DispatcherExamples.ten_messages 100))
  = [100; 101; 102; 103; 104; 105; 106; 107; 108; 109]%Q.
Proof. vm_compute. reflexivity. Qed.

(** ** A flag gates one send *)

Ltac flagged_by_write :=
  let r := fresh "r" in
  let Hr := fresh "Hr" in
  intros r Hr; mon_simpl; unfold_store; rewrite lookup_alter_eq in Hr;
  match type of Hr with
  | _ <$> ?o = _ => destruct o; simplify_eq/=; reflexivity
  end.

Ltac silent_or_flagged :=
  by_cases; first [left; reflexivity | right; flagged_by_write].

Section Guarded.

Variable env : environment.
Variable now : Time.datetime.

Lemma guarded_step_refl k f sid st : guarded_step k f sid st st.
Proof.
  split; [by left|]. split; [by left|]. apply rows_from_refl; apply _.
Qed.

Lemma three_day_step_guarded s st :
  guarded_step ThreeDaysToExpiry warned_one_week (service_id s) st
    (three_day_step env now s st).
Proof.
  split; [apply three_day_step_emits|].
  split; [|apply three_day_step_rows_from; apply _].
  unfold three_day_step, flagged. silent_or_flagged.
Qed.

Lemma expiry_step_guarded s c st :
  guarded_step PlanExpired warned_expired (service_id s) st
    (expiry_step env now s c st).
Proof.
  split; [apply expiry_step_emits|].
  split; [|apply expiry_step_rows_from; apply _].
  unfold expiry_step, flagged, silent. silent_or_flagged.
Qed.

Lemma warning_step_guarded s p st :
  guarded_step Warning70 warned_70_percent (service_id s) st
    (warning_step env s p st).
Proof.
  split; [apply warning_step_emits|].
  split; [|apply warning_step_rows_from; apply _].
  unfold warning_step, flagged, silent. silent_or_flagged.
Qed.

Lemma exhaustion_step_guarded s p u g st :
  guarded_step TrafficExhausted warned_100_percent (service_id s) st
    (exhaustion_step env now s p u g st).
Proof.
  split; [apply exhaustion_step_emits|].
  split; [|apply exhaustion_step_rows_from; apply _].
  unfold exhaustion_step, flagged, silent. silent_or_flagged.
Qed.

(** One evaluation is four guarded steps. *)
Lemma process_client_traffic_guarded s c st :
  exists st1 st2 st3,
    guarded_step ThreeDaysToExpiry warned_one_week (service_id s) st st1
    /\ guarded_step PlanExpired warned_expired (service_id s) st1 st2
    /\ guarded_step Warning70 warned_70_percent (service_id s) st2 st3
    /\ guarded_step TrafficExhausted warned_100_percent (service_id s) st3
         (process_client_traffic env now s c st).
Proof.
  rewrite process_client_traffic_steps. cbv zeta.
  set (g := Num.bytes_to_gb (resolved_used c)).
  set (p := Num.usage_percentage (resolved_used c) (resolved_total c)).
  set (st1 := match product_id s with
              | Some _ => three_day_step env now s st | None => st end).
  set (st2 := match product_id s with
              | Some _ => expiry_step env now s (Some c) st1 | None => st1 end).
  assert (H1 : guarded_step ThreeDaysToExpiry warned_one_week (service_id s) st st1).
  { subst st1. destruct (product_id s);
      [apply three_day_step_guarded|apply guarded_step_refl]. }
  assert (H2 : guarded_step PlanExpired warned_expired (service_id s) st1 st2).
  { subst st2. destruct (product_id s);
      [apply expiry_step_guarded|apply guarded_step_refl]. }
  assert (Heq : match product_id s with
                | Some _ => expiry_step env now s (Some c) (three_day_step env now s st)
                | None => st
                end = st2).
  { subst st2 st1. by destruct (product_id s). }
  rewrite Heq. clear Heq.
  destruct (resolved_total c <=? 0).
  - exists st1, st2, st2. split; [exact H1|]. split; [exact H2|].
    split; [apply guarded_step_refl|].
    exact (guarded_step_refl TrafficExhausted warned_100_percent
             (service_id s) st2).
  - exists st1, st2, (warning_step env s p (stage_update (service_id s) g st2)).
    split; [exact H1|]. split; [exact H2|]. split.
    + exact (warning_step_guarded s p (stage_update (service_id s) g st2)).
    + apply exhaustion_step_guarded.
Qed.

End Guarded.

Lemma guarding_flag_raised k f r r' :
  guarding_flag k = Some f -> flags_only_raised r r' -> f r = true -> f r' = true.
Proof. destruct k; intros [= <-] (? & ? & ? & ?); auto. Qed.

Lemma flagged_rows_from k f sid st st' :
  guarding_flag k = Some f -> flagged f sid st ->
  rows_from flags_only_raised (db st) (db st') -> flagged f sid st'.
Proof.
  intros Hk Hf Hrows r' Hr'. destruct (Hrows sid r' Hr') as (r & Hr & HR).
  eapply guarding_flag_raised; eauto.
Qed.

Section Lifetime.

Variable env : environment.
Variable now : Time.datetime.

(** An evaluation that queues a guarded message leaves the flag set. *)
Lemma process_client_traffic_flags_after s c st k f :
  guarding_flag k = Some f ->
  queued k (service_id s) (process_client_traffic env now s c st)
  <> queued k (service_id s) st ->
  flagged f (service_id s) (process_client_traffic env now s c st).
Proof.
  intros Hk Hne.
  destruct (process_client_traffic_guarded env now s c st)
    as (st1 & st2 & st3 & (He1 & Hs1 & Hr1) & (He2 & Hs2 & Hr2)
        & (He3 & Hs3 & Hr3) & (He4 & Hs4 & Hr4)).
  set (E := process_client_traffic env now s c st) in *.
  assert (H43 : rows_from flags_only_raised (db st3) (db E)) by exact Hr4.
  assert (H42 : rows_from flags_only_raised (db st2) (db E))
    by (eapply rows_from_trans; [apply _|exact Hr3|exact H43]).
  assert (H41 : rows_from flags_only_raised (db st1) (db E))
    by (eapply rows_from_trans; [apply _|exact Hr2|exact H42]).
  pose proof (emits_queued _ _ _ _ k (service_id s) He1) as Q1.
  pose proof (emits_queued _ _ _ _ k (service_id s) He2) as Q2.
  pose proof (emits_queued _ _ _ _ k (service_id s) He3) as Q3.
  pose proof (emits_queued _ _ _ _ k (service_id s) He4) as Q4.
  pose proof (silent_queued k (service_id s) st st1) as S1.
  pose proof (silent_queued k (service_id s) st1 st2) as S2.
  pose proof (silent_queued k (service_id s) st2 st3) as S3.
  pose proof (silent_queued k (service_id s) st3 E) as S4.
  destruct k; try discriminate; injection Hk as <-;
    repeat case_decide; destruct_and?; try discriminate;
    try match goal with
        | H : ~ (?a = ?a /\ _) |- _ => exfalso; apply H; by split
        end.
  - destruct Hs3 as [Hs3|Hf3]; [specialize (S3 Hs3); lia|].
    by eapply (flagged_rows_from Warning70).
  - destruct Hs4 as [Hs4|Hf4]; [specialize (S4 Hs4); lia|done].
  - destruct Hs1 as [Hs1|Hf1]; [specialize (S1 Hs1); lia|].
    by eapply (flagged_rows_from ThreeDaysToExpiry).
  - destruct Hs2 as [Hs2|Hf2]; [specialize (S2 Hs2); lia|].
    by eapply (flagged_rows_from PlanExpired).
Qed.

(** A flag that the row handed over has set silences its kind. *)
Lemma evaluation_silenced s c st k f :
  guarding_flag k = Some f ->
  db st !! service_id s = Some s -> f s = true ->
  queued k (service_id s) (process_client_traffic env now s c st)
  = queued k (service_id s) st.
Proof.
  intros Hk Hrow Hf.
  destruct (evaluation_respects_flags env now s c st Hrow)
    as (_ & H70 & H100 & H3 & He & _).
  destruct k; try discriminate; injection Hk as <-; auto.
Qed.

Lemma process_client_traffic_filed_by_id s c st :
  filed_by_id st -> filed_by_id (process_client_traffic env now s c st).
Proof.
  intros Hfiled sid r' Hr'.
  destruct (process_client_traffic_rows_from env now stays_disabled s c st
              sid r' Hr') as (r & Hr & Hid & _).
  rewrite Hid. by apply Hfiled.
Qed.

End Lifetime.

Lemma evaluate_from_store_cases sid ev st :
  (db st !! sid = None /\ evaluate_from_store sid ev st = st)
  \/ (exists r, db st !! sid = Some r
                /\ evaluate_from_store sid ev st
                   = process_client_traffic (fst (fst ev)) (snd (fst ev)) r (snd ev) st).
Proof.
  unfold evaluate_from_store. destruct (db st !! sid) as [r|]; eauto.
Qed.

Lemma evaluate_from_store_filed_by_id sid ev st :
  filed_by_id st -> filed_by_id (evaluate_from_store sid ev st).
Proof.
  intros Hfiled. destruct (evaluate_from_store_cases sid ev st)
    as [[_ ->]|(r & _ & ->)]; [done|].
  by apply process_client_traffic_filed_by_id.
Qed.

Lemma evaluate_from_store_rows_from sid ev st :
  rows_from flags_only_raised (db st) (db (evaluate_from_store sid ev st)).
Proof.
  destruct (evaluate_from_store_cases sid ev st) as [[_ ->]|(r & _ & ->)].
  - apply rows_from_refl; apply _.
  - apply process_client_traffic_rows_from; apply _.
Qed.

Lemma evaluations_rows_from sid evs st :
  rows_from flags_only_raised (db st) (db (evaluations_from_store sid evs st)).
Proof.
  unfold evaluations_from_store. revert st.
  induction evs as [|ev evs IH]; intros st; cbn [foldl].
  - apply rows_from_refl; apply _.
  - eapply rows_from_trans; [apply _|apply evaluate_from_store_rows_from|apply IH].
Qed.

(** Once the flag is set, no later evaluation queues its kind. *)
Lemma evaluations_when_flagged k f sid evs st :
  guarding_flag k = Some f -> filed_by_id st -> flagged f sid st ->
  queued k sid (evaluations_from_store sid evs st) = queued k sid st.
Proof.
  intros Hk. unfold evaluations_from_store. revert st.
  induction evs as [|ev evs IH]; intros st Hfiled Hf; cbn [foldl]; [done|].
  rewrite IH.
  - destruct (evaluate_from_store_cases sid ev st) as [[_ ->]|(r & Hr & ->)]; [done|].
    pose proof (Hfiled _ _ Hr) as Hid. rewrite <- Hid in Hr |- *.
    eapply evaluation_silenced; [exact Hk|exact Hr|]. apply Hf. by rewrite <- Hid.
  - by apply evaluate_from_store_filed_by_id.
  - eapply flagged_rows_from; [exact Hk|exact Hf|].
    apply evaluate_from_store_rows_from.
Qed.

(** *** The rest of an iteration resets no flag either *)

Lemma foldl_rows_from {A} R `{!PreOrder R} (f : monitor -> A -> monitor) l st :
  (forall acc x, rows_from R (db acc) (db (f acc x))) ->
  rows_from R (db st) (db (foldl f st l)).
Proof.
  intros Hf. revert st. induction l as [|x l IH]; intros st; cbn [foldl].
  - apply rows_from_refl; apply _.
  - eapply rows_from_trans; [apply _|apply Hf|apply IH].
Qed.

Lemma bulk_update_rows_from updates t :
  rows_from flags_only_raised t (Store.bulk_update_client_status updates t).
Proof.
  unfold Store.bulk_update_client_status. revert t.
  induction updates as [|u updates IH]; intros t; cbn [foldl].
  - apply rows_from_refl; apply _.
  - eapply rows_from_trans; [apply _| |apply IH].
    apply rows_from_alter; [apply _|]. intros r. by repeat split.
Qed.

Lemma flush_updates_rows_from env st :
  rows_from flags_only_raised (db st) (db (flush_updates env st)).
Proof.
  unfold flush_updates. repeat case_match; mon_simpl;
    try (apply rows_from_refl; apply _).
  apply bulk_update_rows_from.
Qed.

Lemma check_all_services_rows_from env now st :
  rows_from flags_only_raised (db st) (db (check_all_services env now st)).
Proof.
  unfold check_all_services. case_match; [apply rows_from_refl; apply _|].
  eapply rows_from_trans; [apply _| |apply flush_updates_rows_from].
  match goal with
  | |- context [check_panels env now ?groups ?x] =>
      destruct (check_panels_buffers env now flags_only_raised groups x)
        as (_ & _ & Hr)
  end.
  exact Hr.
Qed.

Lemma check_for_deletion_rows_from env now st :
  rows_from flags_only_raised (db st) (db (check_for_deletion env now st)).
Proof.
  unfold check_for_deletion. cbv zeta.
  set (st1 := foldl (fun acc s => delete_exhausted_service env s acc) st
                (get_services_for_deletion env now (db st))).
  eapply rows_from_trans with (t2 := db st1); [apply _| |].
  - subst st1. apply foldl_rows_from; [apply _|]. intros acc s. rows.
  - apply foldl_rows_from; [apply _|]. intros acc s. rows.
Qed.

(** One iteration of the scheduler, raising or not, resets no flag. *)
Lemma iteration_never_resets_flags it s :
  rows_from flags_only_raised (db (Scheduler.mon s))
    (db (Scheduler.mon (Scheduler.iteration_body it s))).
Proof.
  unfold Scheduler.iteration_body.
  assert (H1 := check_all_services_rows_from (Scheduler.it_env it)
                  (Scheduler.it_now it) (Scheduler.mon s)).
  assert (H2 := check_for_deletion_rows_from (Scheduler.it_env it)
                  (Scheduler.it_now it)
                  (check_all_services (Scheduler.it_env it) (Scheduler.it_now it)
                     (Scheduler.mon s))).
  repeat case_match; cbn [Scheduler.mon];
    first [ apply rows_from_refl; apply _
          | exact H1
          | eapply rows_from_trans; [apply _|exact H1|exact H2] ].
Qed.

(** X19. What the flags achieve when every evaluation is handed the row
    the store holds, as [get_all_active_services] does at the start of each
    cycle. No flag of any row is reset: not in an evaluation, and not in the
    rest of a scheduler iteration (the flush of the buffer and the deletion
    sweep). However often a service is evaluated, each time on the row the
    store holds for it, each of the four flags ([warned_70_percent],
    [warned_100_percent], [warned_one_week], [warned_expired]) gates at most
    one send of the notification it guards; and once the flag is set,
    evaluating again queues no duplicate. *)
Theorem warning_flags_gate_once k f sid evs st :
  guarding_flag k = Some f ->
  filed_by_id st ->
  let st' := evaluations_from_store sid evs st in
  rows_from flags_only_raised (db st) (db st')
  /\ (forall it s,
        rows_from flags_only_raised (db (Scheduler.mon s))
          (db (Scheduler.mon (Scheduler.iteration_body it s))))
  /\ (queued k sid st' <= queued k sid st + 1)%nat
  /\ (flagged f sid st -> queued k sid st' = queued k sid st).
Proof.
  intros Hk Hfiled st'. subst st'.
  split; [apply evaluations_rows_from|].
  split; [apply iteration_never_resets_flags|].
  split; [|by apply evaluations_when_flagged].
  unfold evaluations_from_store. revert st Hfiled.
  induction evs as [|ev evs IH]; intros st Hfiled; cbn [foldl]; [lia|].
  pose proof (evaluate_from_store_filed_by_id sid ev st Hfiled) as Hfiled'.
  specialize (IH _ Hfiled').
  destruct (evaluate_from_store_cases sid ev st) as [[_ Heq]|(r & Hr & Heq)].
  { rewrite Heq in *. exact IH. }
  pose proof (Hfiled _ _ Hr) as Hid.
  set (st1 := evaluate_from_store sid ev st) in *.
  destruct (decide (queued k sid st1 = queued k sid st)) as [Hsame|Hdiff].
  { lia. }
  assert (Hf1 : flagged f sid st1).
  { rewrite Heq, <- Hid in *.
    eapply process_client_traffic_flags_after; [exact Hk|exact Hdiff]. }
  pose proof (evaluations_when_flagged k f sid evs st1 Hk Hfiled' Hf1) as Hstay.
  unfold evaluations_from_store in Hstay. rewrite Hstay.
  rewrite Heq, <- Hid.
  pose proof (process_client_traffic_at_most_one (fst (fst ev)) (snd (fst ev))
                r (snd ev) st k (service_id r)). lia.
Qed.

(** ** Evaluating again on unchanged inputs *)

(** The 70% warning reads its flag from the store. *)
Lemma warning_step_store_flag env s p st r :
  db st !! service_id s = Some r -> warned_70_percent r = true ->
  silent st (warning_step env s p st).
Proof.
  intros Hr Hw. unfold warning_step, silent.
  repeat case_match; try reflexivity.
  rewrite send_70_percent_warning_warned; [reflexivity|].
  unfold Store.get_service_warning_flags. by rewrite Hr.
Qed.

(** C2. The monitor never resets a warning flag: not in an evaluation and
    not in the rest of a scheduler iteration. Three of the four flags keep
    their notification from being queued again whatever service dict the
    evaluator is handed: once the store holds [warned_70_percent],
    [warned_100_percent] or [warned_expired] for a service, no evaluation
    queues the 70% warning, the exhaustion notice or the expiry notice
    about it. The fourth does not: evaluating the plan of the example a
    second time on unchanged inputs, after the first evaluation has queued
    the three-day warning and set [warned_one_week] in the store, queues
    the warning a second time. *)
Theorem unchanged_inputs_repeat_the_three_day_warning :
  (forall env now s c st,
     rows_from flags_only_raised (db st)
       (db (process_client_traffic env now s c st)))
  /\ (forall it s,
        rows_from flags_only_raised (db (Scheduler.mon s))
          (db (Scheduler.mon (Scheduler.iteration_body it s))))
  /\ (forall env now s c st k f r,
        guarding_flag k = Some f -> k <> ThreeDaysToExpiry ->
        db st !! service_id s = Some r -> f r = true ->
        queued k (service_id s) (process_client_traffic env now s c st)
        = queued k (service_id s) st)
  /\ (let s := Examples.plan_unwarned in
      let evaluate :=
        process_client_traffic Examples.env_ok Examples.at_noon s
          Examples.unlimited in
      let st := Examples.monitor_with s in
      queued ThreeDaysToExpiry (service_id s) st = 0%nat
      /\ queued ThreeDaysToExpiry (service_id s) (evaluate st) = 1%nat
      /\ (warned_one_week <$> db (evaluate st) !! service_id s) = Some true
      /\ queued ThreeDaysToExpiry (service_id s) (evaluate (evaluate st)) = 2%nat).
Proof.
  split; [intros; apply process_client_traffic_rows_from; apply _|].
  split; [apply iteration_never_resets_flags|].
  split; [|cbv zeta; repeat split; reflexivity].
  intros env now s c st k f r Hk Hne Hr Hf.
  apply process_client_traffic_queued.
  - intros ->. done.
  - intros ->. injection Hk as <-.
    destruct (three_day_step_rows_kept env now flags_only_raised s st _ _ Hr)
      as (r' & Hr' & _ & _ & _ & Hexp).
    eapply expiry_step_warned; [exact Hr'|auto].
  - intros ->. injection Hk as <-. intros p x Hkept.
    destruct (is_disabled s) eqn:Hd.
    { unfold warning_step, silent. rewrite Hd. cbn [negb].
      rewrite andb_false_r. by destruct (_ && _). }
    destruct (Hkept eq_refl _ _ Hr) as (r' & Hr' & H70 & _).
    eapply warning_step_store_flag; [exact Hr'|auto].
  - intros ->. injection Hk as <-. intros p u g x Hkept.
    destruct (is_disabled s) eqn:Hd; [by apply exhaustion_step_disabled|].
    destruct (Hkept eq_refl _ _ Hr) as (r' & Hr' & _ & H100 & _).
    eapply exhaustion_step_warned; [exact Hr'|auto].
Qed.

Lemma monitor_with_filed_by_id r : filed_by_id (Examples.monitor_with r).
Proof.
  intros sid r' H. unfold Examples.monitor_with in H. cbn [db] in H.
  by apply lookup_singleton_Some in H as [<- <-].
Qed.

(** The plan of the example, evaluated twice from the store on the day the
    three-day warning is due, gets the warning once. *)
Lemma flags_witness :
  guarding_flag ThreeDaysToExpiry = Some warned_one_week
  /\ (queued ThreeDaysToExpiry 2
        (evaluations_from_store 2
           [(Examples.env_ok, Examples.at_noon, Examples.unlimited);
            (Examples.env_ok, Examples.at_noon, Examples.unlimited)]
           (Examples.monitor_with Examples.plan_unwarned))
      <= queued ThreeDaysToExpiry 2 (Examples.monitor_with Examples.plan_unwarned) + 1)%nat.
Proof.
  split; [reflexivity|].
  exact (proj1 (proj2 (proj2 (warning_flags_gate_once ThreeDaysToExpiry warned_one_week 2
                         [(Examples.env_ok, Examples.at_noon, Examples.unlimited);
                          (Examples.env_ok, Examples.at_noon, Examples.unlimited)]
                         (Examples.monitor_with Examples.plan_unwarned)
                         eq_refl
                         (monitor_with_filed_by_id Examples.plan_unwarned))))).
Defined.

(** And it is queued exactly once. *)
Example three_day_warning_queued_once :
  queued ThreeDaysToExpiry 2
    (evaluations_from_store 2
       [(Examples.env_ok, Examples.at_noon, Examples.unlimited);
        (Examples.env_ok, Examples.at_noon, Examples.unlimited)]
       (Examples.monitor_with Examples.plan_unwarned))
  = 1%nat.
Proof. reflexivity. Qed.

(** The second scenario of the specification: the service of 10 GB, now
    seen with 10.5 GB used, is disabled with its anchor and its flag set,
    [disable_client] is called once and one notice is queued. *)
Example scenario_105_percent :
  let st' := process_client_traffic Examples.env_ok Examples.at_noon
               Examples.volume_service Examples.used_105_percent
               (Examples.monitor_with Examples.volume_service) in
  (status <$> db st' !! 1) = Some "disabled"
  /\ (exhausted_at <$> db st' !! 1) = Some (Some Examples.at_noon)
  /\ (warned_100_percent <$> db st' !! 1) = Some true
  /\ panel_calls st' = [DisableClient 1 3 (Some "c0ffee")]
  /\ message_queue st' = [(5001, mk_message TrafficExhausted 1)].
Proof. vm_compute. repeat split. Qed.

(** The overage check works on rounded figures: one byte short of 11 GB on
    a total of 10 GB is below 110% and less than 1 GB over, yet the check
    sees 11.0000 GB and deletes the service. *)
Example overage_of_rounded_figures :
  let c := Examples.used_almost_110_percent in
  ~ spec_breach (resolved_used c) (resolved_total c)
  /\ exceeded_limits
       (Double.percentage
          (Num.usage_percentage (resolved_used c) (resolved_total c)))
       (overage_gb (Num.bytes_to_gb (resolved_used c))
          (Num.bytes_to_gb (resolved_total c)))
     = true
  /\ db (process_client_traffic Examples.env_ok Examples.at_noon
           Examples.disabled_service c
           (Examples.monitor_with Examples.disabled_service)) !! 1
     = None.
Proof.
  cbv zeta. split; [|split; reflexivity].
  intros [H|H]; vm_compute in H; by apply H.
Qed.


(** * Further properties of the monitor *)

(** ** What an evaluation never writes *)

Global Instance evaluation_keeps_preorder : PreOrder evaluation_keeps.
Proof.
  split.
  - intros r. unfold evaluation_keeps. repeat split; auto.
  - intros r1 r2 r3
      (? & ? & ? & ? & ? & ? & ? & ? & ? & ? & ? & Hs1 & ? & ? & Hf1)
      (? & ? & ? & ? & ? & ? & ? & ? & ? & ? & ? & Hs2 & ? & ? & Hf2).
    unfold evaluation_keeps. repeat split; try congruence; auto.
    + destruct Hs2 as [Hs2|Hs2]; [|by right].
      destruct Hs1 as [Hs1|Hs1]; [left|right]; congruence.
    + destruct Hf1 as (? & ? & ? & ?), Hf2 as (? & ? & ? & ?); auto.
    + destruct Hf1 as (? & ? & ? & ?), Hf2 as (? & ? & ? & ?); auto.
    + destruct Hf1 as (? & ? & ? & ?), Hf2 as (? & ? & ? & ?); auto.
    + destruct Hf1 as (? & ? & ? & ?), Hf2 as (? & ? & ? & ?); auto.
Qed.

Ltac writes_stable :=
  solve [ apply writes_stable_status | apply writes_stable_exhausted_at
        | apply writes_stable_expired_at | apply writes_stable_70
        | apply writes_stable_100 | apply writes_stable_one_week
        | apply writes_stable_expired ].

(** Follow the writes of a step back to the table it started from. *)
Ltac writes_chain :=
  lazymatch goal with
  | |- rows_from _ ?t ?t => apply rows_from_refl; apply _
  | |- rows_from _ _ (alter _ _ _) =>
      eapply rows_from_trans;
        [apply _ | | apply rows_from_alter; [apply _ | intros; writes_stable]];
        writes_chain
  | |- rows_from _ _ (delete _ _) =>
      eapply rows_from_trans; [apply _ | | apply rows_from_delete; apply _];
        writes_chain
  end.

Ltac writes := by_cases; unfold_store; writes_chain.

Section Writes.

Variable env : environment.
Variable now : Time.datetime.
Variable R : service -> service -> Prop.
Context `{!WritesStable now R}.

Lemma three_day_step_writes s st :
  rows_from R (db st) (db (three_day_step env now s st)).
Proof. unfold three_day_step. writes. Qed.

Lemma expiry_step_writes s c st :
  rows_from R (db st) (db (expiry_step env now s c st)).
Proof. unfold expiry_step. writes. Qed.

Lemma warning_step_writes s p st :
  rows_from R (db st) (db (warning_step env s p st)).
Proof. unfold warning_step. writes. Qed.

Lemma exhaustion_step_writes s p u g st :
  rows_from R (db st) (db (exhaustion_step env now s p u g st)).
Proof. unfold exhaustion_step. writes. Qed.

Lemma process_client_traffic_writes s c st :
  rows_from R (db st) (db (process_client_traffic env now s c st)).
Proof.
  rewrite process_client_traffic_steps. cbv zeta.
  assert (H0 : rows_from R (db st)
                 (db match product_id s with
                     | Some _ => expiry_step env now s (Some c)
                                   (three_day_step env now s st)
                     | None => st
                     end)).
  { destruct (product_id s); [|apply rows_from_refl; apply _].
    eapply rows_from_trans;
      [apply _|apply three_day_step_writes|apply expiry_step_writes]. }
  destruct (resolved_total c <=? 0); [exact H0|].
  eapply rows_from_trans; [apply _| |apply exhaustion_step_writes].
  eapply rows_from_trans; [apply _| |apply warning_step_writes].
  exact H0.
Qed.

Lemma check_for_deletion_writes st :
  rows_from R (db st) (db (check_for_deletion env now st)).
Proof.
  unfold check_for_deletion. cbv zeta.
  set (st1 := foldl (fun acc s => delete_exhausted_service env s acc) st
                (get_services_for_deletion env now (db st))).
  eapply rows_from_trans with (t2 := db st1); [apply _| |].
  - subst st1. apply foldl_rows_from; [apply _|]. intros acc s. writes.
  - apply foldl_rows_from; [apply _|]. intros acc s. writes.
Qed.

End Writes.

Global Instance evaluation_keeps_writes_stable now :
  WritesStable now evaluation_keeps.
Proof.
  split; [apply _|..]; intros r; unfold evaluation_keeps;
    repeat split; cbn; auto.
Qed.

(** X1. An evaluation, and the deletion sweep, write nothing in a row but
    what the lifecycle needs: whatever row the store still holds afterwards
    has the identity, plan, quota, usage counter and [is_active] it had;
    its status is what it was or "disabled" (a service is never set back to
    active); and an anchor or warning flag that was set is still set. *)
Theorem evaluation_writes_only_lifecycle_fields env now s c st :
  rows_from evaluation_keeps (db st) (db (process_client_traffic env now s c st))
  /\ rows_from evaluation_keeps (db st) (db (check_for_deletion env now st)).
Proof.
  split.
  - apply (process_client_traffic_writes env now evaluation_keeps).
  - apply (check_for_deletion_writes env now evaluation_keeps).
Qed.

(** ** Expiry of a plan *)

Lemma days_not_positive d : d <= 0 -> (0 <? Time.days d) = false.
Proof.
  intros Hd. apply Z.ltb_ge. unfold Time.days.
  apply Z.div_le_upper_bound; [reflexivity|]. lia.
Qed.

Section Expiry.

Variable env : environment.
Variable now : Time.datetime.

(** A plan whose expiry has been reached gets no three-day warning. *)
Lemma three_day_step_expired s st exp :
  expires_at s = Some exp -> exp <= now -> three_day_step env now s st = st.
Proof.
  intros He Hle. unfold three_day_step. rewrite He.
  rewrite (days_not_positive (exp - now)) by lia.
  by rewrite andb_false_r.
Qed.

(** What [handle_plan_expiration] does when the panel disables the client,
    the owner is known and the row is not yet flagged. *)
Lemma handle_plan_expiration_done s st pm u r :
  get_panel_manager env (panel_id s) = Some pm ->
  login pm = true ->
  disable_client pm (inbound_id s) (client_uuid s) = true ->
  get_user_by_id env (user_id s) = Some u ->
  db st !! service_id s = Some r ->
  warned_expired r = false ->
  let st' := handle_plan_expiration env now s st in
  db st' !! service_id s
  = Some (Store.set_warned_expired true
            (Store.set_expired_at (Some now) (Store.set_status "disabled" r)))
  /\ message_queue st'
     = message_queue st ++ [(telegram_id u, mk_message PlanExpired (service_id s))]
  /\ panel_calls st'
     = panel_calls st ++ [DisableClient (panel_id s) (inbound_id s) (client_uuid s)].
Proof.
  intros Hpm Hlogin Hdis Hu Hr Hw st'. subst st'.
  unfold handle_plan_expiration. rewrite Hpm, Hlogin, Hdis.
  unfold send_plan_expiration_notification. rewrite Hu.
  unfold Store.get_service_warning_flags. mon_simpl. unfold_store.
  rewrite !lookup_alter_eq, Hr. cbn [fmap option_fmap option_map].
  cbn [Store.set_expired_at Store.set_status warned_70_percent
       warned_100_percent warned_one_week warned_expired flag_expired].
  rewrite Hw. unfold report_to_channel.
  destruct (reporting_system env); mon_simpl;
    rewrite !lookup_alter_eq, Hr; done.
Qed.

End Expiry.

(** X2. The expiry check on a plan whose [expires_at] has been reached:
    when the service is handed over as the store holds it, is not disabled
    and not yet flagged, the panel disables the client and the owner is
    known, the row becomes disabled with the expiry anchor set to the time
    of the check and [warned_expired] set, the exhaustion anchor and
    [is_active] are as they were, [disable_client] is called once, and
    exactly one expiration notice and no three-day warning is queued. *)
Theorem plan_expiry_disables_and_notifies env now s c st pm u exp :
  db st !! service_id s = Some s ->
  expires_at s = Some exp ->
  truthy (product_id s) = true ->
  exp <= now ->
  is_disabled s = false ->
  warned_expired s = false ->
  get_panel_manager env (panel_id s) = Some pm ->
  login pm = true ->
  disable_client pm (inbound_id s) (client_uuid s) = true ->
  get_user_by_id env (user_id s) = Some u ->
  let st' := check_plan_expiration env now s c st in
  (exists r', db st' !! service_id s = Some r'
              /\ status r' = "disabled"
              /\ expired_at r' = Some now
              /\ warned_expired r' = true
              /\ exhausted_at r' = exhausted_at s
              /\ is_active r' = is_active s)
  /\ panel_calls st'
     = panel_calls st ++ [DisableClient (panel_id s) (inbound_id s) (client_uuid s)]
  /\ queued PlanExpired (service_id s) st' = S (queued PlanExpired (service_id s) st)
  /\ queued ThreeDaysToExpiry (service_id s) st'
     = queued ThreeDaysToExpiry (service_id s) st.
Proof.
  intros Hrow Hexp Hprod Hle Hd Hw Hpm Hlogin Hdis Hu st'.
  assert (Hst' : st' = handle_plan_expiration env now s st).
  { subst st'. rewrite check_plan_expiration_steps.
    rewrite (three_day_step_expired env now s st exp Hexp Hle).
    unfold expiry_step. rewrite Hexp, Hprod, Hd.
    by rewrite (proj2 (Z.leb_le exp now) Hle). }
  destruct (handle_plan_expiration_done env now s st pm u s
              Hpm Hlogin Hdis Hu Hrow Hw) as (Hdb & Hq & Hp).
  rewrite <- Hst' in Hdb, Hq, Hp.
  split; [|split; [exact Hp|split]].
  - eexists. split; [exact Hdb|]. done.
  - unfold queued. rewrite Hq, occurrences_app, occurrences_one.
    rewrite decide_True by done. lia.
  - unfold queued. rewrite Hq, occurrences_app, occurrences_one.
    rewrite decide_False by (intros [? _]; discriminate). lia.
Qed.

(** ** A panel that does not disable *)

(** X3. When the panel of a service cannot be reached or does not disable
    the client, neither [handle_traffic_exhausted] nor
    [handle_plan_expiration] marks anything: the store, the dispatcher's
    queue and the channel reports are as they were, so the service is
    tried again in the next cycle. *)
Theorem failed_disable_marks_nothing env now s st :
  panel_disables env s = false ->
  (db (handle_traffic_exhausted env now s st) = db st
   /\ message_queue (handle_traffic_exhausted env now s st) = message_queue st
   /\ reports (handle_traffic_exhausted env now s st) = reports st)
  /\ (db (handle_plan_expiration env now s st) = db st
      /\ message_queue (handle_plan_expiration env now s st) = message_queue st
      /\ reports (handle_plan_expiration env now s st) = reports st).
Proof.
  unfold panel_disables, handle_traffic_exhausted, handle_plan_expiration.
  intros H. destruct (get_panel_manager env (panel_id s)) as [pm|].
  - destruct (login pm); cbn [andb] in H.
    + rewrite H. by destruct (is_disabled s).
    + by destruct (is_disabled s).
  - by destruct (is_disabled s).
Qed.

(** ** Numbers and windows *)

Lemma remaining_days_window d :
  (Time.days d <=? 3) && (0 <? Time.days d) = true
  <-> Time.MICROS_PER_DAY <= d < 4 * Time.MICROS_PER_DAY.
Proof.
  unfold Time.days. rewrite andb_true_iff, Z.leb_le, Z.ltb_lt.
  assert (HD : Time.MICROS_PER_DAY = 86400000000) by reflexivity.
  rewrite HD.
  pose proof (Z.div_mod d 86400000000 ltac:(lia)) as Hdm.
  pose proof (Z.mod_pos_bound d 86400000000 ltac:(lia)) as Hb.
  lia.
Qed.

Lemma usage_percentage_ge p used total :
  0 < total ->
  (inject_Z p <= Num.usage_percentage used total)%Q <-> p * total <= 100 * used.
Proof.
  intros Ht. unfold Num.usage_percentage.
  rewrite (proj2 (Z.ltb_lt 0 total) Ht).
  destruct total as [|t|t]; try lia.
  unfold Qle, Qdiv, Qmult, Qinv, inject_Z. cbn.
  rewrite ?Z.mul_1_r, ?Pos.mul_1_r. lia.
Qed.

Lemma round_half_even_near x :
  (x - (1 # 2) <= inject_Z (Num.round_half_even x) <= x + (1 # 2))%Q.
Proof.
  destruct x as [n d]. unfold Num.round_half_even. cbn [Qnum Qden].
  pose proof (Z.div_mod n (Z.pos d) ltac:(lia)) as Hdm.
  pose proof (Z.mod_pos_bound n (Z.pos d) ltac:(lia)) as Hb.
  set (f := n / Z.pos d) in *. set (r := n mod Z.pos d) in *.
  destruct (Z.compare_spec (2 * r) (Z.pos d)) as [He|Hl|Hg];
    [destruct (Z.even f)| |];
    unfold Qle, Qplus, Qminus, Qopp, inject_Z; cbn; nia.
Qed.

Lemma round4_near x :
  (x - (1 # 20000) <= Num.round4 x <= x + (1 # 20000))%Q.
Proof.
  unfold Num.round4.
  pose proof (round_half_even_near (x * inject_Z 10000)) as H.
  change (inject_Z 10000) with (10000 # 1)%Q in *.
  unfold Qdiv. change (/ (10000 # 1))%Q with (1 # 10000)%Q. lra.
Qed.

Lemma round_half_even_not_negative x :
  (0 <= x)%Q -> 0 <= Num.round_half_even x.
Proof.
  intros Hx. pose proof (round_half_even_near x) as [H _].
  assert (H' : (- (1 # 2) <= inject_Z (Num.round_half_even x))%Q) by lra.
  unfold Qle, inject_Z in H'. cbn in H'. lia.
Qed.

(** On a tie the even neighbour is taken. *)
Lemma round_half_even_tie x :
  (inject_Z (Num.round_half_even x) == x + (1 # 2)
   \/ inject_Z (Num.round_half_even x) == x - (1 # 2))%Q ->
  Z.even (Num.round_half_even x) = true.
Proof.
  destruct x as [n d]. unfold Num.round_half_even. cbn [Qnum Qden].
  pose proof (Z.div_mod n (Z.pos d) ltac:(lia)) as Hdm.
  pose proof (Z.mod_pos_bound n (Z.pos d) ltac:(lia)) as Hb.
  set (f := n / Z.pos d) in *. set (r := n mod Z.pos d) in *.
  unfold Qeq, Qplus, Qminus, Qopp, inject_Z. cbn.
  destruct (Z.compare_spec (2 * r) (Z.pos d)) as [He|Hl|Hg].
  - intros _. destruct (Z.even f) eqn:Hf; [done|].
    rewrite Z.even_add, Hf. done.
  - intros [H|H]; exfalso; nia.
  - intros [H|H]; exfalso; nia.
Qed.

Lemma round_half_even_monotone x y :
  (x <= y)%Q -> Num.round_half_even x <= Num.round_half_even y.
Proof.
  intros Hxy.
  pose proof (round_half_even_near x) as [Hx1 Hx2].
  pose proof (round_half_even_near y) as [Hy1 Hy2].
  pose proof (round_half_even_tie x) as Hxt.
  pose proof (round_half_even_tie y) as Hyt.
  set (a := Num.round_half_even x) in *. set (b := Num.round_half_even y) in *.
  destruct (Z_le_gt_dec a b) as [|Hgt]; [done|exfalso].
  assert (Hab : (inject_Z (b + 1) <= inject_Z a)%Q)
    by (rewrite <- Zle_Qle; lia).
  rewrite inject_Z_plus in Hab. change (inject_Z 1) with 1%Q in Hab.
  assert (Ha : (inject_Z a == x + (1 # 2))%Q) by lra.
  assert (Hb : (inject_Z b == y - (1 # 2))%Q) by lra.
  assert (Hab' : a = b + 1).
  { apply inject_Z_injective. rewrite inject_Z_plus.
    change (inject_Z 1) with 1%Q. lra. }
  specialize (Hxt (or_introl Ha)). specialize (Hyt (or_intror Hb)).
  rewrite Hab', Z.even_add, Hyt in Hxt. done.
Qed.

Lemma bytes_to_gb_not_negative b : (0 <= Num.bytes_to_gb b)%Q.
Proof.
  unfold Num.bytes_to_gb. destruct (0 <? b) eqn:Hb; [|lra].
  apply Z.ltb_lt in Hb. unfold Num.round4.
  assert (Hq : (0 <= inject_Z b / inject_Z Num.GIB * inject_Z 10000)%Q).
  { change (inject_Z Num.GIB) with (1073741824 # 1)%Q.
    change (inject_Z 10000) with (10000 # 1)%Q.
    unfold Qdiv. change (/ (1073741824 # 1))%Q with (1 # 1073741824)%Q.
    assert (0 <= inject_Z b)%Q by (unfold Qle, inject_Z; cbn; lia). lra. }
  pose proof (round_half_even_not_negative _ Hq) as Hr.
  rewrite (Zle_Qle 0) in Hr. change (inject_Z 0) with 0%Q in Hr.
  set (z := inject_Z (Num.round_half_even _)) in *.
  change (inject_Z 10000) with (10000 # 1)%Q.
  unfold Qdiv. change (/ (10000 # 1))%Q with (1 # 10000)%Q. lra.
Qed.

(** X4. The GB figure the monitor stages and reports is the byte counter
    divided by 2^30 and rounded to four decimals: it is never negative, it
    is zero for a counter that is zero or negative, and for a positive
    counter it is within 0.00005 GB of the exact quotient. *)
Theorem bytes_to_gb_accuracy b :
  (0 <= Num.bytes_to_gb b)%Q
  /\ (b <= 0 -> Num.bytes_to_gb b = 0%Q)
  /\ (0 < b ->
      (inject_Z b / inject_Z Num.GIB - (1 # 20000) <= Num.bytes_to_gb b
       <= inject_Z b / inject_Z Num.GIB + (1 # 20000))%Q).
Proof.
  split; [apply bytes_to_gb_not_negative|].
  unfold Num.bytes_to_gb. destruct (0 <? b) eqn:Hb.
  - apply Z.ltb_lt in Hb. split; [lia|intros _; apply round4_near].
  - apply Z.ltb_ge in Hb. split; [done|lia].
Qed.

(** X18. The GB figure never goes down when the byte counter goes up:
    rounding to four decimals keeps the order of the counters. *)
Theorem bytes_to_gb_monotone b1 b2 :
  b1 <= b2 -> (Num.bytes_to_gb b1 <= Num.bytes_to_gb b2)%Q.
Proof.
  intros Hle. pose proof (bytes_to_gb_not_negative b2) as H2.
  unfold Num.bytes_to_gb in *.
  destruct (0 <? b1) eqn:Hb1; [|done].
  apply Z.ltb_lt in Hb1. rewrite (proj2 (Z.ltb_lt 0 b2)) by lia.
  unfold Num.round4.
  assert (Hq : (inject_Z b1 / inject_Z Num.GIB * inject_Z 10000
                <= inject_Z b2 / inject_Z Num.GIB * inject_Z 10000)%Q).
  { change (inject_Z Num.GIB) with (1073741824 # 1)%Q.
    change (inject_Z 10000) with (10000 # 1)%Q.
    unfold Qdiv. change (/ (1073741824 # 1))%Q with (1 # 1073741824)%Q.
    assert (inject_Z b1 <= inject_Z b2)%Q by (by rewrite <- Zle_Qle). lra. }
  pose proof (round_half_even_monotone _ _ Hq) as Hr.
  rewrite Zle_Qle in Hr.
  set (z1 := inject_Z (Num.round_half_even (inject_Z b1 / _ * _))) in *.
  set (z2 := inject_Z (Num.round_half_even (inject_Z b2 / _ * _))) in *.
  clearbody z1 z2. clear H2 Hq.
  change (inject_Z 10000) with (10000 # 1)%Q.
  unfold Qdiv. change (/ (10000 # 1))%Q with (1 # 10000)%Q. lra.
Qed.

(** X6. The "three days" warning goes out when at least one whole day and
    less than four whole days are left ([0 < timedelta.days <= 3]): for a
    plan handed over as the store holds it and not yet warned, the check
    then sets [warned_one_week], whether or not the owner is known, and
    queues the warning for an owner who is; with less than 24 hours or with
    four days or more to go it queues no such warning. *)
Theorem three_day_warning_window env now s c st exp :
  db st !! service_id s = Some s ->
  expires_at s = Some exp ->
  truthy (product_id s) = true ->
  warned_one_week s = false ->
  let st' := check_plan_expiration env now s c st in
  (Time.MICROS_PER_DAY <= exp - now < 4 * Time.MICROS_PER_DAY ->
   db st' !! service_id s = Some (Store.set_warned_one_week true s)
   /\ message_queue st'
      = message_queue st
          ++ match get_user_by_id env (user_id s) with
             | Some u => [(telegram_id u, mk_message ThreeDaysToExpiry (service_id s))]
             | None => []
             end)
  /\ (exp - now < Time.MICROS_PER_DAY \/ 4 * Time.MICROS_PER_DAY <= exp - now ->
      queued ThreeDaysToExpiry (service_id s) st'
      = queued ThreeDaysToExpiry (service_id s) st).
Proof.
  intros Hrow Hexp Hprod Hw st'. subst st'.
  rewrite check_plan_expiration_steps. split.
  - intros Hwin.
    assert (Hnot : (exp <=? now) = false).
    { apply Z.leb_gt. assert (0 < Time.MICROS_PER_DAY) by reflexivity. lia. }
    unfold expiry_step. rewrite Hexp, Hprod, Hnot. cbn [andb].
    unfold three_day_step. rewrite Hexp, Hprod, Hw.
    apply remaining_days_window in Hwin.
    apply andb_true_iff in Hwin as [H3 H0]. rewrite H3, H0. cbn [andb negb].
    unfold send_three_days_expiration_warning, report_to_channel.
    destruct (get_user_by_id env (user_id s)) as [u|];
      [destruct (reporting_system env)|]; mon_simpl; unfold_store;
      rewrite lookup_alter_eq, Hrow, ?app_nil_r; done.
  - intros Hout.
    assert (H3 : three_day_step env now s st = st).
    { unfold three_day_step. rewrite Hexp, Hprod, Hw. cbn [andb negb].
      destruct ((Time.days (exp - now) <=? 3) && (0 <? Time.days (exp - now)))
        eqn:Hwin; [|by rewrite andb_false_l || reflexivity].
      apply remaining_days_window in Hwin. lia. }
    rewrite H3.
    eapply emits_other; [apply expiry_step_emits|]. intros [? _]; discriminate.
Qed.

(** ** Deletion *)

Section Deletion.

Variable env : environment.

(** What a deletion path does, whatever its notice and its report are. *)
Lemma deletion_path k rep s st :
  let st' :=
    if deletion_interrupted env s then delete_from_panel env s st
    else notify_deleted env k rep s
           (with_db (Store.delete_service (service_id s))
              (delete_from_panel env s st)) in
  db st' = (if deletion_interrupted env s then db st
            else delete (service_id s) (db st))
  /\ panel_calls st'
     = panel_calls st
         ++ (if panel_reachable env s
             then [DeleteClient (panel_id s) (inbound_id s) (client_uuid s)]
             else [])
  /\ reports st'
     = reports st
         ++ (if negb (deletion_interrupted env s)
                && notice_delivered env k s && rep
             then [ReportAutoDeleted (service_id s)] else [])
  /\ pending_updates st' = pending_updates st
  /\ bulk_calls st' = bulk_calls st.
Proof.
  unfold notify_deleted, delete_from_panel, panel_reachable, notice_delivered,
    deletion_interrupted, Store.delete_service.
  repeat case_match; mon_simpl; simplify_eq/=;
    rewrite ?app_nil_r; repeat split; try reflexivity; try congruence.
Qed.

Lemma without_rows_lookup l t sid :
  without_rows l t !! sid
  = if decide (sid ∈ service_id <$> l) then None else t !! sid.
Proof.
  unfold without_rows. revert t.
  induction l as [|s l IH]; intros t; cbn [foldl fmap list_fmap].
  - rewrite decide_False; [done|]. apply not_elem_of_nil.
  - rewrite IH. destruct (decide (sid = service_id s)) as [->|Hne].
    + rewrite lookup_delete_eq. rewrite (decide_True (P := _ ∈ _ :: _));
        [by case_decide|]. apply elem_of_cons. by left.
    + rewrite lookup_delete_ne by done.
      repeat case_decide; try done.
      * exfalso. match goal with H : ¬ _ |- _ => apply H end.
        apply elem_of_cons. by right.
      * exfalso.
        match goal with H : _ ∈ _ :: _ |- _ => apply elem_of_cons in H as [?|?] end;
          done.
Qed.

Lemma completed_cons s l :
  completed env (s :: l)
  = if deletion_interrupted env s then completed env l else s :: completed env l.
Proof.
  unfold completed. rewrite filter_cons.
  destruct (deletion_interrupted env s); by case_decide.
Qed.

Lemma sweep_phase (f : service -> monitor -> monitor) l st :
  (forall s acc, db (f s acc) = (if deletion_interrupted env s then db acc
                                 else delete (service_id s) (db acc))
                 /\ message_queue (f s acc) = message_queue acc
                 /\ pending_updates (f s acc) = pending_updates acc
                 /\ bulk_calls (f s acc) = bulk_calls acc) ->
  let st' := foldl (fun acc s => f s acc) st l in
  db st' = without_rows (completed env l) (db st)
  /\ message_queue st' = message_queue st
  /\ pending_updates st' = pending_updates st
  /\ bulk_calls st' = bulk_calls st.
Proof.
  intros Hf. revert st.
  induction l as [|s l IH]; intros st; cbn [foldl]; [done|].
  destruct (Hf s st) as (Hd & Hq & Hp & Hb).
  destruct (IH (f s st)) as (IHd & IHq & IHp & IHb). cbv zeta in *.
  rewrite IHd, IHq, IHp, IHb, Hd, Hq, Hp, Hb, completed_cons.
  by destruct (deletion_interrupted env s).
Qed.

End Deletion.


(** X8. The deletion sweep only deletes, whatever the two queries of the
    store return: afterwards the store holds the rows it held, without
    those of the services the first query returned and without those the
    second query returned on the table the first phase left, a service
    whose deletion was cut short by a raising panel call apart; every row
    that remains is unchanged. The sweep puts nothing on the dispatcher's
    queue and stages nothing. *)
Theorem sweep_only_deletes env now st :
  let exhausted := completed env (get_services_for_deletion env now (db st)) in
  let expired :=
    completed env
      (get_expired_plan_services_for_deletion env now
         (without_rows exhausted (db st))) in
  let st' := check_for_deletion env now st in
  db st' = without_rows expired (without_rows exhausted (db st))
  /\ (forall s, s ∈ exhausted \/ s ∈ expired -> db st' !! service_id s = None)
  /\ (forall sid r, db st' !! sid = Some r -> db st !! sid = Some r)
  /\ message_queue st' = message_queue st
  /\ pending_updates st' = pending_updates st.
Proof.
  cbv zeta. unfold check_for_deletion.
  set (asked := get_services_for_deletion env now (db st)).
  set (exhausted := completed env asked).
  assert (Hf1 : forall s acc,
             db (delete_exhausted_service env s acc)
             = (if deletion_interrupted env s then db acc
                else delete (service_id s) (db acc))
             /\ message_queue (delete_exhausted_service env s acc) = message_queue acc
             /\ pending_updates (delete_exhausted_service env s acc) = pending_updates acc
             /\ bulk_calls (delete_exhausted_service env s acc) = bulk_calls acc).
  { intros s acc.
    destruct (deletion_path env DeletedAfterGrace (reporting_system env) s acc)
      as (? & _ & _ & ? & ?).
    repeat split; try done. apply delete_exhausted_service_silent. }
  assert (Hf2 : forall s acc,
             db (delete_expired_plan_service env s acc)
             = (if deletion_interrupted env s then db acc
                else delete (service_id s) (db acc))
             /\ message_queue (delete_expired_plan_service env s acc) = message_queue acc
             /\ pending_updates (delete_expired_plan_service env s acc) = pending_updates acc
             /\ bulk_calls (delete_expired_plan_service env s acc) = bulk_calls acc).
  { intros s acc.
    destruct (deletion_path env DeletedExpiredPlan (bot_reporting_system env) s acc)
      as (? & _ & _ & ? & ?).
    repeat split; try done. apply delete_expired_plan_service_silent. }
  destruct (sweep_phase env (delete_exhausted_service env) asked st Hf1)
    as (Hd1 & Hq1 & Hp1 & _).
  cbv zeta in *. fold exhausted in Hd1.
  set (st1 := foldl (fun acc s => delete_exhausted_service env s acc) st asked) in *.
  destruct (sweep_phase env (delete_expired_plan_service env)
              (get_expired_plan_services_for_deletion env now (db st1)) st1 Hf2)
    as (Hd2 & Hq2 & Hp2 & _).
  cbv zeta in *. rewrite Hd1 in Hd2, Hq2, Hp2 |- *.
  set (expired := completed env
                    (get_expired_plan_services_for_deletion env now
                       (without_rows exhausted (db st)))) in *.
  split; [exact Hd2|]. split; [|split; [|split; [congruence|congruence]]].
  - intros s Hs. rewrite Hd2, !without_rows_lookup.
    destruct Hs as [Hs|Hs].
    + case_decide; [done|]. rewrite decide_True; [done|].
      by apply list_elem_of_fmap_2.
    + rewrite decide_True; [done|]. by apply list_elem_of_fmap_2.
  - intros sid r Hr. rewrite Hd2, !without_rows_lookup in Hr.
    by repeat case_decide.
Qed.

(** ** The scheduler's loop *)

Lemma stopped_scheduler_runs_nothing its s :
  Scheduler.monitoring s = false -> Scheduler.run its s = s.
Proof. intros H. destruct its; cbn; [done|]. by rewrite H. Qed.

(** X9. Stopping is cooperative. The iteration during which
    [stop_monitoring] is called runs to its end, with both passes and its
    sleep, and is the last one: whatever iterations would follow are not
    run. A loop whose flag is already cleared runs nothing at all. *)
Theorem stop_is_cooperative it rest s :
  Scheduler.monitoring s = true ->
  Scheduler.it_stop it = true ->
  Scheduler.run (it :: rest) s
  = Scheduler.stop_monitoring (Scheduler.iteration_body it s)
  /\ Scheduler.trace (Scheduler.run (it :: rest) s)
     = Scheduler.trace (Scheduler.iteration_body it s)
  /\ length (Scheduler.sleeps (Scheduler.trace (Scheduler.run (it :: rest) s)))
     = S (length (Scheduler.sleeps (Scheduler.trace s)))
  /\ (forall its s0, Scheduler.monitoring s0 = false -> Scheduler.run its s0 = s0).
Proof.
  intros Hm Hstop.
  assert (Hrun : Scheduler.run (it :: rest) s
                 = Scheduler.stop_monitoring (Scheduler.iteration_body it s)).
  { cbn [Scheduler.run]. rewrite Hm, Hstop.
    by apply stopped_scheduler_runs_nothing. }
  rewrite Hrun. split; [done|]. split; [done|]. split.
  - cbn [Scheduler.stop_monitoring Scheduler.trace].
    apply SchedulerFacts.iteration_body_sleeps_once.
  - apply stopped_scheduler_runs_nothing.
Qed.

(** X10. Every iteration, raising or not and whatever duration it
    measures, ends in exactly one sleep, and that sleep is longer than zero,
    so the loop never spins; when the measured duration is not negative the
    sleep is at most the interval of 180 seconds. *)
Theorem every_iteration_sleeps it s :
  exists q,
    Scheduler.sleeps (Scheduler.trace (Scheduler.iteration_body it s))
    = Scheduler.sleeps (Scheduler.trace s) ++ [q]
    /\ (0 < q)%Q
    /\ ((0 <= Scheduler.it_duration it)%Q -> (q <= 180)%Q).
Proof.
  unfold Scheduler.iteration_body, Scheduler.on_error.
  destruct (Scheduler.it_raises it) as [[| |]|]; cbn [Scheduler.trace];
    rewrite !SchedulerFacts.sleeps_app;
    try (exists 60%Q; cbn; rewrite ?app_nil_r;
         split; [reflexivity|split; [lra|intros _; lra]]).
  unfold Scheduler.end_of_cycle, Scheduler.wait_time, Num.max.
  destruct (Num.Qgtb (180 - Scheduler.it_duration it) 0) eqn:E.
  - rewrite E. apply Qgtb_true in E.
    exists (180 - Scheduler.it_duration it)%Q. cbn.
    split; [reflexivity|split; [lra|intros Hd; lra]].
  - assert (E0 : Num.Qgtb 0 0 = false) by reflexivity. rewrite E0.
    exists 0.1%Q. cbn. split; [reflexivity|split; [lra|intros _; lra]].
Qed.

(** ** The dispatcher's sends *)

Lemma fresh_in_sequence q t0 : in_sequence (fresh_worker q t0).
Proof.
  split; cbn.
  - intros a H. by apply elem_of_nil in H.
  - intros i j a b _ H. by rewrite lookup_nil in H.
Qed.

Lemma step_in_sequence t w :
  Dispatcher.tick_ok t -> in_sequence w -> in_sequence (Dispatcher.step t w).
Proof.
  intros (Hidle & Hover & Hdur) [Hover_ Hturn]. unfold Dispatcher.step.
  destruct (Dispatcher.monitoring w); cbn [negb]; [|by split].
  destruct (Dispatcher.queue w ++ Dispatcher.arrivals t) as [|[chat m] rest] eqn:Hq.
  { split; cbn; [|done]. intros a Ha. destruct (Hover_ a Ha). split; lra. }
  set (now := (Dispatcher.clock w + Dispatcher.idle t)%Q).
  set (last := default 0%Q (Dispatcher.last_message_time w !! chat)).
  destruct (DispatcherFacts.started_after_last now last (Dispatcher.oversleep t) Hover)
    as [_ Hnow].
  cbv zeta in Hnow.
  set (started := if Num.Qltb (now - last) Dispatcher.min_message_interval
                  then (now + (Dispatcher.min_message_interval - (now - last))
                        + Dispatcher.oversleep t)%Q
                  else now) in *.
  split; cbn.
  - intros a Ha. apply elem_of_app in Ha as [Ha|Ha].
    + destruct (Hover_ a Ha). subst now. split; lra.
    + apply list_elem_of_singleton in Ha as ->. cbn. split; lra.
  - intros i j a b Hij Ha Hb.
    destruct (decide (j < length (Dispatcher.sent w))%nat) as [Hj|Hj].
    + rewrite lookup_app_l in Ha by lia. rewrite lookup_app_l in Hb by lia. eauto.
    + assert (Hjl : j = length (Dispatcher.sent w)).
      { apply lookup_lt_Some in Hb. rewrite length_app in Hb. cbn in Hb. lia. }
      subst j. rewrite lookup_app_l in Ha by lia.
      rewrite lookup_app_r, Nat.sub_diag in Hb by lia.
      cbn in Hb. injection Hb as <-. cbn.
      destruct (Hover_ a) as [_ Hc]; [by eapply list_elem_of_lookup_2|].
      subst now. lra.
Qed.

Lemma run_in_sequence ts w :
  Forall Dispatcher.tick_ok ts -> in_sequence w ->
  in_sequence (Dispatcher.run ts w).
Proof.
  unfold Dispatcher.run. intros Hts. revert w.
  induction Hts as [|t ts Ht _ IH]; intros w Hw; cbn; [done|].
  by apply IH, step_in_sequence.
Qed.

(** X11. The worker sends one message at a time: each send is over before
    the next one starts, whoever the recipients are, so no two sends are
    ever in flight together and the times of the sends never go back. *)
Theorem dispatcher_sends_one_at_a_time q t0 ts :
  Forall Dispatcher.tick_ok ts ->
  let w' := Dispatcher.run ts (fresh_worker q t0) in
  forall i j a b,
    (i < j)%nat ->
    Dispatcher.sent w' !! i = Some a ->
    Dispatcher.sent w' !! j = Some b ->
    (Dispatcher.send_started a <= Dispatcher.send_finished a)%Q
    /\ (Dispatcher.send_finished a <= Dispatcher.send_started b)%Q
    /\ (Dispatcher.send_started b <= Dispatcher.send_finished b)%Q.
Proof.
  intros Hts w' i j a b Hij Ha Hb.
  destruct (run_in_sequence ts (fresh_worker q t0) Hts (fresh_in_sequence q t0))
    as [Hover Hturn].
  fold w' in Hover, Hturn.
  destruct (Hover a (list_elem_of_lookup_2 _ _ _ Ha)).
  destruct (Hover b (list_elem_of_lookup_2 _ _ _ Hb)).
  split; [done|]. split; [by eapply Hturn|done].
Qed.

(** ** Which client details an evaluation uses *)


(** ** Grouping the services by panel *)

Lemma services_of_panel_snoc p seen s :
  services_of_panel p (seen ++ [s])
  = services_of_panel p seen ++ (if decide (panel_id s = p) then [s] else []).
Proof.
  unfold services_of_panel. rewrite filter_app. by f_equal.
Qed.

(** [add_to_panel] appends to the group of the panel, or opens a new group
    at the end. *)
Lemma add_to_panel_spec p s groups :
  NoDup (fst <$> groups) ->
  add_to_panel p s groups
  = if decide (p ∈ fst <$> groups)
    then (fun g => if fst g =? p then (fst g, snd g ++ [s]) else g) <$> groups
    else groups ++ [(p, [s])].
Proof.
  induction groups as [|[q l] groups IH]; intros Hnd; cbn [add_to_panel].
  - rewrite decide_False; [done|]. cbn. apply not_elem_of_nil.
  - cbn [fmap list_fmap fst] in Hnd. apply NoDup_cons in Hnd as [Hq Hnd].
    destruct (Z.eqb_spec p q) as [->|Hne].
    + rewrite decide_True by (cbn; apply elem_of_cons; by left).
      cbn [fmap list_fmap fst snd]. rewrite Z.eqb_refl. f_equal.
      clear IH. induction groups as [|[q' l'] groups IH']; [done|].
      cbn [fmap list_fmap fst snd] in *.
      apply not_elem_of_cons in Hq as [Hqq Hq]. apply NoDup_cons in Hnd as [_ Hnd].
      rewrite (proj2 (Z.eqb_neq q' q)) by done. f_equal. by apply IH'.
    + rewrite IH by done. cbn [fmap list_fmap fst snd].
      rewrite (proj2 (Z.eqb_neq q p)) by done.
      destruct (decide (p ∈ fst <$> groups)) as [Hin|Hnin].
      * rewrite decide_True; [done|]. apply elem_of_cons. by right.
      * rewrite decide_False; [done|].
        intros [?|?]%elem_of_cons; done.
Qed.

Lemma grouped_step seen groups s :
  grouped seen groups ->
  grouped (seen ++ [s])
    (if panel_id s =? 0 then groups else add_to_panel (panel_id s) s groups).
Proof.
  intros (Hnd & Hgroups & Hseen).
  destruct (Z.eqb_spec (panel_id s) 0) as [H0|H0].
  { split; [done|]. split.
    - intros p l Hin. destruct (Hgroups p l Hin) as (Hp & Hl & ->).
      repeat split; try done. rewrite services_of_panel_snoc.
      rewrite decide_False by congruence. by rewrite app_nil_r.
    - intros s' [Hs'|Hs']%elem_of_app Hp; [by apply Hseen|].
      apply list_elem_of_singleton in Hs' as ->. done. }
  rewrite add_to_panel_spec by done.
  destruct (decide (panel_id s ∈ fst <$> groups)) as [Hin|Hnin].
  - split; [|split].
    + rewrite <- list_fmap_compose.
      erewrite list_fmap_ext; [exact Hnd|]. intros i [q l] _. cbn.
      by destruct (q =? panel_id s).
    + intros p l Hpl. apply list_elem_of_fmap in Hpl as ([q l0] & Heq & Hq).
      destruct (Hgroups q l0 Hq) as (Hq0 & Hl0 & Hl0').
      cbn [fst snd] in Heq. rewrite services_of_panel_snoc.
      destruct (Z.eqb_spec q (panel_id s)) as [->|Hne]; simplify_eq/=.
      * rewrite decide_True by done. repeat split; try done.
        by intros [? _]%app_eq_nil.
      * rewrite decide_False by congruence. rewrite app_nil_r. done.
    + intros s' Hs' Hp'.
      assert (exists l, (panel_id s', l) ∈ groups) as [l Hl].
      { apply elem_of_app in Hs' as [Hs'|Hs']; [by apply Hseen|].
        apply list_elem_of_singleton in Hs' as ->.
        apply list_elem_of_fmap in Hin as ([q l] & Heq & Hq). cbn in Heq. subst q.
        eauto. }
      exists (if panel_id s' =? panel_id s then l ++ [s] else l).
      apply list_elem_of_fmap. exists (panel_id s', l). split; [|done].
      cbn [fst snd]. by destruct (panel_id s' =? panel_id s).
  - assert (Hnone : services_of_panel (panel_id s) seen = []).
    { destruct (services_of_panel (panel_id s) seen) as [|s' l'] eqn:Hf; [done|].
      assert (Hs' : s' ∈ services_of_panel (panel_id s) seen)
        by (rewrite Hf; apply elem_of_cons; by left).
      apply list_elem_of_filter in Hs' as [Heq Hs'].
      destruct (Hseen s' Hs') as [l Hl]; [congruence|].
      exfalso. apply Hnin. apply list_elem_of_fmap. exists (panel_id s', l).
      split; [by cbn|done]. }
    split; [|split].
    + rewrite fmap_app. cbn. apply NoDup_app. split; [done|]. split.
      * intros q Hq Hq'. apply list_elem_of_singleton in Hq'. by subst q.
      * apply NoDup_singleton.
    + intros p l [Hpl|Hpl]%elem_of_app.
      * destruct (Hgroups p l Hpl) as (Hp & Hl & ->).
        repeat split; try done. rewrite services_of_panel_snoc.
        rewrite decide_False; [by rewrite app_nil_r|].
        intros Heq. apply Hnin. apply list_elem_of_fmap. exists (p, services_of_panel p seen).
        split; [by cbn|done].
      * apply list_elem_of_singleton in Hpl. simplify_eq/=.
        rewrite services_of_panel_snoc, Hnone. rewrite decide_True by done.
        done.
    + intros s' [Hs'|Hs']%elem_of_app Hp'.
      * destruct (Hseen s' Hs' Hp') as [l Hl]. exists l.
        apply elem_of_app. by left.
      * apply list_elem_of_singleton in Hs' as ->. exists [s].
        apply elem_of_app. right. by apply list_elem_of_singleton.
Qed.

Lemma grouped_foldl rest seen groups :
  grouped seen groups ->
  grouped (seen ++ rest)
    (foldl (fun groups s =>
              if panel_id s =? 0 then groups
              else add_to_panel (panel_id s) s groups) groups rest).
Proof.
  revert seen groups. induction rest as [|s rest IH]; intros seen groups H.
  - by rewrite app_nil_r.
  - cbn [foldl]. replace (seen ++ s :: rest) with ((seen ++ [s]) ++ rest)
      by (by rewrite <- app_assoc).
    by apply IH, grouped_step.
Qed.

(** X13. The grouping of a cycle hands every service that has a panel to
    exactly one panel task: the groups have distinct, non-zero panel ids as
    keys, none is empty, the group of a panel holds exactly the services of
    that panel in the order of the list, and every service with a panel has
    its group. Services without a panel are in no group. *)
Theorem services_grouped_by_panel services :
  let groups := services_by_panel services in
  NoDup (fst <$> groups)
  /\ (forall p l, (p, l) ∈ groups ->
                  p <> 0 /\ l <> [] /\ l = services_of_panel p services)
  /\ (forall s, s ∈ services -> panel_id s <> 0 ->
                (panel_id s, services_of_panel (panel_id s) services) ∈ groups)
  /\ (forall s p l, (p, l) ∈ groups -> s ∈ l -> panel_id s = p /\ s ∈ services).
Proof.
  cbv zeta.
  assert (H : grouped services (services_by_panel services)).
  { apply (grouped_foldl services [] []). split; [constructor|].
    split; [intros p l Hin; by apply elem_of_nil in Hin|].
    intros s Hs. by apply elem_of_nil in Hs. }
  destruct H as (Hnd & Hgroups & Hseen).
  split; [done|]. split; [done|]. split.
  - intros s Hs Hp. destruct (Hseen s Hs Hp) as [l Hl].
    by destruct (Hgroups _ _ Hl) as (_ & _ & <-).
  - intros s p l Hpl Hs. destruct (Hgroups p l Hpl) as (_ & _ & ->).
    unfold services_of_panel in Hs. apply list_elem_of_filter in Hs as [? ?]. done.
Qed.

(** ** An owner who is not in the user table *)

Global Instance notice_flags_same_preorder : PreOrder notice_flags_same.
Proof.
  split.
  - by intros r.
  - intros r1 r2 r3 [? ?] [? ?]. split; congruence.
Qed.

Section NoOwner.

Variable env : environment.
Variable now : Time.datetime.
Variable s : service.
Hypothesis no_owner : get_user_by_id env (user_id s) = None.

Ltac no_owner_cases :=
  unfold three_day_step, expiry_step, warning_step, exhaustion_step;
  unfold_paths; unfold_senders; rewrite ?no_owner;
  repeat case_match; mon_simpl.

Ltac notice_rows :=
  unfold_store;
  repeat first
    [ apply rows_from_refl; apply _
    | eapply rows_from_trans;
        [apply _ | | first [ apply rows_from_delete; apply _
                           | apply rows_from_alter; [apply _ | by intros []] ] ] ].

Lemma three_day_step_no_owner st :
  let st' := three_day_step env now s st in
  message_queue st' = message_queue st /\ bot_sent st' = bot_sent st
  /\ reports st' = reports st
  /\ rows_from notice_flags_same (db st) (db st').
Proof. cbv zeta. no_owner_cases; repeat split; try done; notice_rows. Qed.

Lemma expiry_step_no_owner c st :
  let st' := expiry_step env now s c st in
  message_queue st' = message_queue st /\ bot_sent st' = bot_sent st
  /\ reports st' = reports st
  /\ rows_from notice_flags_same (db st) (db st').
Proof. cbv zeta. no_owner_cases; repeat split; try done; notice_rows. Qed.

Lemma warning_step_no_owner p st :
  let st' := warning_step env s p st in
  message_queue st' = message_queue st /\ bot_sent st' = bot_sent st
  /\ reports st' = reports st
  /\ rows_from notice_flags_same (db st) (db st').
Proof. cbv zeta. no_owner_cases; repeat split; try done; notice_rows. Qed.

Lemma exhaustion_step_no_owner p u g st :
  let st' := exhaustion_step env now s p u g st in
  message_queue st' = message_queue st /\ bot_sent st' = bot_sent st
  /\ reports st' = reports st
  /\ rows_from notice_flags_same (db st) (db st').
Proof. cbv zeta. no_owner_cases; repeat split; try done; notice_rows. Qed.

End NoOwner.

(** X14. A service whose owner is not in the user table is evaluated like
    any other (it is still disabled or deleted when due), but nobody hears of
    it: the evaluation queues no message, sends none directly and files no
    channel report. The flags [warned_100_percent] and [warned_expired],
    which the notification itself raises, stay as they are in every row. *)
Theorem unknown_owner_hears_nothing env now s c st :
  get_user_by_id env (user_id s) = None ->
  let st' := process_client_traffic env now s c st in
  message_queue st' = message_queue st
  /\ bot_sent st' = bot_sent st
  /\ reports st' = reports st
  /\ rows_from notice_flags_same (db st) (db st').
Proof.
  intros no_owner.
  cbv zeta. rewrite process_client_traffic_steps. cbv zeta.
  set (st0 := match product_id s with Some _ => _ | None => st end).
  assert (H0 : message_queue st0 = message_queue st /\ bot_sent st0 = bot_sent st
               /\ reports st0 = reports st
               /\ rows_from notice_flags_same (db st) (db st0)).
  { subst st0. destruct (product_id s).
    - destruct (three_day_step_no_owner env now s no_owner st)
        as (Hq & Hb & Hr & Hd).
      destruct (expiry_step_no_owner env now s no_owner (Some c)
                  (three_day_step env now s st))
        as (Hq' & Hb' & Hr' & Hd').
      cbv zeta in *. rewrite Hq', Hb', Hr', Hq, Hb, Hr. repeat split.
      eapply rows_from_trans; [apply _|exact Hd|exact Hd'].
    - repeat split. apply rows_from_refl; apply _. }
  destruct H0 as (Hq & Hb & Hr & Hd).
  destruct (resolved_total c <=? 0); [mon_simpl; done|].
  match goal with
  | |- context [exhaustion_step env now s ?p ?u ?g ?x] =>
      destruct (exhaustion_step_no_owner env now s no_owner p u g x)
        as (Hq2 & Hb2 & Hr2 & Hd2)
  end.
  match goal with
  | |- context [warning_step env s ?p ?x] =>
      destruct (warning_step_no_owner env s no_owner p x)
        as (Hq1 & Hb1 & Hr1 & Hd1)
  end.
  cbv zeta in *. rewrite Hq2, Hb2, Hr2, Hq1, Hb1, Hr1. mon_simpl.
  repeat split; try done.
  eapply rows_from_trans; [apply _|exact Hd|].
  eapply rows_from_trans; [apply _|exact Hd1|exact Hd2].
Qed.

(** ** A service handed over as disabled *)

Section Disabled.

Variable env : environment.
Variable now : Time.datetime.
Variable s : service.
Hypothesis disabled : is_disabled s = true.

#[local] Instance week_flag_at_most_preorder : PreOrder week_flag_at_most.
Proof.
  split.
  - intros r. by left.
  - intros r1 r2 r3 [->| ->] [->| ->]; try (by left); try (by right).
Qed.

Lemma overage_check_only_refl st : overage_check_only s st st.
Proof.
  split; [by left|]. split.
  - exists []. split; [by rewrite app_nil_r|]. intros call Hc.
    by apply elem_of_nil in Hc.
  - apply rows_from_refl; apply _.
Qed.

Lemma overage_check_only_trans st1 st2 st3 :
  silent st1 st2 \/ silent st2 st3 ->
  overage_check_only s st1 st2 -> overage_check_only s st2 st3 ->
  overage_check_only s st1 st3.
Proof.
  intros Hs (He1 & (l1 & Hl1 & Hc1) & Hr1) (He2 & (l2 & Hl2 & Hc2) & Hr2).
  split; [|split].
  - destruct Hs as [Hs|Hs].
    + by eapply emits_silent_l.
    + by eapply emits_silent_r.
  - exists (l1 ++ l2). split; [by rewrite Hl2, Hl1, app_assoc|].
    intros call [?|?]%elem_of_app; eauto.
  - eapply rows_from_trans; [apply _|exact Hr1|exact Hr2].
Qed.

Ltac disabled_cases :=
  unfold three_day_step, expiry_step, warning_step, exhaustion_step;
  unfold_paths; unfold_senders; rewrite ?disabled; cbn [negb andb];
  repeat case_match; try discriminate; mon_simpl; unfold_store.

Ltac week_rows :=
  repeat first
    [ apply rows_from_refl; apply _
    | eapply rows_from_trans;
        [apply _ | | first [ apply rows_from_delete; apply _
                           | apply rows_from_alter; [apply _ | by right] ] ] ].

Ltac calls :=
  first [ exists []; split; [by rewrite app_nil_r|];
          intros ? Hc; by apply elem_of_nil in Hc
        | eexists [_]; split; [reflexivity|];
          intros ? Hc; by apply list_elem_of_singleton in Hc ].

Lemma three_day_step_disabled st :
  overage_check_only s st (three_day_step env now s st).
Proof.
  unfold overage_check_only, emits.
  disabled_cases; (split; [eauto|]); (split; [calls|week_rows]).
Qed.

Lemma expiry_step_disabled_silent c st :
  silent st (expiry_step env now s c st)
  /\ overage_check_only s st (expiry_step env now s c st).
Proof.
  unfold overage_check_only, emits, silent.
  disabled_cases; (split; [done|]); (split; [eauto|]); (split; [calls|week_rows]).
Qed.

Lemma warning_step_disabled_silent p st : warning_step env s p st = st.
Proof.
  unfold warning_step. rewrite disabled. cbn [negb]. rewrite andb_false_r.
  by repeat case_match.
Qed.

Lemma exhaustion_step_disabled_silent p u g st :
  silent st (exhaustion_step env now s p u g st)
  /\ overage_check_only s st (exhaustion_step env now s p u g st).
Proof.
  unfold overage_check_only, emits, silent.
  disabled_cases; (split; [done|]); (split; [eauto|]); (split; [calls|week_rows]).
Qed.

Lemma stage_update_overage_check_only g st :
  silent st (stage_update (service_id s) g st)
  /\ overage_check_only s st (stage_update (service_id s) g st).
Proof.
  split; [done|]. unfold overage_check_only, emits. mon_simpl.
  split; [eauto|]. split; [calls|week_rows].
Qed.

Lemma process_client_traffic_disabled c st :
  overage_check_only s st (process_client_traffic env now s c st).
Proof.
  rewrite process_client_traffic_steps. cbv zeta.
  set (st0 := match product_id s with Some _ => _ | None => st end).
  assert (H0 : overage_check_only s st st0).
  { subst st0. destruct (product_id s); [|apply overage_check_only_refl].
    destruct (expiry_step_disabled_silent (Some c) (three_day_step env now s st))
      as [Hs He].
    eapply overage_check_only_trans; [by right|apply three_day_step_disabled|done]. }
  set (g := Num.bytes_to_gb (resolved_used c)).
  destruct (stage_update_overage_check_only g st0) as [Hs1 H1].
  assert (H2 : overage_check_only s st (stage_update (service_id s) g st0)).
  { eapply overage_check_only_trans; [by right|exact H0|exact H1]. }
  destruct (resolved_total c <=? 0); [done|].
  rewrite warning_step_disabled_silent.
  match goal with
  | |- context [exhaustion_step env now s ?p ?u ?t ?x] =>
      destruct (exhaustion_step_disabled_silent p u t x) as [Hs3 H3]
  end.
  eapply overage_check_only_trans; [by right|exact H2|exact H3].
Qed.

End Disabled.

(** X15. A service that is handed over as disabled is only checked for
    overage. Its evaluation queues no 70% warning, no exhaustion notice and
    no expiry notice for any service, and at most one message, a three-day
    warning; it never calls [disable_client], the only panel calls it adds
    being [delete_client] for this service; and a row that is still in the
    store afterwards is as it was, but for the three-day flag. *)
Theorem disabled_service_is_only_checked_for_overage env now s c st :
  is_disabled s = true ->
  let st' := process_client_traffic env now s c st in
  (forall k sid, k <> ThreeDaysToExpiry -> queued k sid st' = queued k sid st)
  /\ (length (message_queue st') <= S (length (message_queue st)))%nat
  /\ (forall call, call ∈ panel_calls st' ->
        call ∈ panel_calls st
        \/ call = DeleteClient (panel_id s) (inbound_id s) (client_uuid s))
  /\ rows_from week_flag_at_most (db st) (db st').
Proof.
  intros Hd. cbv zeta.
  destruct (process_client_traffic_disabled env now s Hd c st)
    as (He & (l & Hl & Hc) & Hr).
  split; [|split; [|split]]; [| | |exact Hr].
  - intros k sid Hk. eapply emits_other; [exact He|]. intros [? _]. congruence.
  - destruct He as [->|[chat ->]]; [lia|]. rewrite length_app. cbn. lia.
  - intros call. rewrite Hl. intros [?|?]%elem_of_app; eauto.
Qed.

(** ** A cycle without panels *)

Lemma check_panel_services_parallel_unreachable env now p services st :
  (forall pm, get_panel_manager env p = Some pm -> login pm = false) ->
  check_panel_services_parallel env now p services st = st.
Proof.
  intros H. unfold check_panel_services_parallel.
  destruct (get_panel_manager env p) as [pm|]; [|done].
  by rewrite (H pm eq_refl).
Qed.

(** X16. When no panel can be reached (none is configured for the panel id,
    or its login fails), a cycle evaluates nothing: all it does is clear the
    update buffer. The store, the queue, the panel calls and the bulk writes
    are as they were, whatever the services are. *)
Theorem unreachable_panels_cycle env now st :
  (forall p pm, get_panel_manager env p = Some pm -> login pm = false) ->
  check_all_services env now st = with_pending_updates [] st.
Proof.
  intros H. unfold check_all_services.
  destruct (Store.get_all_active_services (db st)) as [|s0 services]; [done|].
  set (groups := services_by_panel (s0 :: services)). clearbody groups.
  assert (Hg : forall st0, check_panels env now groups st0 = st0).
  { unfold check_panels. induction groups as [|g groups IH]; intros st0; [done|].
    cbn [foldl]. rewrite check_panel_services_parallel_unreachable by eauto.
    apply IH. }
  rewrite Hg. reflexivity.
Qed.

(** ** A plan that is expired and exhausted at once *)

(** X17. The expiry check and the threshold checks of one evaluation both
    work on the service as it was handed over. So a plan that is found
    expired and at 100% or more in the same evaluation is handled by both:
    with a panel that disables and a known owner, [disable_client] is called
    twice, the owner gets the expiry notice and then the exhaustion notice,
    and the row ends up disabled with both anchors set to the time of the
    evaluation and both flags raised. *)
Theorem expired_and_exhausted_plan_is_handled_twice env now s c st pm u exp :
  db st !! service_id s = Some s ->
  expires_at s = Some exp ->
  truthy (product_id s) = true ->
  exp <= now ->
  is_disabled s = false ->
  warned_expired s = false ->
  warned_100_percent s = false ->
  0 < resolved_total c <= resolved_used c ->
  get_panel_manager env (panel_id s) = Some pm ->
  login pm = true ->
  disable_client pm (inbound_id s) (client_uuid s) = true ->
  get_user_by_id env (user_id s) = Some u ->
  let st' := process_client_traffic env now s c st in
  let disable := DisableClient (panel_id s) (inbound_id s) (client_uuid s) in
  panel_calls st' = panel_calls st ++ [disable; disable]
  /\ message_queue st'
     = message_queue st
         ++ [(telegram_id u, mk_message PlanExpired (service_id s));
             (telegram_id u, mk_message TrafficExhausted (service_id s))]
  /\ (exists r', db st' !! service_id s = Some r'
                 /\ status r' = "disabled"
                 /\ expired_at r' = Some now /\ exhausted_at r' = Some now
                 /\ warned_expired r' = true /\ warned_100_percent r' = true).
Proof.
  intros Hrow Hexp Hprod Hle Hd Hwe Hw100 [Ht Hu100] Hpm Hlogin Hdis Hu.
  cbv zeta. rewrite process_client_traffic_steps. cbv zeta.
  destruct (product_id s) as [z|] eqn:Hz; [|done].
  rewrite (three_day_step_expired env now s st exp Hexp Hle).
  assert (He : expiry_step env now s (Some c) st = handle_plan_expiration env now s st).
  { unfold expiry_step. rewrite Hexp, Hz, Hprod, Hd.
    by rewrite (proj2 (Z.leb_le exp now) Hle). }
  rewrite He.
  destruct (handle_plan_expiration_done env now s st pm u s
              Hpm Hlogin Hdis Hu Hrow Hwe) as (Hdb & Hq & Hp).
  cbv zeta in Hdb, Hq, Hp.
  set (st1 := handle_plan_expiration env now s st) in *.
  rewrite (proj2 (Z.leb_gt _ _) Ht).
  assert (H100 : (100 <= Num.usage_percentage (resolved_used c) (resolved_total c))%Q).
  { apply (usage_percentage_ge 100 _ _ Ht). lia. }
  destruct (at_100_percent _ H100) as [Hge Hlt].
  unfold warning_step, exhaustion_step. rewrite Hlt, Hge, Hd. cbn [negb].
  set (st2 := stage_update _ _ st1).
  destruct (handle_traffic_exhausted_done env now s st2 pm u _
              Hd Hpm Hlogin Hdis Hu Hdb Hw100) as (Hdb' & Hq' & Hp').
  cbv zeta in Hdb', Hq', Hp'. subst st2. mon_simpl.
  rewrite Hp', Hp, Hq', Hq, <- !app_assoc. split; [done|]. split; [done|].
  eexists. split; [exact Hdb'|]. done.
Qed.

(** ** The properties at concrete inputs *)

(** The plan of the example, expired an hour ago, gets its expiry notice. *)
Lemma plan_expiry_witness :
  is_disabled MoreExamples.expired_plan = false
  /\ queued PlanExpired 3
       (check_plan_expiration Examples.env_ok Examples.at_noon
          MoreExamples.expired_plan None
          (Examples.monitor_with MoreExamples.expired_plan))
     = 1%nat.
Proof.
  split; [reflexivity|].
  refine (proj1 (proj2 (proj2 (plan_expiry_disables_and_notifies
                                 Examples.env_ok Examples.at_noon
                                 MoreExamples.expired_plan None
                                 (Examples.monitor_with MoreExamples.expired_plan)
                                 Examples.panel_ok Examples.owner
                                 MoreExamples.expired_an_hour_ago
                                 _ _ _ _ _ _ _ _ _ _))));
    first [reflexivity | vm_compute; discriminate].
Defined.

(** With the panel down, the service of the example keeps its row. *)
Lemma failed_disable_witness :
  panel_disables Examples.env_panel_down Examples.volume_service = false
  /\ db (handle_traffic_exhausted Examples.env_panel_down Examples.at_noon
           Examples.volume_service
           (Examples.monitor_with Examples.volume_service))
     = db (Examples.monitor_with Examples.volume_service).
Proof.
  split; [reflexivity|].
  exact (proj1 (proj1 (failed_disable_marks_nothing
                         Examples.env_panel_down Examples.at_noon
                         Examples.volume_service
                         (Examples.monitor_with Examples.volume_service)
                         eq_refl))).
Defined.

(** The plan of the example, two days and an hour before its expiry. *)
Lemma three_day_window_witness :
  warned_one_week Examples.plan_unwarned = false
  /\ db (check_plan_expiration Examples.env_ok Examples.at_noon
           Examples.plan_unwarned None
           (Examples.monitor_with Examples.plan_unwarned)) !! 2
     = Some Examples.plan_warned.
Proof.
  split; [reflexivity|].
  refine (proj1 (proj1 (three_day_warning_window
                          Examples.env_ok Examples.at_noon Examples.plan_unwarned
                          None (Examples.monitor_with Examples.plan_unwarned)
                          (Examples.at_noon + 2 * Time.MICROS_PER_DAY
                           + 3600 * Time.MICROS_PER_SECOND)
                          _ _ _ _) _));
    first [reflexivity | vm_compute; split; [discriminate|reflexivity]].
Defined.

(** The iteration during which the monitor is stopped is the last one. *)
Lemma stop_witness :
  Scheduler.it_stop MoreExamples.stopping_iteration = true
  /\ Scheduler.run
       [MoreExamples.stopping_iteration; SchedulerExamples.slow_iteration]
       SchedulerExamples.started
     = Scheduler.stop_monitoring
         (Scheduler.iteration_body MoreExamples.stopping_iteration
            SchedulerExamples.started).
Proof.
  split; [reflexivity|].
  exact (proj1 (stop_is_cooperative MoreExamples.stopping_iteration
                  [SchedulerExamples.slow_iteration] SchedulerExamples.started
                  eq_refl eq_refl)).
Defined.

(** Ten messages queued at once are sent one after the other. *)
Lemma one_at_a_time_witness :
  Forall Dispatcher.tick_ok DispatcherExamples.ten_sends
  /\ forall i j a b,
       (i < j)%nat ->
       Dispatcher.sent
         (Dispatcher.run DispatcherExamples.ten_sends
            (fresh_worker DispatcherExamples.ten_messages 100)) !! i = Some a ->
       Dispatcher.sent
         (Dispatcher.run DispatcherExamples.ten_sends
            (fresh_worker DispatcherExamples.ten_messages 100)) !! j = Some b ->
       (Dispatcher.send_started a <= Dispatcher.send_finished a)%Q
       /\ (Dispatcher.send_finished a <= Dispatcher.send_started b)%Q
       /\ (Dispatcher.send_started b <= Dispatcher.send_finished b)%Q.
Proof.
  assert (H : Forall Dispatcher.tick_ok DispatcherExamples.ten_sends)
    by (repeat constructor; cbn; discriminate).
  split; [exact H|].
  exact (dispatcher_sends_one_at_a_time DispatcherExamples.ten_messages 100
           DispatcherExamples.ten_sends H).
Defined.

(** The service of the example at 75%, its owner unknown: nothing is
    queued. *)
Lemma unknown_owner_witness :
  get_user_by_id Examples.env_no_owner (user_id Examples.volume_service) = None
  /\ message_queue
       (process_client_traffic Examples.env_no_owner Examples.at_noon
          Examples.volume_service Examples.used_75_percent
          (Examples.monitor_with Examples.volume_service))
     = [].
Proof.
  split; [reflexivity|].
  exact (proj1 (unknown_owner_hears_nothing
                  Examples.env_no_owner Examples.at_noon Examples.volume_service
                  Examples.used_75_percent
                  (Examples.monitor_with Examples.volume_service) eq_refl)).
Defined.

(** The disabled service of the example, seen at 115%: no call but
    [delete_client]. *)
Lemma disabled_witness :
  is_disabled Examples.disabled_service = true
  /\ forall call,
       call ∈ panel_calls
                (process_client_traffic Examples.env_ok Examples.at_noon
                   Examples.disabled_service Examples.used_115_percent
                   (Examples.monitor_with Examples.disabled_service)) ->
       call ∈ panel_calls (Examples.monitor_with Examples.disabled_service)
       \/ call = DeleteClient 1 3 (Some "c0ffee").
Proof.
  split; [reflexivity|].
  exact (proj1 (proj2 (proj2 (disabled_service_is_only_checked_for_overage
                                Examples.env_ok Examples.at_noon
                                Examples.disabled_service Examples.used_115_percent
                                (Examples.monitor_with Examples.disabled_service)
                                eq_refl)))).
Defined.

Lemma panel_down_everywhere p pm :
  get_panel_manager Examples.env_panel_down p = Some pm -> login pm = false.
Proof. intros H. cbn in H. by simplify_eq. Defined.

(** With the panel down, a cycle over the service of the example only
    clears the buffer. *)
Lemma unreachable_witness :
  (forall p pm,
     get_panel_manager Examples.env_panel_down p = Some pm -> login pm = false)
  /\ check_all_services Examples.env_panel_down Examples.at_noon
       (Examples.monitor_with Examples.volume_service)
     = with_pending_updates [] (Examples.monitor_with Examples.volume_service).
Proof.
  split; [exact panel_down_everywhere|].
  exact (unreachable_panels_cycle Examples.env_panel_down Examples.at_noon
           (Examples.monitor_with Examples.volume_service)
           panel_down_everywhere).
Defined.

(** The expired plan of the example, seen at 105%: two calls of
    [disable_client]. *)
Lemma handled_twice_witness :
  0 < resolved_total Examples.used_105_percent
    <= resolved_used Examples.used_105_percent
  /\ panel_calls
       (process_client_traffic Examples.env_ok Examples.at_noon
          MoreExamples.expired_plan Examples.used_105_percent
          (Examples.monitor_with MoreExamples.expired_plan))
     = [DisableClient 1 3 (Some "facade"); DisableClient 1 3 (Some "facade")].
Proof.
  assert (H : 0 < resolved_total Examples.used_105_percent
                <= resolved_used Examples.used_105_percent)
    by (vm_compute; split; [reflexivity|discriminate]).
  split; [exact H|].
  refine (proj1 (expired_and_exhausted_plan_is_handled_twice
                   Examples.env_ok Examples.at_noon MoreExamples.expired_plan
                   Examples.used_105_percent
                   (Examples.monitor_with MoreExamples.expired_plan)
                   Examples.panel_ok Examples.owner
                   MoreExamples.expired_an_hour_ago
                   _ _ _ _ _ _ _ H _ _ _ _));
    first [reflexivity | vm_compute; discriminate].
Defined.

(** One byte more never shows as less. *)
Lemma monotone_witness :
  11 * Examples.GIB - 1 <= 11 * Examples.GIB
  /\ (Num.bytes_to_gb (11 * Examples.GIB - 1) <= Num.bytes_to_gb (11 * Examples.GIB))%Q.
Proof.
  assert (H : 11 * Examples.GIB - 1 <= 11 * Examples.GIB) by (vm_compute; discriminate).
  split; [exact H|].
  exact (bytes_to_gb_monotone (11 * Examples.GIB - 1) (11 * Examples.GIB) H).
Defined.
